(** * capture.c: frame acquisition, YUYV to RGB conversion and PPM emission

    A shallow embedding of [src/camera/capture.c].  The C functions keep
    their names.  File-scope variables of the program are the fields of the
    record [globals]; every system call answers through an explicit script
    of return values, so that a run of the program is a pure function of
    the initial globals and of the behaviour of the device and the file
    system. *)

From Stdlib Require Import ZArith Lia Strings.Byte Strings.String.
From stdpp Require Import base list functions gmap strings.

Open Scope Z_scope.

(** ** Machine integers and bytes *)

Module CInt.

(** [unsigned int] arithmetic wraps modulo 2^32. *)
Definition to_uint (z : Z) : Z := z mod 2 ^ 32.

(** Conversion of a 32-bit pattern to [int] (two's complement). *)
Definition to_int (z : Z) : Z := (z + 2 ^ 31) mod 2 ^ 32 - 2 ^ 31.

(** Range of [int]; signed arithmetic leaving it is undefined. *)
Definition fits_int (z : Z) : bool := (- 2 ^ 31 <=? z) && (z <? 2 ^ 31).

(** [(int) b] for an [unsigned char] b. *)
Definition uchar_val (b : byte) : Z := Z.of_N (Byte.to_N b).

(** Store of an [int] into an [unsigned char]: reduction modulo 256. *)
Definition to_uchar (z : Z) : byte :=
  default x00 (Byte.of_N (Z.to_N (z mod 256))).

End CInt.
Export CInt.

(** ** Pixel pipeline: the colour transform *)

(** The three [int] values r1, g1, b1 of [yuv2rgb] after clipping, in the
    order of the statements of the source: the transform, the three
    upper clips, the three lower clips.  [>> 8] on a negative [int] is
    the arithmetic shift, [Z.shiftr].  The sums stay inside [int] for
    the byte values [process_image] passes (lemma
    [yuv2rgb_no_overflow]), the only arguments the program calls the
    function with; for other [int] arguments the sums of the C function
    can overflow, and the statements below make no use of the
    definition there. *)
Definition yuv2rgb_int (y u v : Z) : Z * Z * Z :=
  let c := y - 16 in
  let d := u - 128 in
  let e := v - 128 in
  let r1 := Z.shiftr (298 * c + 409 * e + 128) 8 in
  let g1 := Z.shiftr (298 * c - 100 * d - 208 * e + 128) 8 in
  let b1 := Z.shiftr (298 * c + 516 * d + 128) 8 in
  let r1 := if r1 >? 255 then 255 else r1 in
  let g1 := if g1 >? 255 then 255 else g1 in
  let b1 := if b1 >? 255 then 255 else b1 in
  let r1 := if r1 <? 0 then 0 else r1 in
  let g1 := if g1 <? 0 then 0 else g1 in
  let b1 := if b1 <? 0 then 0 else b1 in
  (r1, g1, b1).

(** [yuv2rgb]: the clipped values are stored through the three
    [unsigned char] pointers. *)
Definition yuv2rgb (y u v : Z) : byte * byte * byte :=
  let '(r1, g1, b1) := yuv2rgb_int y u v in
  (to_uchar r1, to_uchar g1, to_uchar b1).

(** ** Pixel pipeline: the conversion loop of [process_image] *)

(** [unsigned char bigbuffer[(1280*960)]]. *)
Definition BIGBUFFER_SIZE : Z := 1280 * 960.

(** The scratch array is a function from index to byte; the bound is
    checked at every store of the loop. *)
Abbreviation array := (Z -> byte).

(** The [n] bytes of an array from index [start] on. *)
Definition array_slice (a : array) (start n : Z) : list byte :=
  a <$> seqZ start n.

(** [pptr[i]]: a read outside the mapped buffer has no defined value. *)
Definition load (pptr : list byte) (i : Z) : option byte :=
  if i <? 0 then None else pptr !! Z.to_nat i.

(** The loop
    [for(i=0, newi=0; i<size; i=i+4, newi=newi+6)] of [process_image].
    [None] is an access outside [pptr] or outside [bigbuffer].  [fuel]
    bounds the number of passes; [Z.to_nat size] always suffices
    (lemma [yuyv_loop_fuel]). *)
Fixpoint yuyv_loop (fuel : nat) (pptr : list byte) (size i newi : Z)
    (bigbuffer : array) : option array :=
  if i <? size then
    match fuel with
    | O => None
    | S fuel' =>
        y_temp ← load pptr i;
        u_temp ← load pptr (i + 1);
        y2_temp ← load pptr (i + 2);
        v_temp ← load pptr (i + 3);
        if (0 <=? newi) && (newi + 5 <? BIGBUFFER_SIZE) then
          let '(r, g, b) :=
            yuv2rgb (uchar_val y_temp) (uchar_val u_temp) (uchar_val v_temp) in
          let bigbuffer :=
            <[newi + 2 := b]> (<[newi + 1 := g]> (<[newi := r]> bigbuffer)) in
          let '(r, g, b) :=
            yuv2rgb (uchar_val y2_temp) (uchar_val u_temp) (uchar_val v_temp) in
          let bigbuffer :=
            <[newi + 5 := b]> (<[newi + 4 := g]> (<[newi + 3 := r]> bigbuffer)) in
          yuyv_loop fuel' pptr size (i + 4) (newi + 6) bigbuffer
        else None
    end
  else Some bigbuffer.

Definition convert_yuyv (pptr : list byte) (size : Z) (bigbuffer : array)
    : option array :=
  yuyv_loop (Z.to_nat size) pptr size 0 0 bigbuffer.

(** The bytes handed to [dump_ppm] on the YUYV path:
    [dump_ppm(bigbuffer, ((size*6)/4), ...)], with [size*6] computed
    in [int]. *)
Definition yuyv_payload (pptr : list byte) (size : Z) (bigbuffer : array)
    : option (list byte) :=
  bb ← convert_yuyv pptr size bigbuffer;
  if fits_int (size * 6)
  then Some (array_slice bb 0 (Z.quot (size * 6) 4))
  else None.

(** *** The transform in the words of the specification *)

Definition clamp8 (x : Z) : Z := Z.max 0 (Z.min 255 x).

Definition spec_rgb (luma chromaU chromaV : Z) : list Z :=
  let c := luma - 16 in
  let d := chromaU - 128 in
  let e := chromaV - 128 in
  [ clamp8 (Z.shiftr (298 * c + 409 * e + 128) 8);
    clamp8 (Z.shiftr (298 * c - 100 * d - 208 * e + 128) 8);
    clamp8 (Z.shiftr (298 * c + 516 * d + 128) 8) ].

(** A group of four input bytes (luma0, chromaU, luma1, chromaV). *)
Definition group : Type := byte * byte * byte * byte.

Definition group_bytes (q : group) : list byte :=
  let '(luma0, chromaU, luma1, chromaV) := q in
  [luma0; chromaU; luma1; chromaV].

Definition spec_group (q : group) : list Z :=
  let '(luma0, chromaU, luma1, chromaV) := q in
  spec_rgb (uchar_val luma0) (uchar_val chromaU) (uchar_val chromaV)
  ++ spec_rgb (uchar_val luma1) (uchar_val chromaU) (uchar_val chromaV).

(** The six output bytes the loop body stores for one group. *)
Definition code_group (q : group) : list byte :=
  let '(luma0, chromaU, luma1, chromaV) := q in
  let '(r, g, b) :=
    yuv2rgb (uchar_val luma0) (uchar_val chromaU) (uchar_val chromaV) in
  let '(r2, g2, b2) :=
    yuv2rgb (uchar_val luma1) (uchar_val chromaU) (uchar_val chromaV) in
  [r; g; b; r2; g2; b2].

(** The six [int] values r1, g1, b1 the two calls of [yuv2rgb] for one
    group hold at their stores [*r = r1; *g = g1; *b = b1;]. *)
Definition group_ints (q : group) : list Z :=
  let '(luma0, chromaU, luma1, chromaV) := q in
  let '(r, g, b) :=
    yuv2rgb_int (uchar_val luma0) (uchar_val chromaU) (uchar_val chromaV) in
  let '(r2, g2, b2) :=
    yuv2rgb_int (uchar_val luma1) (uchar_val chromaU) (uchar_val chromaV) in
  [r; g; b; r2; g2; b2].

(** ** Program state and outcomes *)

(** The values of [errno] the program tests, and all the others. *)
Inductive errno : Type :=
| EINTR
| EAGAIN
| EIO
| EINVAL
| Eother (code : Z).

(** [fmt.fmt.pix.pixelformat]: the two formats [process_image] tests,
    and any other four-character code. *)
Inductive pixelformat : Type :=
| V4L2_PIX_FMT_YUYV
| V4L2_PIX_FMT_RGB24
| PixOther (fourcc : Z).

Definition EXIT_FAILURE : Z := 1.

(** [struct buffer]. *)
Record buffer : Type := { buf_start : Z; buf_length : Z }.

(** The file-scope variables the modelled functions read or write, and
    the regular files of the file system (path to contents). *)
Record globals : Type := {
  fmt_pixelformat : pixelformat;
  buffers : list buffer;
  n_buffers : Z;
  frame_count : Z;
  framecnt : Z;
  bigbuffer : array;
  ppm_dumpname : list byte;
  files : gmap string (list byte)
}.

Definition set_buffers (x : list buffer) (g : globals) : globals :=
  {| fmt_pixelformat := fmt_pixelformat g; buffers := x;
     n_buffers := n_buffers g; frame_count := frame_count g;
     framecnt := framecnt g; bigbuffer := bigbuffer g;
     ppm_dumpname := ppm_dumpname g; files := files g |}.

Definition set_n_buffers (x : Z) (g : globals) : globals :=
  {| fmt_pixelformat := fmt_pixelformat g; buffers := buffers g;
     n_buffers := x; frame_count := frame_count g;
     framecnt := framecnt g; bigbuffer := bigbuffer g;
     ppm_dumpname := ppm_dumpname g; files := files g |}.

Definition set_framecnt (x : Z) (g : globals) : globals :=
  {| fmt_pixelformat := fmt_pixelformat g; buffers := buffers g;
     n_buffers := n_buffers g; frame_count := frame_count g;
     framecnt := x; bigbuffer := bigbuffer g;
     ppm_dumpname := ppm_dumpname g; files := files g |}.

Definition set_bigbuffer (x : array) (g : globals) : globals :=
  {| fmt_pixelformat := fmt_pixelformat g; buffers := buffers g;
     n_buffers := n_buffers g; frame_count := frame_count g;
     framecnt := framecnt g; bigbuffer := x;
     ppm_dumpname := ppm_dumpname g; files := files g |}.

Definition set_ppm_dumpname (x : list byte) (g : globals) : globals :=
  {| fmt_pixelformat := fmt_pixelformat g; buffers := buffers g;
     n_buffers := n_buffers g; frame_count := frame_count g;
     framecnt := framecnt g; bigbuffer := bigbuffer g;
     ppm_dumpname := x; files := files g |}.

Definition set_files (x : gmap string (list byte)) (g : globals) : globals :=
  {| fmt_pixelformat := fmt_pixelformat g; buffers := buffers g;
     n_buffers := n_buffers g; frame_count := frame_count g;
     framecnt := framecnt g; bigbuffer := bigbuffer g;
     ppm_dumpname := ppm_dumpname g; files := x |}.

(** What the process prints on [stderr] before [exit]:
    [errno_exit(s)] or a fixed message. *)
Inductive diagnostic : Type :=
| ErrnoExit (s : string) (e : errno)
| Message (s : string).

(** How a call ends.  [Exit] is a call of [exit]; [Abort] a failed
    [assert]; [Undefined] an access outside an object or a signed
    overflow; [Starved] means that the script of system-call answers
    ended while the call was still running. *)
Inductive result (A : Type) : Type :=
| Return (a : A)
| Exit (status : Z) (d : diagnostic) (g : globals)
| Abort (g : globals)
| Undefined
| Starved (g : globals).

Arguments Return {A} a.
Arguments Exit {A} status d g.
Arguments Abort {A} g.
Arguments Undefined {A}.
Arguments Starved {A} g.

#[global] Instance result_bind : MBind result :=
  fun A B (k : A -> result B) (m : result A) =>
    match m with
    | Return a => k a
    | Exit status d g => Exit status d g
    | Abort g => Abort g
    | Undefined => Undefined
    | Starved g => Starved g
    end.

(** [errno_exit(s)]. *)
Definition errno_exit {A : Type} (s : string) (e : errno) (g : globals)
    : result A :=
  Exit EXIT_FAILURE (ErrnoExit s e) g.

(** What one [ioctl] call answers: its return value, [errno], and the
    argument structure as the driver leaves it. *)
Record ioctl_ret (A : Type) : Type :=
  { io_r : Z; io_errno : errno; io_arg : A }.

Arguments io_r {A} _.
Arguments io_errno {A} _.
Arguments io_arg {A} _.

Definition is_EINTR (e : errno) : bool :=
  match e with EINTR => true | _ => false end.

(** [xioctl]: the call is repeated while it returns -1 with [EINTR].
    The script lists the answers of the successive [ioctl] calls;
    [None] when it ends before an answer other than [EINTR]. *)
Fixpoint xioctl {A : Type} (script : list (ioctl_ret A))
    : option (ioctl_ret A) :=
  match script with
  | [] => None
  | r :: script' =>
      if (io_r r =? -1) && is_EINTR (io_errno r) then xioctl script'
      else Some r
  end.

(** ** Artifact emission: [dump_ppm] *)

Definition HRES_STR : string := "320".
Definition VRES_STR : string := "240".
Definition HRES : Z := 320.
Definition VRES : Z := 240.

(** The newline character. *)
Definition LF : byte := x0a.

(** [char ppm_header[]], without its terminator (the program writes
    [sizeof(ppm_header)-1] bytes). *)
Definition ppm_header : list byte :=
  list_byte_of_string "P6" ++ [LF]
  ++ list_byte_of_string "#9999999999 sec 9999999999 msec " ++ [LF]
  ++ list_byte_of_string HRES_STR ++ list_byte_of_string " "
  ++ list_byte_of_string VRES_STR ++ [LF]
  ++ list_byte_of_string "255" ++ [LF].

(** [char ppm_dumpname[]] as initialised, with its terminator. *)
Definition ppm_dumpname_init : list byte :=
  list_byte_of_string "frames/test00000000.ppm" ++ [x00].

(** *** The C library on character arrays *)

(** Length of the string that starts an array: bytes before the first
    terminator; [None] when the array holds none. *)
Fixpoint strlen (a : list byte) : option nat :=
  match a with
  | [] => None
  | x00 :: _ => Some O
  | _ :: a' => S <$> strlen a'
  end.

(** The string that starts an array. *)
Definition cstring (a : list byte) : list byte :=
  match strlen a with
  | Some n => take n a
  | None => a
  end.

(** Bytes [s] written into array [a] from index [pos] on; [None] when
    they do not fit. *)
Definition poke (a : list byte) (pos : nat) (s : list byte)
    : option (list byte) :=
  if decide (pos + length s <= length a)%nat
  then Some (take pos a ++ s ++ drop (pos + length s) a)
  else None.

(** Decimal digits of a number [0 <= n], most significant first. *)
Fixpoint decimal (fuel : nat) (n : Z) : list byte :=
  match fuel with
  | O => []
  | S fuel' =>
      if n <? 10 then [to_uchar (48 + n)]
      else decimal fuel' (n / 10) ++ [to_uchar (48 + n mod 10)]
  end.

(** The conversion [%08d] of an [int]: sign, then zeros up to a field
    width of 8, then the digits (at most 10 for an [int]). *)
Definition printf_08d (v : Z) : list byte :=
  let digits := decimal 10 (Z.abs v) in
  if v <? 0
  then x2d :: replicate (7 - length digits) x30 ++ digits
  else replicate (8 - length digits) x30 ++ digits.

(** [snprintf(&a[pos], n, "%08d", tag)]: at most [n-1] characters and
    a terminator; the [unsigned] tag is read as an [int]. *)
Definition snprintf_08d (a : list byte) (pos n : nat) (tag : Z)
    : option (list byte) :=
  poke a pos (take (n - 1) (printf_08d (to_int tag)) ++ [x00]).

(** [strncat(&a[pos], src, n)]: at most [n] characters of [src] and a
    terminator, put where the string at [pos] ends. *)
Definition strncat (a : list byte) (pos : nat) (src : list byte) (n : nat)
    : option (list byte) :=
  len ← strlen (drop pos a);
  poke a (pos + len) (take n src ++ [x00]).

(** *** The file system *)

(** What the system calls of one [dump_ppm] answer: the descriptor
    [open] returns (-1 on failure), the return value of the [write] of
    the header, and the return values of the successive [write]s of
    the payload. *)
Record frame_io : Type :=
  { fio_open : Z; fio_header : Z; fio_payload : list Z }.

(** [open(path, O_WRONLY | O_NONBLOCK | O_CREAT, 00666)] returning
    [fd]: a missing file is created empty, an existing one is kept (no
    [O_TRUNC]). *)
Definition sys_open (path : string) (fd : Z) (g : globals) : globals :=
  if fd =? -1 then g
  else match files g !! path with
       | Some _ => g
       | None => set_files (<[path := []]> (files g)) g
       end.

(** Bytes [data] put into a file at offset [off]. *)
Definition overwrite (content : list byte) (off : nat) (data : list byte)
    : list byte :=
  take off content ++ data ++ drop (off + length data) content.

(** [write(fd, p, count)] returning [ret], at file offset [off]: the
    first [ret] bytes of [p] reach the file and the offset advances;
    nothing happens when the call fails or writes nothing. *)
Definition sys_write (fd : Z) (path : string) (off : nat) (p : list byte)
    (count ret : Z) (g : globals) : globals * nat :=
  if (fd =? -1) || (ret <=? 0) then (g, off)
  else
    let data := take (Z.to_nat ret) (take (Z.to_nat count) p) in
    (set_files
       (<[path := overwrite (default [] (files g !! path)) off data]>
          (files g)) g,
     (off + length data)%nat).

(** The loop [do { written=write(dumpfd, p, size); total+=written; }
    while(total < size)]: every pass writes from the start of [p].
    The result is [total] and the state. *)
Fixpoint write_loop (rets : list Z) (dumpfd : Z) (path : string) (off : nat)
    (p : list byte) (size total : Z) (g : globals) : result (Z * globals) :=
  match rets with
  | [] => Starved g
  | written :: rets' =>
      let '(g, off) := sys_write dumpfd path off p size written g in
      let total := total + written in
      if fits_int total then
        if total <? size
        then write_loop rets' dumpfd path off p size total g
        else Return (total, g)
      else Undefined
  end.

(** The two statements that build the file name in [ppm_dumpname]:
    [snprintf(&ppm_dumpname[4], 9, "%08d", tag);
     strncat(&ppm_dumpname[12], ".ppm", 5);] *)
Definition dump_name (name : list byte) (tag : Z) : option (list byte) :=
  name ← snprintf_08d name 4 9 tag;
  strncat name 12 (list_byte_of_string ".ppm") 5.

(** The path [open] is given: the string that starts the array. *)
Definition path_of (name : list byte) : string :=
  string_of_list_byte (cstring name).

(** [dump_ppm(p, size, tag, time)]; [p] holds the bytes the pointer
    gives access to. *)
Definition dump_ppm (p : list byte) (size : Z) (tag : Z) (io : frame_io)
    (g : globals) : result globals :=
  match dump_name (ppm_dumpname g) tag with
  | None => Undefined
  | Some name =>
      let g := set_ppm_dumpname name g in
      let path := path_of name in
      let dumpfd := fio_open io in
      let g := sys_open path dumpfd g in
      let '(g, off) :=
        sys_write dumpfd path 0 ppm_header
          (Z.of_nat (length ppm_header)) (fio_header io) g in
      '(total, g) ← write_loop (fio_payload io) dumpfd path off p size 0 g;
      Return g
  end.

(** ** Pixel pipeline: [process_image] *)

(** [process_image(p, size)].  On the YUYV path the argument
    [((size*6)/4)] of [dump_ppm] is computed in [int] after the loop:
    the product [size*6] has to fit, and [/] truncates towards zero
    ([Z.quot]). *)
Definition process_image (p : list byte) (size : Z) (io : frame_io)
    (g : globals) : result globals :=
  let g := set_framecnt (to_uint (framecnt g + 1)) g in
  match fmt_pixelformat g with
  | V4L2_PIX_FMT_YUYV =>
      match convert_yuyv p size (bigbuffer g) with
      | None => Undefined
      | Some bb =>
          let g := set_bigbuffer bb g in
          if fits_int (size * 6) then
            let newsize := Z.quot (size * 6) 4 in
            dump_ppm (array_slice bb 0 newsize) newsize (framecnt g) io g
          else Undefined
      end
  | V4L2_PIX_FMT_RGB24 =>
      dump_ppm (take (Z.to_nat size) p) size (framecnt g) io g
  | PixOther _ => Return g
  end.

(** ** Acquisition loop: [read_frame] and [mainloop] *)

(** The fields of [struct v4l2_buffer] the program reads after a
    dequeue. *)
Record v4l2_buffer : Type := { index : Z; bytesused : Z }.

(** [struct timeval]. *)
Record timeval : Type := { tv_sec : Z; tv_usec : Z }.

(** What the device and the file system do during one pass of the
    [for (;;)] body of [mainloop]: the answer of [select] (return value
    and [errno]) to the timeout it is given, the answers of the
    successive [ioctl(VIDIOC_DQBUF)] calls, the contents of the mapped
    buffer the dequeue designates, the answers met by [dump_ppm], and
    the answers of the successive [ioctl(VIDIOC_QBUF)] calls. *)
Record iteration : Type := {
  it_select : timeval -> Z * errno;
  it_dqbuf : list (ioctl_ret v4l2_buffer);
  it_data : list byte;
  it_io : frame_io;
  it_qbuf : list (ioctl_ret unit)
}.

(** Calls without effect on the state modelled are left out:
    [clock_gettime], [printf], [fflush] and [close] in [dump_ppm] and
    [process_image], [nanosleep] (whose failure only prints a message)
    and [FD_ZERO]/[FD_SET] in [mainloop]. *)

(** [read_frame]: the value returned (0 or 1) and the state. *)
Definition read_frame (it : iteration) (g : globals) : result (Z * globals) :=
  match xioctl (it_dqbuf it) with
  | None => Starved g
  | Some dq =>
      if io_r dq =? -1 then
        match io_errno dq with
        | EAGAIN => Return (0, g)
        | EIO => Return (0, g)
        | e => errno_exit "VIDIOC_DQBUF" e g
        end
      else
        let buf := io_arg dq in
        if index buf <? n_buffers g then
          g ← process_image (it_data it) (to_int (bytesused buf)) (it_io it) g;
          match xioctl (it_qbuf it) with
          | None => Starved g
          | Some q =>
              if io_r q =? -1 then errno_exit "VIDIOC_QBUF" (io_errno q) g
              else Return (1, g)
          end
        else Abort g
  end.

(** [tv.tv_sec = 2; tv.tv_usec = 0;], set anew before every [select]. *)
Definition select_timeout : timeval := {| tv_sec := 2; tv_usec := 0 |}.

(** The [for (;;)] loop of [mainloop], entered with [count].  Each pass
    takes one [iteration] of the script.  When the loop is left by
    [break], the code that follows it is run: [if(count <= 0) break;]
    and then the test [count > 0] of the enclosing [while], which
    enters the [for (;;)] loop again.  The result is the state and the
    part of the script that was not used. *)
Fixpoint for_loop (script : list iteration) (count : Z) (g : globals)
    : result (globals * list iteration) :=
  match script with
  | [] => Starved g
  | it :: script' =>
      let '(r, e) := it_select it select_timeout in
      if r =? -1 then
        if is_EINTR e then for_loop script' count g
        else errno_exit "select" e g
      else if r =? 0 then Exit EXIT_FAILURE (Message "select timeout") g
      else
        '(got, g) ← read_frame it g;
        if got =? 0 then
          if count <=? 0 then Return (g, script')
          else for_loop script' count g
        else
          let count := to_uint (count - 1) in
          if count <=? 0 then Return (g, script')
          else if 0 <? count then for_loop script' count g
          else Return (g, script')
  end.

(** [mainloop]. *)
Definition mainloop (script : list iteration) (g : globals)
    : result (globals * list iteration) :=
  let count := to_uint (frame_count g) in
  if 0 <? count then for_loop script count g
  else Return (g, script).

(** ** Buffer pool: [init_mmap] *)

(** The fields of [struct v4l2_buffer] that [VIDIOC_QUERYBUF] fills. *)
Record querybuf : Type := { qb_length : Z; qb_offset : Z }.

(** What [mmap] returns: an address, or [MAP_FAILED] with [errno]. *)
Inductive mmap_ret : Type :=
| Mapped (addr : Z)
| MAP_FAILED (e : errno).

(** The pointer [mmap] returns; [MAP_FAILED] is the pointer value -1. *)
Definition mmap_addr (m : mmap_ret) : Z :=
  match m with
  | Mapped addr => addr
  | MAP_FAILED _ => -1
  end.

(** What the device does for one buffer: the answers of the successive
    [ioctl(VIDIOC_QUERYBUF)] calls and the answer of [mmap] to a length
    and an offset. *)
Record buffer_script : Type := {
  bs_querybuf : list (ioctl_ret querybuf);
  bs_mmap : Z -> Z -> mmap_ret
}.

(** What the device and the allocator do during [init_mmap]: the
    answers of the successive [ioctl(VIDIOC_REQBUFS)] calls to a
    requested count (each with the count the driver grants), whether
    [calloc] succeeds, and one script per buffer. *)
Record mmap_script : Type := {
  ms_reqbufs : Z -> list (ioctl_ret Z);
  ms_calloc : bool;
  ms_buffers : list buffer_script
}.

(** The loop [for (n_buffers = 0; n_buffers < req.count; ++n_buffers)]
    of [init_mmap], from the current [n_buffers] on. *)
Fixpoint map_buffers (script : list buffer_script) (count : Z) (g : globals)
    : result globals :=
  if n_buffers g <? count then
    match script with
    | [] => Starved g
    | bs :: script' =>
        match xioctl (bs_querybuf bs) with
        | None => Starved g
        | Some qb =>
            if io_r qb =? -1 then errno_exit "VIDIOC_QUERYBUF" (io_errno qb) g
            else
              let buf := io_arg qb in
              let slot := Z.to_nat (n_buffers g) in
              let start := bs_mmap bs (qb_length buf) (qb_offset buf) in
              let b :=
                {| buf_start := mmap_addr start;
                   buf_length := qb_length buf |} in
              let g := set_buffers (<[slot := b]> (buffers g)) g in
              match start with
              | MAP_FAILED e => errno_exit "mmap" e g
              | Mapped _ =>
                  map_buffers script' count
                    (set_n_buffers (to_uint (n_buffers g + 1)) g)
              end
        end
    end
  else Return g.

(** [req.count = 6;] *)
Definition requested_buffers : Z := 6.

(** [init_mmap]. *)
Definition init_mmap (s : mmap_script) (g : globals) : result globals :=
  match xioctl (ms_reqbufs s requested_buffers) with
  | None => Starved g
  | Some req =>
      if io_r req =? -1 then
        match io_errno req with
        | EINVAL =>
            Exit EXIT_FAILURE (Message "does not support memory mapping") g
        | e => errno_exit "VIDIOC_REQBUFS" e g
        end
      else
        let count := io_arg req in
        if count <? 2
        then Exit EXIT_FAILURE (Message "Insufficient buffer memory") g
        else if ms_calloc s then
          let zero := {| buf_start := 0; buf_length := 0 |} in
          let g := set_buffers (replicate (Z.to_nat count) zero) g in
          map_buffers (ms_buffers s) count (set_n_buffers 0 g)
        else Exit EXIT_FAILURE (Message "Out of memory") g
  end.

(** ** The state at program start *)

(** The initial values of the file-scope variables, for a negotiated
    pixel format and a file system. *)
Definition initial (pf : pixelformat) (fs : gmap string (list byte))
    : globals :=
  {| fmt_pixelformat := pf; buffers := []; n_buffers := 0;
     frame_count := 30; framecnt := 0; bigbuffer := fun _ => x00;
     ppm_dumpname := ppm_dumpname_init; files := fs |}.

(** ** Device set-up and tear-down *)

(** [struct v4l2_pix_format]: the fields of [fmt.fmt.pix] the program
    sets or reads. *)
Record v4l2_pix_format : Type := {
  pix_width : Z;
  pix_height : Z;
  pix_pixelformat : pixelformat;
  pix_field : Z;
  pix_bytesperline : Z;
  pix_sizeimage : Z
}.

(** The file-scope variables of the whole program: [dev_name], [fd],
    the fields of [fmt.fmt.pix] besides the pixel format, and the
    variables [globals] holds (the pixel format among them). *)
Record device : Type := {
  dev_name : string;
  fd : Z;
  fmt_width : Z;
  fmt_height : Z;
  fmt_field : Z;
  fmt_bytesperline : Z;
  fmt_sizeimage : Z;
  vars : globals
}.

Definition set_fmt_pixelformat (x : pixelformat) (g : globals) : globals :=
  {| fmt_pixelformat := x; buffers := buffers g;
     n_buffers := n_buffers g; frame_count := frame_count g;
     framecnt := framecnt g; bigbuffer := bigbuffer g;
     ppm_dumpname := ppm_dumpname g; files := files g |}.

Definition set_dev_name (x : string) (d : device) : device :=
  {| dev_name := x; fd := fd d; fmt_width := fmt_width d;
     fmt_height := fmt_height d; fmt_field := fmt_field d;
     fmt_bytesperline := fmt_bytesperline d;
     fmt_sizeimage := fmt_sizeimage d; vars := vars d |}.

Definition set_fd (x : Z) (d : device) : device :=
  {| dev_name := dev_name d; fd := x; fmt_width := fmt_width d;
     fmt_height := fmt_height d; fmt_field := fmt_field d;
     fmt_bytesperline := fmt_bytesperline d;
     fmt_sizeimage := fmt_sizeimage d; vars := vars d |}.

Definition set_fmt_bytesperline (x : Z) (d : device) : device :=
  {| dev_name := dev_name d; fd := fd d; fmt_width := fmt_width d;
     fmt_height := fmt_height d; fmt_field := fmt_field d;
     fmt_bytesperline := x;
     fmt_sizeimage := fmt_sizeimage d; vars := vars d |}.

Definition set_fmt_sizeimage (x : Z) (d : device) : device :=
  {| dev_name := dev_name d; fd := fd d; fmt_width := fmt_width d;
     fmt_height := fmt_height d; fmt_field := fmt_field d;
     fmt_bytesperline := fmt_bytesperline d;
     fmt_sizeimage := x; vars := vars d |}.

Definition set_vars (x : globals) (d : device) : device :=
  {| dev_name := dev_name d; fd := fd d; fmt_width := fmt_width d;
     fmt_height := fmt_height d; fmt_field := fmt_field d;
     fmt_bytesperline := fmt_bytesperline d;
     fmt_sizeimage := fmt_sizeimage d; vars := x |}.

(** [fmt.fmt.pix] read as a whole, and written as a whole. *)
Definition fmt_pix (d : device) : v4l2_pix_format :=
  {| pix_width := fmt_width d; pix_height := fmt_height d;
     pix_pixelformat := fmt_pixelformat (vars d);
     pix_field := fmt_field d;
     pix_bytesperline := fmt_bytesperline d;
     pix_sizeimage := fmt_sizeimage d |}.

Definition set_fmt_pix (x : v4l2_pix_format) (d : device) : device :=
  {| dev_name := dev_name d; fd := fd d; fmt_width := pix_width x;
     fmt_height := pix_height x; fmt_field := pix_field x;
     fmt_bytesperline := pix_bytesperline x;
     fmt_sizeimage := pix_sizeimage x;
     vars := set_fmt_pixelformat (pix_pixelformat x) (vars d) |}.

(** *** [open_device] *)

(** What [stat] answers for a path: its return value, [errno], and
    whether [S_ISCHR] holds of the mode it stores. *)
Record stat_ret : Type := { st_r : Z; st_errno : errno; st_ischr : bool }.

(** What the file system answers to [open_device]: [stat] and
    [open(path, O_RDWR | O_NONBLOCK, 0)] (a descriptor or -1, and
    [errno]). *)
Record open_script : Type := {
  od_stat : string -> stat_ret;
  od_open : string -> Z * errno
}.

(** [open_device].  The messages are the fixed part of what the
    program prints. *)
Definition open_device (s : open_script) (d : device) : result device :=
  let st := od_stat s (dev_name d) in
  if st_r st =? -1
  then Exit EXIT_FAILURE (Message "Cannot identify") (vars d)
  else if negb (st_ischr st)
  then Exit EXIT_FAILURE (Message "is no device") (vars d)
  else
    let d := set_fd (od_open s (dev_name d)).1 d in
    if fd d =? -1
    then Exit EXIT_FAILURE (Message "Cannot open") (vars d)
    else Return d.

(** *** [init_device] *)

(** Constants of [linux/videodev2.h]. *)
Definition V4L2_CAP_VIDEO_CAPTURE : Z := 0x00000001.
Definition V4L2_CAP_STREAMING : Z := 0x04000000.
Definition V4L2_FIELD_NONE : Z := 1.

(** [static int force_format=1;], never assigned. *)
Definition force_format : Z := 1.

(** [struct v4l2_rect]. *)
Record v4l2_rect : Type :=
  { rect_left : Z; rect_top : Z; rect_width : Z; rect_height : Z }.

(** What the driver answers during [init_device]: the successive
    answers of [ioctl(VIDIOC_QUERYCAP)] (with the capability word), of
    [ioctl(VIDIOC_CROPCAP)] (with the default rectangle), of
    [ioctl(VIDIOC_S_CROP)] to a rectangle, of [ioctl(VIDIOC_S_FMT)] to
    a format (with the format the driver chooses), of
    [ioctl(VIDIOC_G_FMT)], and what it does during [init_mmap]. *)
Record init_script : Type := {
  id_querycap : list (ioctl_ret Z);
  id_cropcap : list (ioctl_ret v4l2_rect);
  id_s_crop : v4l2_rect -> list (ioctl_ret unit);
  id_s_fmt : v4l2_pix_format -> list (ioctl_ret v4l2_pix_format);
  id_g_fmt : list (ioctl_ret v4l2_pix_format);
  id_mmap : mmap_script
}.

(** The cropping statements of [init_device]: when
    [VIDIOC_CROPCAP] returns 0 the default rectangle is set with
    [VIDIOC_S_CROP]; a failure of either call only prints a message. *)
Definition reset_crop (s : init_script) (g : globals) : result unit :=
  match xioctl (id_cropcap s) with
  | None => Starved g
  | Some cc =>
      if io_r cc =? 0 then
        match xioctl (id_s_crop s (io_arg cc)) with
        | None => Starved g
        | Some _ => Return tt
        end
      else Return tt
  end.

(** [fmt] after [CLEAR(fmt)]. *)
Definition fmt_cleared : v4l2_pix_format :=
  {| pix_width := 0; pix_height := 0; pix_pixelformat := PixOther 0;
     pix_field := 0; pix_bytesperline := 0; pix_sizeimage := 0 |}.

(** The format statements of [init_device]: [CLEAR(fmt)], then with
    [force_format] the four assignments and [VIDIOC_S_FMT], without it
    [VIDIOC_G_FMT].  The driver leaves its format in [fmt]. *)
Definition set_format (s : init_script) (d : device) : result device :=
  let d := set_fmt_pix fmt_cleared d in
  if negb (force_format =? 0) then
    let d :=
      set_fmt_pix
        {| pix_width := HRES; pix_height := VRES;
           pix_pixelformat := V4L2_PIX_FMT_YUYV;
           pix_field := V4L2_FIELD_NONE;
           pix_bytesperline := pix_bytesperline (fmt_pix d);
           pix_sizeimage := pix_sizeimage (fmt_pix d) |} d in
    match xioctl (id_s_fmt s (fmt_pix d)) with
    | None => Starved (vars d)
    | Some a =>
        let d := set_fmt_pix (io_arg a) d in
        if io_r a =? -1 then errno_exit "VIDIOC_S_FMT" (io_errno a) (vars d)
        else Return d
    end
  else
    match xioctl (id_g_fmt s) with
    | None => Starved (vars d)
    | Some a =>
        let d := set_fmt_pix (io_arg a) d in
        if io_r a =? -1 then errno_exit "VIDIOC_G_FMT" (io_errno a) (vars d)
        else Return d
    end.

(** The statements under [Buggy driver paranoia]; [min] is an
    [unsigned int]. *)
Definition buggy_driver_paranoia (d : device) : device :=
  let min := to_uint (fmt_width d * 2) in
  let d := if fmt_bytesperline d <? min then set_fmt_bytesperline min d
           else d in
  let min := to_uint (fmt_bytesperline d * fmt_height d) in
  if fmt_sizeimage d <? min then set_fmt_sizeimage min d else d.

(** [init_device]. *)
Definition init_device (s : init_script) (d : device) : result device :=
  match xioctl (id_querycap s) with
  | None => Starved (vars d)
  | Some qc =>
      if io_r qc =? -1 then
        match io_errno qc with
        | EINVAL => Exit EXIT_FAILURE (Message "is no V4L2 device") (vars d)
        | e => errno_exit "VIDIOC_QUERYCAP" e (vars d)
        end
      else
        let cap := io_arg qc in
        if Z.land cap V4L2_CAP_VIDEO_CAPTURE =? 0
        then Exit EXIT_FAILURE (Message "is no video capture device") (vars d)
        else if Z.land cap V4L2_CAP_STREAMING =? 0
        then Exit EXIT_FAILURE (Message "does not support streaming i/o")
               (vars d)
        else
          _ ← reset_crop s (vars d);
          d ← set_format s d;
          let d := buggy_driver_paranoia d in
          g ← init_mmap (id_mmap s) (vars d);
          Return (set_vars g d)
  end.

(** *** [start_capturing] and [stop_capturing] *)

(** What the driver answers during [start_capturing]: for each pass of
    the loop the successive answers of [ioctl(VIDIOC_QBUF)] to the
    index it is given, and the answers of [ioctl(VIDIOC_STREAMON)]. *)
Record capture_script : Type := {
  sc_qbuf : list (Z -> list (ioctl_ret unit));
  sc_streamon : list (ioctl_ret unit)
}.

(** The loop [for (i = 0; i < n_buffers; ++i)] of [start_capturing],
    from [i] on. *)
Fixpoint queue_buffers (script : list (Z -> list (ioctl_ret unit))) (i : Z)
    (g : globals) : result unit :=
  if i <? n_buffers g then
    match script with
    | [] => Starved g
    | qbuf :: script' =>
        match xioctl (qbuf i) with
        | None => Starved g
        | Some q =>
            if io_r q =? -1 then errno_exit "VIDIOC_QBUF" (io_errno q) g
            else queue_buffers script' (to_uint (i + 1)) g
        end
    end
  else Return tt.

(** [start_capturing]. *)
Definition start_capturing (s : capture_script) (g : globals) : result unit :=
  _ ← queue_buffers (sc_qbuf s) 0 g;
  match xioctl (sc_streamon s) with
  | None => Starved g
  | Some r =>
      if io_r r =? -1 then errno_exit "VIDIOC_STREAMON" (io_errno r) g
      else Return tt
  end.

(** [stop_capturing]; the script lists the answers of
    [ioctl(VIDIOC_STREAMOFF)]. *)
Definition stop_capturing (script : list (ioctl_ret unit)) (g : globals)
    : result unit :=
  match xioctl script with
  | None => Starved g
  | Some r =>
      if io_r r =? -1 then errno_exit "VIDIOC_STREAMOFF" (io_errno r) g
      else Return tt
  end.

(** *** [uninit_device] and [close_device] *)

(** The loop [for (i = 0; i < n_buffers; ++i)] of [uninit_device],
    from [i] on.  Each element of the script is what [munmap] answers,
    in one pass, to an address and a length: its return value and
    [errno].  Reading [buffers[i]] outside the array is undefined. *)
Fixpoint unmap_buffers (script : list (Z -> Z -> Z * errno)) (i : Z)
    (g : globals) : result unit :=
  if i <? n_buffers g then
    match buffers g !! Z.to_nat i with
    | None => Undefined
    | Some b =>
        match script with
        | [] => Starved g
        | munmap :: script' =>
            let '(r, e) := munmap (buf_start b) (buf_length b) in
            if r =? -1 then errno_exit "munmap" e g
            else unmap_buffers script' (to_uint (i + 1)) g
        end
    end
  else Return tt.

(** [uninit_device]; after [free(buffers)] the array has no element. *)
Definition uninit_device (script : list (Z -> Z -> Z * errno)) (g : globals)
    : result globals :=
  _ ← unmap_buffers script 0 g;
  Return (set_buffers [] g).

(** [close_device]; [answer] is what [close(fd)] returns, and [errno]. *)
Definition close_device (answer : Z * errno) (d : device) : result device :=
  if answer.1 =? -1 then errno_exit "close" answer.2 (vars d)
  else Return (set_fd (-1) d).

(** *** [main] *)

(** What the system does during a run of the program. *)
Record world : Type := {
  w_open : open_script;
  w_init : init_script;
  w_start : capture_script;
  w_frames : list iteration;
  w_stop : list (ioctl_ret unit);
  w_munmap : list (Z -> Z -> Z * errno);
  w_close : Z * errno
}.

(** The file-scope variables when [main] is entered: [fd = -1], a
    null [dev_name], [fmt] and the others as [initial] has them, with
    all bits of [fmt] zero. *)
Definition startup (fs : gmap string (list byte)) : device :=
  {| dev_name := ""; fd := -1; fmt_width := 0; fmt_height := 0;
     fmt_field := 0; fmt_bytesperline := 0; fmt_sizeimage := 0;
     vars := initial (PixOther 0) fs |}.

(** [main(argc, argv)], with [argc] the length of [argv]; the result
    is the value returned and the state.  The progress messages it
    prints are left out, as are those of the functions above. *)
Definition main (argv : list string) (w : world)
    (fs : gmap string (list byte)) : result (Z * device) :=
  let argc := Z.of_nat (length argv) in
  let d :=
    if 1 <? argc then set_dev_name (default "" (argv !! 1%nat)) (startup fs)
    else set_dev_name "/dev/video0" (startup fs) in
  d ← open_device (w_open w) d;
  d ← init_device (w_init w) d;
  _ ← start_capturing (w_start w) (vars d);
  '(g, _) ← mainloop (w_frames w) (vars d);
  _ ← stop_capturing (w_stop w) g;
  g ← uninit_device (w_munmap w) g;
  d ← close_device (w_close w) (set_vars g d);
  Return (0, d).

(** ** Vocabulary of the statements *)

(** The state a call ends in, when there is one. *)
Definition result_state {A : Type} (st : A -> globals) (r : result A)
    : option globals :=
  match r with
  | Return a => Some (st a)
  | Exit _ _ g => Some g
  | Abort g => Some g
  | Undefined => None
  | Starved g => Some g
  end.

(** Whether the loop of [dump_ppm] comes to its end on a script of
    return values: the control of [write_loop] alone. *)
Fixpoint writes_complete (rets : list Z) (size total : Z) : bool :=
  match rets with
  | [] => false
  | written :: rets' =>
      let total := total + written in
      fits_int total
      && (if total <? size then writes_complete rets' size total else true)
  end.

(** *** The header in the words of the specification *)

(** [P6\n#<comment field>\n<width> <height>\n255\n]. *)
Definition spec_header (comment : list byte) (width height : Z) : list byte :=
  list_byte_of_string "P6" ++ [LF]
  ++ list_byte_of_string "#" ++ comment ++ [LF]
  ++ decimal 10 width ++ list_byte_of_string " " ++ decimal 10 height ++ [LF]
  ++ list_byte_of_string "255" ++ [LF].

(** The comment field of [ppm_header]. *)
Definition comment_field : list byte :=
  list_byte_of_string "9999999999 sec 9999999999 msec ".

(** The [k] low decimal digits of [n], most significant first: a
    sequence number of [k] digits, padded with zeros. *)
Fixpoint zero_padded (k : nat) (n : Z) : list byte :=
  match k with
  | O => []
  | S k' => zero_padded k' (n / 10) ++ [to_uchar (48 + n mod 10)]
  end.

(** What a frame leaves as it is: the negotiated format, the buffer
    pool, the frame budget and the size of the name array. *)
Record same_run (g s : globals) : Prop := {
  sr_format : fmt_pixelformat s = fmt_pixelformat g;
  sr_buffers : buffers s = buffers g;
  sr_n_buffers : n_buffers s = n_buffers g;
  sr_frame_count : frame_count s = frame_count g;
  sr_name : length (ppm_dumpname s) = length (ppm_dumpname g)
}.

(** The bytes and the size [process_image] hands to [dump_ppm], for
    the two pixel formats that are emitted. *)
Definition frame_dump (pf : pixelformat) (p : list byte) (size : Z)
    (bb : array) : option (list byte * Z) :=
  match pf with
  | V4L2_PIX_FMT_YUYV =>
      bb' ← convert_yuyv p size bb;
      if fits_int (size * 6)
      then Some (array_slice bb' 0 (Z.quot (size * 6) 4), Z.quot (size * 6) 4)
      else None
  | V4L2_PIX_FMT_RGB24 => Some (take (Z.to_nat size) p, size)
  | PixOther _ => None
  end.

(** The contents of a file in the state a call ends in. *)
Definition artifact_of (r : result globals) (path : string)
    : option (list byte) :=
  s ← result_state id r;
  files s !! path.

(** Sum of a list of return values. *)
Definition sum_rets (rets : list Z) : Z := foldr Z.add 0 rets.

(** The first frame of a run: the state at program start and a file
    system without files. *)
Definition first_frame (pf : pixelformat) : globals := initial pf ∅.

(** Sixteen groups: black and white pixels in turn. *)
Definition stripes : list byte :=
  flat_map group_bytes (replicate 16 (x10, x80, xeb, x80)).

(** A frame of 320 by 240 pixels: black and white pixels in turn. *)
Definition frame_320x240 : list group :=
  replicate (Z.to_nat (HRES * VRES / 2)) (x10, x80, xeb, x80).

(** A frame of 204801 groups, one more than [bigbuffer] takes, and a
    buffer of as many bytes as the frame has. *)
Definition oversize_frame : list group :=
  replicate (Z.to_nat 204801) (x10, x80, xeb, x80).

Definition oversize_buffer : list byte := replicate (Z.to_nat 819204) x80.

(** A file system that takes everything at the first [write]. *)
Definition io_complete (size : Z) : frame_io :=
  {| fio_open := 3; fio_header := Z.of_nat (length ppm_header);
     fio_payload := [size] |}.

(** *** Passes of the acquisition loop *)

(** What one pass of the [for (;;)] body comes to: the wait was
    interrupted; the dequeue had no buffer ready; a frame was dequeued,
    processed and queued again; anything else. *)
Inductive pass : Type :=
| Interrupted
| NotReady
| Frame
| Failing.

(** Whether [process_image] returns for the frame of a pass: the
    conversion stays inside its buffers, the product [size*6] fits
    [int], and the loop of [dump_ppm] comes to its end. *)
Definition frame_emitted (pf : pixelformat) (it : iteration) (size : Z)
    : bool :=
  match pf with
  | V4L2_PIX_FMT_YUYV =>
      match convert_yuyv (it_data it) size (fun _ => x00) with
      | Some _ =>
          fits_int (size * 6)
          && writes_complete (fio_payload (it_io it)) (Z.quot (size * 6) 4) 0
      | None => false
      end
  | V4L2_PIX_FMT_RGB24 => writes_complete (fio_payload (it_io it)) size 0
  | PixOther _ => true
  end.

(** Whether the buffer is handed back: [xioctl(VIDIOC_QBUF)] does not
    return -1. *)
Definition requeued (it : iteration) : bool :=
  match xioctl (it_qbuf it) with
  | Some q => negb (io_r q =? -1)
  | None => false
  end.

(** The pass an [iteration] gives with a pixel format and a pool of
    [n] buffers; it follows the tests of [mainloop] and [read_frame]. *)
Definition pass_of (pf : pixelformat) (n : Z) (it : iteration) : pass :=
  let '(r, e) := it_select it select_timeout in
  if r =? -1 then (if is_EINTR e then Interrupted else Failing)
  else if r =? 0 then Failing
  else
    match xioctl (it_dqbuf it) with
    | None => Failing
    | Some dq =>
        if io_r dq =? -1 then
          match io_errno dq with
          | EAGAIN => NotReady
          | EIO => NotReady
          | _ => Failing
          end
        else if (index (io_arg dq) <? n)
                && frame_emitted pf it (to_int (bytesused (io_arg dq)))
                && requeued it
        then Frame
        else Failing
    end.

Definition is_frame (pf : pixelformat) (n : Z) (it : iteration) : bool :=
  match pass_of pf n it with Frame => true | _ => false end.

Definition is_failing (pf : pixelformat) (n : Z) (it : iteration) : bool :=
  match pass_of pf n it with Failing => true | _ => false end.

(** The number of frames in a script. *)
Definition frames (pf : pixelformat) (n : Z) (script : list iteration) : Z :=
  Z.of_nat (length (filter (fun it => is_frame pf n it = true) script)).

(** *** Buffers of the pool *)

(** Whether a buffer is queried and mapped without failure. *)
Definition buffer_maps (bs : buffer_script) : bool :=
  match xioctl (bs_querybuf bs) with
  | Some qb =>
      negb (io_r qb =? -1)
      && match bs_mmap bs (qb_length (io_arg qb)) (qb_offset (io_arg qb)) with
         | Mapped _ => true
         | MAP_FAILED _ => false
         end
  | None => false
  end.

(** Whether the query of a buffer gets an answer other than an
    interruption. *)
Definition buffer_answers (bs : buffer_script) : Prop :=
  is_Some (xioctl (bs_querybuf bs)).

(** Whether the query of a buffer succeeds and its mapping fails with
    [e]. *)
Definition buffer_map_fails (bs : buffer_script) (e : errno) : Prop :=
  exists qb,
    xioctl (bs_querybuf bs) = Some qb
    /\ io_r qb <> -1
    /\ bs_mmap bs (qb_length (io_arg qb)) (qb_offset (io_arg qb))
       = MAP_FAILED e.

(** *** Sample runs *)

(** A state in the middle of streaming: a pool of six buffers and a
    frame budget. *)
Definition streaming (pf : pixelformat) (budget : Z) : globals :=
  {| fmt_pixelformat := pf; buffers := []; n_buffers := 6;
     frame_count := budget; framecnt := 0; bigbuffer := fun _ => x00;
     ppm_dumpname := ppm_dumpname_init; files := ∅ |}.

Definition no_io : frame_io :=
  {| fio_open := -1; fio_header := -1; fio_payload := [] |}.

(** A pass in which [select] returns [r] with [errno] [e]. *)
Definition wait_pass (r : Z) (e : errno) : iteration :=
  {| it_select := fun _ => (r, e); it_dqbuf := []; it_data := [];
     it_io := no_io; it_qbuf := [] |}.

(** A pass in which the descriptor is ready and the dequeue fails with
    [e]. *)
Definition dequeue_failure (e : errno) : iteration :=
  {| it_select := fun _ => (1, Eother 0);
     it_dqbuf :=
       [{| io_r := -1; io_errno := e;
           io_arg := {| index := 0; bytesused := 0 |} |}];
     it_data := []; it_io := no_io; it_qbuf := [] |}.

(** A pass in which buffer 0 is dequeued with the bytes [data], every
    [write] completes and the buffer is queued again. *)
Definition frame_pass (data : list byte) (payload : Z) : iteration :=
  {| it_select := fun _ => (1, Eother 0);
     it_dqbuf :=
       [{| io_r := 0; io_errno := Eother 0;
           io_arg := {| index := 0;
                        bytesused := Z.of_nat (length data) |} |}];
     it_data := data; it_io := io_complete payload;
     it_qbuf := [{| io_r := 0; io_errno := Eother 0; io_arg := tt |}] |}.

(** A pass in which the descriptor is ready and buffer [i] is dequeued
    with three bytes; the [write]s of the payload return [rets] and
    [VIDIOC_QBUF] returns [r]. *)
Definition ready_pass (i : Z) (rets : list Z) (r : Z) : iteration :=
  {| it_select := fun _ => (1, Eother 0);
     it_dqbuf :=
       [{| io_r := 0; io_errno := Eother 0;
           io_arg := {| index := i; bytesused := 3 |} |}];
     it_data := [x01; x02; x03];
     it_io := {| fio_open := 3; fio_header := 48; fio_payload := rets |};
     it_qbuf := [{| io_r := r; io_errno := EINVAL; io_arg := tt |}] |}.

(** The wait of a pass reports a ready descriptor and its dequeue
    succeeds: the pass has no interruption and no outcome without
    data. *)
Definition ready_and_dequeued (it : iteration) : Prop :=
  (it_select it select_timeout).1 = 1
  /\ exists dq, xioctl (it_dqbuf it) = Some dq /\ io_r dq = 0.

(** Two frames among waits that are interrupted and dequeues that have
    nothing ready. *)
Definition sample_used : list iteration :=
  [ wait_pass (-1) EINTR; dequeue_failure EAGAIN; frame_pass stripes 96;
    dequeue_failure EIO; wait_pass (-1) EINTR; frame_pass stripes 96 ].

(** What the device would do next: a third frame and a timeout. *)
Definition sample_rest : list iteration :=
  [ frame_pass stripes 96; wait_pass 0 (Eother 0) ].

Definition sample_script : list iteration := sample_used ++ sample_rest.

(** Whether a script is empty or ends with a frame. *)
Definition ends_with_frame (pf : pixelformat) (n : Z)
    (script : list iteration) : Prop :=
  match last script with
  | Some it => is_frame pf n it = true
  | None => True
  end.

(** *** Sample devices for [init_mmap] *)

(** A driver that answers [VIDIOC_REQBUFS] once, with return value
    [r], [errno] [e] and [granted] buffers, whatever count is asked. *)
Definition reqbufs_answer (r : Z) (e : errno) (granted : Z)
    : Z -> list (ioctl_ret Z) :=
  fun _ => [{| io_r := r; io_errno := e; io_arg := granted |}].

(** A buffer of 153600 bytes that is queried and mapped. *)
Definition good_buffer (addr : Z) : buffer_script :=
  {| bs_querybuf :=
       [{| io_r := 0; io_errno := Eother 0;
           io_arg := {| qb_length := 153600; qb_offset := 0 |} |}];
     bs_mmap := fun _ _ => Mapped addr |}.

(** A buffer that is queried and whose mapping fails with [e]. *)
Definition unmappable_buffer (e : errno) : buffer_script :=
  {| bs_querybuf :=
       [{| io_r := 0; io_errno := Eother 0;
           io_arg := {| qb_length := 153600; qb_offset := 0 |} |}];
     bs_mmap := fun _ _ => MAP_FAILED e |}.

Definition pool_script (rq : Z -> list (ioctl_ret Z))
    (bufs : list buffer_script) : mmap_script :=
  {| ms_reqbufs := rq; ms_calloc := true; ms_buffers := bufs |}.

(** A state that differs from another by its files only. *)
Definition files_only (g s : globals) : Prop :=
  exists fs, s = set_files fs g.

(** *** Vocabulary of the further properties *)

(** Whether the loop of [dump_ppm], entered with [total], consumes the
    return values [used] and then leaves at the return value [w]:
    after each value of [used] the total is an [int] below [size],
    after [w] it is an [int] that has reached [size]. *)
Fixpoint loop_ends_at (used : list Z) (w size total : Z) : Prop :=
  match used with
  | [] => size <= total + w < 2 ^ 31
  | x :: used' =>
      - 2 ^ 31 <= total + x < size /\ loop_ends_at used' w size (total + x)
  end.

(** The bytes a list of [write]s of the payload [p] puts into a file,
    one after the other: each call the first [written] bytes of [p],
    none when it fails. *)
Definition written_bytes (p : list byte) (rets : list Z) : list byte :=
  flat_map (fun written => take (Z.to_nat written) p) rets.

(** The path made of four leading characters, a sequence number of
    eight digits and [.ppm]. *)
Definition frame_path (prefix : list byte) (tag : Z) : string :=
  string_of_list_byte
    (prefix ++ zero_padded 8 tag ++ list_byte_of_string ".ppm").

(** A state [s] whose files are those of [g] but for one path, and
    which has a file at that path if [g] has one. *)
Definition only_file (path : string) (g s : globals) : Prop :=
  (forall q, q <> path -> files s !! q = files g !! q)
  /\ (is_Some (files g !! path) -> is_Some (files s !! path)).

(** An answer of [ioctl] that [xioctl] does not hand on: -1 with
    [EINTR]. *)
Definition interrupted {A : Type} (r : ioctl_ret A) : bool :=
  (io_r r =? -1) && is_EINTR (io_errno r).

(** Whether the pixel format is one of the two [process_image]
    emits. *)
Definition emitted_format (pf : pixelformat) : Prop :=
  pf = V4L2_PIX_FMT_YUYV \/ pf = V4L2_PIX_FMT_RGB24.

(** Whether [open] succeeds in every pass that is a frame. *)
Definition frames_open (pf : pixelformat) (n : Z) (script : list iteration)
    : Prop :=
  Forall (fun it => is_frame pf n it = true -> fio_open (it_io it) <> -1)
    script.

(** The entry of [buffers] that [init_mmap] fills for a buffer: the
    address [mmap] returns and the length [VIDIOC_QUERYBUF] reports. *)
Definition mapped_buffer (bs : buffer_script) : option buffer :=
  qb ← xioctl (bs_querybuf bs);
  Some {| buf_start :=
            mmap_addr (bs_mmap bs (qb_length (io_arg qb))
                         (qb_offset (io_arg qb)));
          buf_length := qb_length (io_arg qb) |}.

(** What [calloc] gives: an entry with all bits zero. *)
Definition zero_buffer : buffer := {| buf_start := 0; buf_length := 0 |}.

(** The format [init_device] asks for with [VIDIOC_S_FMT]. *)
Definition fmt_request : v4l2_pix_format :=
  {| pix_width := HRES; pix_height := VRES;
     pix_pixelformat := V4L2_PIX_FMT_YUYV; pix_field := V4L2_FIELD_NONE;
     pix_bytesperline := 0; pix_sizeimage := 0 |}.

(** The driver of [s], with other answers to the two cropping calls. *)
Definition with_crop (cropcap : list (ioctl_ret v4l2_rect))
    (s_crop : v4l2_rect -> list (ioctl_ret unit)) (s : init_script)
    : init_script :=
  {| id_querycap := id_querycap s; id_cropcap := cropcap;
     id_s_crop := s_crop; id_s_fmt := id_s_fmt s; id_g_fmt := id_g_fmt s;
     id_mmap := id_mmap s |}.

(** The file system of [s], with another answer of [open]. *)
Definition with_open (open : string -> Z * errno) (s : open_script)
    : open_script :=
  {| od_stat := od_stat s; od_open := open |}.

(** A script of [ioctl] answers that [xioctl] ends on with success. *)
Definition succeeds {A : Type} (script : list (ioctl_ret A)) : Prop :=
  exists a, xioctl script = Some a /\ io_r a <> -1.

(** An answer of [munmap] other than -1, for the address and the
    length of a buffer. *)
Definition unmaps (munmap : Z -> Z -> Z * errno) (b : buffer) : Prop :=
  (munmap (buf_start b) (buf_length b)).1 <> -1.

(** *** A sample device *)

(** A driver with both capabilities and no cropping, which answers
    [VIDIOC_S_FMT] with 320 by 240 pixels in the format [pf] and
    grants two buffers. *)
Definition sample_init (pf : pixelformat) : init_script :=
  {| id_querycap :=
       [{| io_r := 0; io_errno := Eother 0;
           io_arg := Z.lor V4L2_CAP_VIDEO_CAPTURE V4L2_CAP_STREAMING |}];
     id_cropcap :=
       [{| io_r := -1; io_errno := EINVAL;
           io_arg := {| rect_left := 0; rect_top := 0; rect_width := 0;
                        rect_height := 0 |} |}];
     id_s_crop := fun _ =>
       [{| io_r := -1; io_errno := EINVAL; io_arg := tt |}];
     id_s_fmt := fun _ =>
       [{| io_r := 0; io_errno := Eother 0;
           io_arg := {| pix_width := 320; pix_height := 240;
                        pix_pixelformat := pf; pix_field := 1;
                        pix_bytesperline := 0; pix_sizeimage := 0 |} |}];
     id_g_fmt := [];
     id_mmap :=
       pool_script (reqbufs_answer 0 (Eother 0) 2)
         [good_buffer 4096; good_buffer 8192] |}.


(** One successful answer of an [ioctl] without result. *)
Definition ioctl_ok : list (ioctl_ret unit) :=
  [{| io_r := 0; io_errno := Eother 0; io_arg := tt |}].


(** *** Runs of the whole program *)


(** A call that, when it ends the process, does so with
    [EXIT_FAILURE]. *)
Definition exits_with_failure {A : Type} (r : result A) : Prop :=
  match r with
  | Exit status _ _ => status = EXIT_FAILURE
  | _ => True
  end.







(* ================================================================= *)
(** * Properties *)

(** ** Bytes and the colour transform *)

Section Bytes.

Lemma uchar_val_range (b : byte) : 0 <= uchar_val b <= 255.
Proof.
  unfold uchar_val. pose proof (Byte.to_N_bounded b). lia.
Qed.

Lemma uchar_val_to_uchar (z : Z) : uchar_val (to_uchar z) = z mod 256.
Proof.
  unfold uchar_val, to_uchar.
  assert (Hm : 0 <= z mod 256 < 256) by (apply Z.mod_pos_bound; lia).
  destruct (Byte.of_N (Z.to_N (z mod 256))) as [b|] eqn:Hb; simpl.
  - apply Byte.to_of_N in Hb. rewrite Hb. lia.
  - apply Byte.of_N_None_iff in Hb. lia.
Qed.

Lemma uchar_val_to_uchar_small (z : Z) :
  0 <= z <= 255 -> uchar_val (to_uchar z) = z.
Proof.
  intros Hz. rewrite uchar_val_to_uchar. apply Z.mod_small. lia.
Qed.

Lemma fits_int_iff (z : Z) : fits_int z = true <-> - 2 ^ 31 <= z < 2 ^ 31.
Proof.
  unfold fits_int. rewrite andb_true_iff, Z.leb_le, Z.ltb_lt. reflexivity.
Qed.

End Bytes.

Section Transform.

Lemma clip_is_clamp8 (x : Z) :
  (let x1 := if x >? 255 then 255 else x in if x1 <? 0 then 0 else x1)
  = clamp8 x.
Proof.
  unfold clamp8. cbv zeta.
  destruct (Z.gtb_spec x 255);
    [destruct (Z.ltb_spec 255 0) | destruct (Z.ltb_spec x 0)]; lia.
Qed.

Lemma clamp8_range (x : Z) : 0 <= clamp8 x <= 255.
Proof. unfold clamp8. lia. Qed.

Lemma yuv2rgb_int_spec (y u v : Z) :
  (let '(r1, g1, b1) := yuv2rgb_int y u v in [r1; g1; b1]) = spec_rgb y u v.
Proof.
  unfold yuv2rgb_int, spec_rgb. cbv zeta.
  rewrite <- !clip_is_clamp8. reflexivity.
Qed.

Lemma yuv2rgb_spec (y u v : Z) :
  (let '(r, g, b) := yuv2rgb y u v in uchar_val <$> [r; g; b])
  = spec_rgb y u v.
Proof.
  rewrite <- yuv2rgb_int_spec. unfold yuv2rgb.
  pose proof (yuv2rgb_int_spec y u v) as Hs.
  destruct (yuv2rgb_int y u v) as [[r1 g1] b1].
  unfold spec_rgb in Hs. cbv zeta in Hs. injection Hs as Hr Hg Hb.
  simpl. rewrite !uchar_val_to_uchar_small; [reflexivity | | |];
    subst; apply clamp8_range.
Qed.

Lemma code_group_spec (q : group) : uchar_val <$> code_group q = spec_group q.
Proof.
  destruct q as [[[y0 u] y1] v]. unfold code_group, spec_group.
  rewrite <- !yuv2rgb_spec.
  destruct (yuv2rgb (uchar_val y0) _ _) as [[r g] b].
  destruct (yuv2rgb (uchar_val y1) _ _) as [[r2 g2] b2].
  reflexivity.
Qed.

(** The values [yuv2rgb] stores for a group are in the range of a
    byte before the store, which therefore changes none of them. *)
Lemma group_ints_range (q : group) :
  Forall (fun z => 0 <= z <= 255) (group_ints q).
Proof.
  destruct q as [[[y0 u] y1] v]. unfold group_ints.
  pose proof (yuv2rgb_int_spec (uchar_val y0) (uchar_val u) (uchar_val v))
    as H0.
  pose proof (yuv2rgb_int_spec (uchar_val y1) (uchar_val u) (uchar_val v))
    as H1.
  destruct (yuv2rgb_int (uchar_val y0) _ _) as [[r g] b].
  destruct (yuv2rgb_int (uchar_val y1) _ _) as [[r2 g2] b2].
  unfold spec_rgb in H0, H1. cbv zeta in H0, H1.
  injection H0 as -> -> ->. injection H1 as -> -> ->.
  repeat (apply Forall_cons; split; [apply clamp8_range|]).
  apply Forall_nil_2.
Qed.

Lemma code_group_ints (q : group) : uchar_val <$> code_group q = group_ints q.
Proof.
  pose proof (group_ints_range q) as Hr.
  destruct q as [[[y0 u] y1] v]. unfold code_group, group_ints, yuv2rgb in *.
  destruct (yuv2rgb_int (uchar_val y0) _ _) as [[r g] b].
  destruct (yuv2rgb_int (uchar_val y1) _ _) as [[r2 g2] b2].
  repeat (apply Forall_cons in Hr as [? Hr]).
  cbn [fmap list_fmap]. rewrite !uchar_val_to_uchar_small by assumption.
  reflexivity.
Qed.

(** For byte values the three sums of [yuv2rgb] are inside [int]. *)
Lemma yuv2rgb_no_overflow (y u v : byte) :
  let c := uchar_val y - 16 in
  let d := uchar_val u - 128 in
  let e := uchar_val v - 128 in
  fits_int (298 * c + 409 * e + 128) = true
  /\ fits_int (298 * c - 100 * d - 208 * e + 128) = true
  /\ fits_int (298 * c + 516 * d + 128) = true.
Proof.
  pose proof (uchar_val_range y). pose proof (uchar_val_range u).
  pose proof (uchar_val_range v). cbv zeta.
  rewrite !fits_int_iff. lia.
Qed.

End Transform.

(** ** The conversion loop *)

Section ConversionLoop.

Lemma load_app (pre l : list byte) (k : Z) :
  0 <= k ->
  load (pre ++ l) (Z.of_nat (length pre) + k) = l !! Z.to_nat k.
Proof.
  intros Hk. unfold load.
  destruct (Z.ltb_spec (Z.of_nat (length pre) + k) 0); [lia|].
  rewrite lookup_app_r by lia. f_equal. lia.
Qed.

Lemma load_app0 (pre l : list byte) :
  load (pre ++ l) (Z.of_nat (length pre)) = l !! 0%nat.
Proof.
  rewrite <- (Z.add_0_r (Z.of_nat (length pre))).
  rewrite load_app by lia. reflexivity.
Qed.

Lemma array_slice_app (a : array) (s n1 n2 : Z) :
  0 <= n1 -> 0 <= n2 ->
  array_slice a s (n1 + n2) = array_slice a s n1 ++ array_slice a (s + n1) n2.
Proof.
  intros H1 H2. unfold array_slice. rewrite seqZ_app by lia.
  apply fmap_app.
Qed.

Lemma array_slice_ext (a b : array) (s n : Z) :
  (forall j, s <= j < s + n -> a j = b j) ->
  array_slice a s n = array_slice b s n.
Proof.
  intros H. unfold array_slice. apply list_fmap_ext.
  intros i x Hx. apply lookup_seqZ in Hx. apply H. lia.
Qed.

Lemma array_slice_length (a : array) (s n : Z) :
  length (array_slice a s n) = Z.to_nat n.
Proof. unfold array_slice. rewrite length_fmap. apply length_seqZ. Qed.

Lemma array_slice_6 (a : array) (s : Z) :
  array_slice a s 6 = [a s; a (s + 1); a (s + 2); a (s + 3); a (s + 4); a (s + 5)].
Proof.
  unfold array_slice.
  repeat (rewrite seqZ_cons by lia; simpl).
  repeat (f_equal; try lia).
Qed.

Ltac fn_simpl :=
  repeat first
    [ rewrite fn_lookup_insert
    | rewrite fn_lookup_insert_ne by lia ].

Lemma yuyv_loop_groups (gs : list group) :
  forall (fuel : nat) (pre rest : list byte) (newi : Z) (bb : array),
    (length gs <= fuel)%nat ->
    0 <= newi ->
    newi + 6 * Z.of_nat (length gs) <= BIGBUFFER_SIZE ->
    exists bb',
      yuyv_loop fuel (pre ++ flat_map group_bytes gs ++ rest)
        (Z.of_nat (length pre) + 4 * Z.of_nat (length gs))
        (Z.of_nat (length pre)) newi bb = Some bb'
      /\ array_slice bb' newi (6 * Z.of_nat (length gs))
         = flat_map code_group gs
      /\ forall j, j < newi \/ newi + 6 * Z.of_nat (length gs) <= j ->
                   bb' j = bb j.
Proof.
  induction gs as [|q gs IH]; intros fuel pre rest newi bb Hfuel Hnewi Hcap.
  - exists bb. cbn [length flat_map app]. change (Z.of_nat 0) with 0.
    rewrite Z.mul_0_r, Z.add_0_r.
    destruct fuel; cbn [yuyv_loop]; rewrite Z.ltb_irrefl; auto.
  - destruct fuel as [|fuel]; [simpl in Hfuel; lia|].
    simpl length in *. cbn [yuyv_loop].
    destruct (Z.ltb_spec (Z.of_nat (length pre))
                (Z.of_nat (length pre) + 4 * Z.of_nat (S (length gs))));
      [|lia].
    destruct q as [[[y0 u] y1] v]. cbn [flat_map group_bytes app].
    rewrite (load_app0 pre), !load_app by lia.
    change (Z.to_nat 1) with 1%nat. change (Z.to_nat 2) with 2%nat.
    change (Z.to_nat 3) with 3%nat.
    cbn -[yuv2rgb BIGBUFFER_SIZE Z.add Z.leb Z.ltb].
    destruct (Z.leb_spec 0 newi); [|lia].
    destruct (Z.ltb_spec (newi + 5) BIGBUFFER_SIZE); [|lia].
    cbn -[yuv2rgb BIGBUFFER_SIZE Z.add].
    destruct (yuv2rgb (uchar_val y0) (uchar_val u) (uchar_val v))
      as [[r g] b] eqn:E1.
    destruct (yuv2rgb (uchar_val y1) (uchar_val u) (uchar_val v))
      as [[r2 g2] b2] eqn:E2.
    match goal with
    | |- context [yuyv_loop _ _ _ _ _ ?x] => set (bb2 := x)
    end.
    destruct (IH fuel (pre ++ [y0; u; y1; v]) rest (newi + 6) bb2)
      as (bb' & Hrun & Hout & Hkeep); [lia | lia | lia |].
    exists bb'. split; [|split].
    + rewrite <- Hrun. rewrite <- app_assoc. simpl.
      rewrite length_app. simpl length.
      f_equal; lia.
    + replace (6 * Z.of_nat (S (length gs)))
        with (6 + 6 * Z.of_nat (length gs)) by lia.
      rewrite array_slice_app by lia. rewrite Hout. cbn [flat_map].
      f_equal. rewrite array_slice_6.
      rewrite !Hkeep by lia.
      subst bb2. repeat f_equal; fn_simpl; reflexivity.
    + intros j Hj. rewrite Hkeep by lia. subst bb2. fn_simpl. reflexivity.
Qed.

(** Groups whose output does not fit the scratch array make the loop
    store outside of it. *)
Lemma yuyv_loop_out_of_bounds (gs : list group) :
  forall (fuel : nat) (pre rest : list byte) (newi : Z) (bb : array),
    (length gs <= fuel)%nat ->
    0 <= newi <= BIGBUFFER_SIZE ->
    BIGBUFFER_SIZE < newi + 6 * Z.of_nat (length gs) ->
    yuyv_loop fuel (pre ++ flat_map group_bytes gs ++ rest)
      (Z.of_nat (length pre) + 4 * Z.of_nat (length gs))
      (Z.of_nat (length pre)) newi bb = None.
Proof.
  induction gs as [|q gs IH]; intros fuel pre rest newi bb Hfuel Hnewi Hcap.
  - simpl in Hcap. lia.
  - destruct fuel as [|fuel]; [simpl in Hfuel; lia|].
    simpl length in *. cbn [yuyv_loop].
    destruct (Z.ltb_spec (Z.of_nat (length pre))
                (Z.of_nat (length pre) + 4 * Z.of_nat (S (length gs))));
      [|lia].
    destruct q as [[[y0 u] y1] v]. cbn [flat_map group_bytes app].
    rewrite (load_app0 pre), !load_app by lia.
    change (Z.to_nat 1) with 1%nat. change (Z.to_nat 2) with 2%nat.
    change (Z.to_nat 3) with 3%nat.
    cbn -[yuv2rgb BIGBUFFER_SIZE Z.add Z.leb Z.ltb].
    destruct (Z.leb_spec 0 newi); [|lia].
    destruct (Z.ltb_spec (newi + 5) BIGBUFFER_SIZE); [|reflexivity].
    cbn -[yuv2rgb BIGBUFFER_SIZE Z.add].
    destruct (yuv2rgb (uchar_val y0) (uchar_val u) (uchar_val v))
      as [[r g] b].
    destruct (yuv2rgb (uchar_val y1) (uchar_val u) (uchar_val v))
      as [[r2 g2] b2].
    match goal with
    | |- context [yuyv_loop _ _ _ _ _ ?x] => set (bb2 := x)
    end.
    rewrite <- (IH fuel (pre ++ [y0; u; y1; v]) rest (newi + 6) bb2);
      [|lia | lia | lia].
    rewrite <- app_assoc. simpl. rewrite length_app. simpl length.
    f_equal; lia.
Qed.

End ConversionLoop.

(** ** The converted payload *)

Section Payload.

(** The fuel of [convert_yuyv] does not show: any fuel that covers the
    bytes left gives the same result. *)
Lemma yuyv_loop_fuel (f1 : nat) :
  forall (f2 : nat) (pptr : list byte) (size i newi : Z) (bb : array),
    (Z.to_nat (size - i) <= f1)%nat ->
    (Z.to_nat (size - i) <= f2)%nat ->
    yuyv_loop f1 pptr size i newi bb = yuyv_loop f2 pptr size i newi bb.
Proof.
  induction f1 as [|f1 IH]; intros f2 pptr size i newi bb H1 H2.
  - destruct f2; cbn [yuyv_loop]; destruct (Z.ltb_spec i size);
      try reflexivity; lia.
  - destruct f2 as [|f2]; cbn [yuyv_loop];
      destruct (Z.ltb_spec i size); try reflexivity; [lia|].
    destruct (load pptr i); [|reflexivity]. cbn [mbind option_bind].
    destruct (load pptr (i + 1)); [|reflexivity]. cbn [mbind option_bind].
    destruct (load pptr (i + 2)); [|reflexivity]. cbn [mbind option_bind].
    destruct (load pptr (i + 3)); [|reflexivity]. cbn [mbind option_bind].
    destruct ((0 <=? newi) && (newi + 5 <? BIGBUFFER_SIZE)); [|reflexivity].
    destruct (yuv2rgb _ _ _) as [[c1 c2] c3].
    destruct (yuv2rgb _ _ _) as [[c4 c5] c6].
    apply IH; lia.
Qed.

(** Every list of at least [4 * n] bytes starts with [n] groups. *)
Lemma groups_of_bytes (n : nat) :
  forall pptr : list byte,
    (4 * n <= length pptr)%nat ->
    exists (gs : list group) (rest : list byte),
      pptr = flat_map group_bytes gs ++ rest /\ length gs = n.
Proof.
  induction n as [|n IH]; intros pptr Hlen.
  - exists [], pptr. split; reflexivity.
  - destruct pptr as [|y0 [|u [|y1 [|v pptr]]]]; simpl in Hlen; try lia.
    destruct (IH pptr) as (gs & rest & -> & <-); [lia|].
    exists ((y0, u, y1, v) :: gs), rest. split; reflexivity.
Qed.

Lemma yuyv_payload_groups (gs : list group) (rest : list byte) (bb : array) :
  6 * Z.of_nat (length gs) <= BIGBUFFER_SIZE ->
  yuyv_payload (flat_map group_bytes gs ++ rest)
    (4 * Z.of_nat (length gs)) bb
  = Some (flat_map code_group gs).
Proof.
  intros Hcap. unfold yuyv_payload, convert_yuyv.
  destruct (yuyv_loop_groups gs (Z.to_nat (4 * Z.of_nat (length gs)))
              [] rest 0 bb) as (bb' & Hrun & Hout & _); [lia | lia | lia |].
  cbn [length app] in Hrun. change (Z.of_nat 0) with 0 in Hrun.
  rewrite Z.add_0_l in Hrun. rewrite Hrun. cbn [mbind option_bind].
  assert (Hfit : fits_int (4 * Z.of_nat (length gs) * 6) = true).
  { apply fits_int_iff. unfold BIGBUFFER_SIZE in Hcap. lia. }
  rewrite Hfit. f_equal. rewrite <- Hout. f_equal.
  rewrite Z.quot_div_nonneg by lia.
  replace (4 * Z.of_nat (length gs) * 6) with (6 * Z.of_nat (length gs) * 4)
    by lia.
  apply Z.div_mul. lia.
Qed.

(** Beyond [1280*960] bytes of output the conversion is not defined. *)
Lemma convert_yuyv_out_of_bounds
    (gs : list group) (rest : list byte) (bb : array) :
  BIGBUFFER_SIZE < 6 * Z.of_nat (length gs) ->
  convert_yuyv (flat_map group_bytes gs ++ rest)
    (4 * Z.of_nat (length gs)) bb = None.
Proof.
  intros Hcap. unfold convert_yuyv.
  pose proof (yuyv_loop_out_of_bounds gs
                (Z.to_nat (4 * Z.of_nat (length gs))) [] rest 0 bb) as H.
  cbn [length app] in H. change (Z.of_nat 0) with 0 in H.
  rewrite Z.add_0_l in H. apply H; [lia | | lia].
  split; [lia | vm_compute; discriminate].
Qed.

Lemma length_code_groups (gs : list group) :
  length (flat_map code_group gs) = (6 * length gs)%nat.
Proof.
  induction gs as [|[[[y0 u] y1] v] gs IH]; [reflexivity|].
  cbn [flat_map]. rewrite length_app, IH. unfold code_group.
  destruct (yuv2rgb _ _ _) as [[r g] b].
  destruct (yuv2rgb _ _ _) as [[r2 g2] b2]. simpl. lia.
Qed.

(** C1, as the program has it.  On a subsampled-422 input whose
    output fits the scratch array of [1280*960] bytes the program
    declares, that is of at most 204800 groups, the conversion takes
    the bytes in groups of four, (luma0, chromaU, luma1, chromaV), and
    hands on two RGB triples per group: the integer transform of the
    specification applied to (luma0, chromaU, chromaV) and to (luma1,
    chromaU, chromaV), in the order of the groups. *)
Theorem yuyv_groups_converted
    (gs : list group) (rest : list byte) (bb : array) :
  6 * Z.of_nat (length gs) <= BIGBUFFER_SIZE ->
  exists out : list byte,
    yuyv_payload (flat_map group_bytes gs ++ rest)
      (4 * Z.of_nat (length gs)) bb = Some out
    /\ uchar_val <$> out = flat_map spec_group gs.
Proof.
  intros Hcap. exists (flat_map code_group gs). split.
  - apply yuyv_payload_groups, Hcap.
  - clear Hcap. induction gs as [|q gs IH]; [reflexivity|].
    cbn [flat_map]. rewrite fmap_app, IH, code_group_spec. reflexivity.
Qed.

Lemma yuyv_groups_converted_witness :
  exists out : list byte,
    yuyv_payload
      (flat_map group_bytes [(x10, x80, xeb, x80); (x51, x5a, x51, xf0)] ++ [])
      (4 * Z.of_nat (length [(x10, x80, xeb, x80); (x51, x5a, x51, xf0)]))
      (fun _ => x00) = Some out
    /\ uchar_val <$> out
       = flat_map spec_group [(x10, x80, xeb, x80); (x51, x5a, x51, xf0)].
Proof.
  apply (yuyv_groups_converted
           [(x10, x80, xeb, x80); (x51, x5a, x51, xf0)] [] (fun _ => x00)).
  vm_compute. discriminate.
Defined.

Lemma length_oversize_frame : Z.of_nat (length oversize_frame) = 204801.
Proof.
  unfold oversize_frame. rewrite length_replicate. apply Z2Nat.id. lia.
Qed.

Lemma length_oversize_buffer : Z.of_nat (length oversize_buffer) = 819204.
Proof.
  unfold oversize_buffer. rewrite length_replicate. apply Z2Nat.id. lia.
Qed.

(** A frame of more groups than [bigbuffer] takes: nothing is handed
    to [dump_ppm], and [process_image] has no defined outcome. *)
Lemma process_image_beyond_bigbuffer
    (gs : list group) (io : frame_io) (g : globals) :
  fmt_pixelformat g = V4L2_PIX_FMT_YUYV ->
  BIGBUFFER_SIZE < 6 * Z.of_nat (length gs) ->
  process_image (flat_map group_bytes gs) (4 * Z.of_nat (length gs)) io g
  = Undefined
  /\ forall bb,
       yuyv_payload (flat_map group_bytes gs) (4 * Z.of_nat (length gs)) bb
       = None.
Proof.
  intros Hpf Hcap.
  assert (Hnone : forall bb,
             convert_yuyv (flat_map group_bytes gs)
               (4 * Z.of_nat (length gs)) bb = None).
  { intros bb. rewrite <- (app_nil_r (flat_map group_bytes gs)).
    apply convert_yuyv_out_of_bounds, Hcap. }
  split.
  - unfold process_image. cbn [fmt_pixelformat set_framecnt bigbuffer].
    rewrite Hpf, Hnone. reflexivity.
  - intros bb. unfold yuyv_payload. rewrite Hnone. reflexivity.
Qed.

(** C1 as stated fails: an input of 204801 groups is more than
    [bigbuffer] takes.  The loop stores past the end of the array,
    nothing is handed to [dump_ppm], and [process_image] has no defined
    outcome. *)
Lemma yuyv_groups_beyond_bigbuffer :
  BIGBUFFER_SIZE < 6 * Z.of_nat (length oversize_frame)
  /\ process_image (flat_map group_bytes oversize_frame)
       (4 * Z.of_nat (length oversize_frame))
       (io_complete (6 * Z.of_nat (length oversize_frame)))
       (first_frame V4L2_PIX_FMT_YUYV) = Undefined
  /\ ~ exists out : list byte,
         yuyv_payload (flat_map group_bytes oversize_frame)
           (4 * Z.of_nat (length oversize_frame)) (fun _ => x00) = Some out
         /\ uchar_val <$> out = flat_map spec_group oversize_frame.
Proof.
  assert (Hcap : BIGBUFFER_SIZE < 6 * Z.of_nat (length oversize_frame)).
  { rewrite length_oversize_frame. reflexivity. }
  destruct (process_image_beyond_bigbuffer oversize_frame
              (io_complete (6 * Z.of_nat (length oversize_frame)))
              (first_frame V4L2_PIX_FMT_YUYV) eq_refl Hcap) as [Hrun Hnone].
  split; [exact Hcap|]. split; [exact Hrun|].
  intros (out & Hout & _). rewrite Hnone in Hout. discriminate Hout.
Qed.

(** A whole number of groups whose output does not fit [bigbuffer] is
    not converted. *)
Lemma yuyv_payload_too_large (pptr : list byte) (size : Z) (bb : array) :
  0 <= size ->
  size mod 4 = 0 ->
  size <= Z.of_nat (length pptr) ->
  BIGBUFFER_SIZE < Z.quot (size * 6) 4 ->
  yuyv_payload pptr size bb = None.
Proof.
  intros Hpos Hmod Hlen Hcap.
  apply Z.mod_divide in Hmod; [|lia]. destruct Hmod as [n Hn].
  rewrite Z.quot_div_nonneg in Hcap by lia.
  destruct (groups_of_bytes (Z.to_nat n) pptr) as (gs & rest & -> & Hgs);
    [lia|].
  assert (Hsize : size = 4 * Z.of_nat (length gs)) by lia.
  replace (size * 6) with (6 * Z.of_nat (length gs) * 4) in Hcap by lia.
  rewrite Z.div_mul in Hcap by lia.
  unfold yuyv_payload. rewrite Hsize.
  rewrite convert_yuyv_out_of_bounds by exact Hcap. reflexivity.
Qed.

(** C2, as the program has it.  On a valid subsampled-422 input, a
    whole number of groups of four bytes whose output fits the scratch
    array of [1280*960] bytes, the conversion hands on one and a half
    times as many bytes as it was given: for each group in turn the six
    values the two calls of [yuv2rgb] computed.  Each of these values is
    in [0,255] when it is stored, so that the store into a byte changes
    none. *)
Theorem yuyv_output_size (pptr : list byte) (size : Z) (bb : array) :
  0 <= size ->
  size mod 4 = 0 ->
  size <= Z.of_nat (length pptr) ->
  Z.quot (size * 6) 4 <= BIGBUFFER_SIZE ->
  exists (gs : list group) (rest out : list byte),
    pptr = flat_map group_bytes gs ++ rest
    /\ 4 * Z.of_nat (length gs) = size
    /\ yuyv_payload pptr size bb = Some out
    /\ 2 * Z.of_nat (length out) = 3 * size
    /\ uchar_val <$> out = flat_map group_ints gs
    /\ Forall (fun z => 0 <= z <= 255) (flat_map group_ints gs).
Proof.
  intros Hpos Hmod Hlen Hcap.
  apply Z.mod_divide in Hmod; [|lia]. destruct Hmod as [n Hn].
  rewrite Z.quot_div_nonneg in Hcap by lia.
  destruct (groups_of_bytes (Z.to_nat n) pptr) as (gs & rest & -> & Hgs);
    [lia|].
  assert (Hsize : size = 4 * Z.of_nat (length gs)) by lia.
  exists gs, rest, (flat_map code_group gs).
  split; [reflexivity|]. split; [lia|]. rewrite Hsize.
  split; [|split; [|split]].
  - apply yuyv_payload_groups.
    replace (size * 6) with (6 * Z.of_nat (length gs) * 4) in Hcap by lia.
    rewrite Z.div_mul in Hcap by lia. exact Hcap.
  - rewrite length_code_groups. lia.
  - clear. induction gs as [|q gs IH]; [reflexivity|].
    cbn [flat_map]. rewrite fmap_app, IH, code_group_ints. reflexivity.
  - clear. induction gs as [|q gs IH]; [constructor|].
    cbn [flat_map]. apply Forall_app. split; [apply group_ints_range|exact IH].
Qed.

Lemma yuyv_output_size_witness :
  let pptr := [x10; x80; xeb; x80; x51; x5a; x51; xf0] in
  exists (gs : list group) (rest out : list byte),
    pptr = flat_map group_bytes gs ++ rest
    /\ 4 * Z.of_nat (length gs) = 8
    /\ yuyv_payload pptr 8 (fun _ => x00) = Some out
    /\ 2 * Z.of_nat (length out) = 3 * 8
    /\ uchar_val <$> out = flat_map group_ints gs
    /\ Forall (fun z => 0 <= z <= 255) (flat_map group_ints gs).
Proof.
  intros pptr. apply (yuyv_output_size pptr 8 (fun _ => x00)).
  - lia.
  - reflexivity.
  - simpl. lia.
  - vm_compute. discriminate.
Defined.

(** C2 as stated fails: an input of 819204 bytes is a whole number of
    groups, and its 1228806 output bytes are more than [bigbuffer]
    takes; nothing is handed on. *)
Lemma yuyv_output_beyond_bigbuffer :
  (819204 mod 4 = 0 /\ Z.of_nat (length oversize_buffer) = 819204)
  /\ ~ exists out : list byte,
         yuyv_payload oversize_buffer 819204 (fun _ => x00) = Some out
         /\ 2 * Z.of_nat (length out) = 3 * 819204.
Proof.
  pose proof length_oversize_buffer as Hlen.
  split; [split; [reflexivity | exact Hlen]|].
  intros (out & Hout & _).
  rewrite yuyv_payload_too_large in Hout;
    [discriminate Hout | lia | reflexivity | lia | reflexivity].
Qed.

End Payload.

(** ** File names and the file system *)

Section FileName.

Lemma length_poke (a : list byte) (pos : nat) (s a' : list byte) :
  poke a pos s = Some a' -> length a' = length a.
Proof.
  unfold poke. case_decide; [|discriminate]. intros [= <-].
  rewrite !length_app, length_take, length_drop. lia.
Qed.

Lemma length_printf_08d (v : Z) : (8 <= length (printf_08d v))%nat.
Proof.
  unfold printf_08d. destruct (v <? 0); simpl;
    rewrite length_app, length_replicate; lia.
Qed.

Lemma dump_name_defined (name : list byte) (tag : Z) :
  (17 <= length name)%nat ->
  exists name',
    dump_name name tag = Some name' /\ length name' = length name.
Proof.
  intros Hlen. unfold dump_name, snprintf_08d.
  pose proof (length_printf_08d (to_int tag)) as Hpf.
  set (digits := take (9 - 1) (printf_08d (to_int tag))).
  assert (Hd : length digits = 8%nat)
    by (subst digits; rewrite length_take; lia).
  unfold poke at 1. rewrite length_app, Hd. simpl length.
  case_decide; [|lia]. cbn [mbind option_bind]. unfold strncat.
  set (name1 := take 4 name ++ (digits ++ [x00]) ++ drop (4 + (8 + 1)) name).
  assert (H12 : drop 12 name1 = x00 :: drop (4 + (8 + 1)) name).
  { subst name1. rewrite <- app_assoc.
    rewrite (app_assoc (take 4 name) digits).
    rewrite drop_app_length'; [reflexivity|].
    rewrite length_app, length_take, Hd. lia. }
  rewrite H12. cbn [strlen mbind option_bind].
  assert (H1 : length name1 = length name).
  { subst name1. rewrite !length_app, length_take, length_drop, Hd.
    cbn [length]. lia. }
  unfold poke. rewrite H1. simpl length. case_decide; [|lia].
  eexists. split; [reflexivity|].
  rewrite !length_app, length_drop, H1.
  change (length (take 5 (list_byte_of_string ".ppm"))) with 4%nat.
  rewrite length_take. cbn [length]. lia.
Qed.

End FileName.

Section FileSystem.

Lemma files_only_refl (g : globals) : files_only g g.
Proof. exists (files g). destruct g; reflexivity. Qed.

Lemma files_only_trans (g1 g2 g3 : globals) :
  files_only g1 g2 -> files_only g2 g3 -> files_only g1 g3.
Proof. intros [fs1 ->] [fs2 ->]. exists fs2. reflexivity. Qed.

Lemma sys_open_files_only (path : string) (fd : Z) (g : globals) :
  files_only g (sys_open path fd g).
Proof.
  unfold sys_open. destruct (fd =? -1); [apply files_only_refl|].
  destruct (files g !! path); [apply files_only_refl|]. eexists; reflexivity.
Qed.

Lemma sys_write_files_only fd path off p count ret (g : globals) :
  files_only g (sys_write fd path off p count ret g).1.
Proof.
  unfold sys_write. destruct ((fd =? -1) || (ret <=? 0)); simpl;
    [apply files_only_refl | eexists; reflexivity].
Qed.

Lemma write_loop_files_only (rets : list Z) :
  forall dumpfd path off p size total (g s : globals),
    result_state snd (write_loop rets dumpfd path off p size total g) = Some s ->
    files_only g s.
Proof.
  induction rets as [|w rets IH]; intros dumpfd path off p size total g s.
  - simpl. intros [= <-]. apply files_only_refl.
  - cbn [write_loop].
    pose proof (sys_write_files_only dumpfd path off p size w g) as Hw.
    destruct (sys_write dumpfd path off p size w g) as [g1 off1].
    simpl in Hw. destruct (fits_int (total + w)); [|discriminate].
    destruct (total + w <? size).
    + intros Hs. apply IH in Hs. eapply files_only_trans; eassumption.
    + simpl. intros [= <-]. exact Hw.
Qed.

(** The loop of [dump_ppm] never ends the process. *)
Lemma write_loop_no_exit (rets : list Z) :
  forall dumpfd path off p size total (g : globals),
    match write_loop rets dumpfd path off p size total g with
    | Exit _ _ _ | Abort _ => False
    | _ => True
    end.
Proof.
  induction rets as [|w rets IH]; intros dumpfd path off p size total g.
  - exact I.
  - cbn [write_loop].
    destruct (sys_write dumpfd path off p size w g) as [g1 off1].
    destruct (fits_int (total + w)); [|exact I].
    destruct (total + w <? size); [apply IH | exact I].
Qed.

Lemma write_loop_returns (rets : list Z) :
  forall dumpfd path off p size total (g : globals),
    writes_complete rets size total = true <->
    exists t s, write_loop rets dumpfd path off p size total g = Return (t, s).
Proof.
  induction rets as [|w rets IH]; intros dumpfd path off p size total g.
  - simpl. split; [discriminate | intros (t & s & [=])].
  - cbn [write_loop writes_complete].
    destruct (sys_write dumpfd path off p size w g) as [g1 off1].
    destruct (fits_int (total + w)); simpl;
      [|split; [discriminate | intros (t & s & [=])]].
    destruct (total + w <? size); [apply IH|].
    split; [eauto | reflexivity].
Qed.

End FileSystem.

(** ** The digits of the frame number *)

Section Digits.

Lemma length_zero_padded (k : nat) (n : Z) : length (zero_padded k n) = k.
Proof.
  revert n. induction k as [|k IH]; intros n; [reflexivity|].
  cbn [zero_padded]. rewrite length_app, IH. simpl. lia.
Qed.

Lemma zero_padded_0 (k : nat) : zero_padded k 0 = replicate k x30.
Proof.
  induction k as [|k IH]; [reflexivity|].
  cbn [zero_padded]. change (0 / 10) with 0. rewrite IH.
  change [to_uchar (48 + 0 mod 10)] with (replicate 1 x30).
  rewrite <- replicate_add. f_equal. lia.
Qed.

Lemma length_decimal (fuel : nat) :
  forall (k : nat) (n : Z),
    (1 <= k <= fuel)%nat -> 0 <= n < 10 ^ Z.of_nat k ->
    (1 <= length (decimal fuel n) <= k)%nat.
Proof.
  induction fuel as [|fuel IH]; intros k n Hk Hn; [lia|].
  cbn [decimal]. destruct (Z.ltb_spec n 10); [simpl; lia|].
  rewrite length_app. cbn [length].
  destruct k as [|[|k]]; [lia | simpl in Hn; lia |].
  assert (0 <= n / 10 < 10 ^ Z.of_nat (S k)).
  { replace (Z.of_nat (S (S k))) with (Z.of_nat (S k) + 1) in Hn by lia.
    rewrite Z.pow_add_r, Z.pow_1_r in Hn by lia.
    split; [apply Z.div_pos; lia|].
    apply Z.div_lt_upper_bound; lia. }
  specialize (IH (S k) (n / 10)). lia.
Qed.

(** [%0kd] of a number below [10^k] is its [k] zero-padded digits. *)
Lemma decimal_zero_padded (fuel : nat) :
  forall (k : nat) (n : Z),
    (1 <= k <= fuel)%nat -> 0 <= n < 10 ^ Z.of_nat k ->
    replicate (k - length (decimal fuel n)) x30 ++ decimal fuel n
    = zero_padded k n.
Proof.
  induction fuel as [|fuel IH]; intros k n Hk Hn; [lia|].
  destruct k as [|k]; [lia|]. cbn [decimal zero_padded].
  destruct (Z.ltb_spec n 10) as [Hsmall|Hbig].
  - rewrite Z.div_small, Z.mod_small by lia. rewrite zero_padded_0.
    simpl length. f_equal. f_equal. lia.
  - destruct k as [|k]; [simpl in Hn; lia|].
    assert (Hq : 0 <= n / 10 < 10 ^ Z.of_nat (S k)).
    { replace (Z.of_nat (S (S k))) with (Z.of_nat (S k) + 1) in Hn by lia.
      rewrite Z.pow_add_r, Z.pow_1_r in Hn by lia.
      split; [apply Z.div_pos; lia|].
      apply Z.div_lt_upper_bound; lia. }
    rewrite length_app. cbn [length].
    rewrite app_assoc. f_equal.
    rewrite <- (IH (S k) (n / 10)) by lia.
    f_equal. f_equal. lia.
Qed.

Lemma printf_08d_zero_padded (v : Z) :
  0 <= v < 10 ^ 8 -> printf_08d v = zero_padded 8 v.
Proof.
  intros Hv. unfold printf_08d.
  destruct (Z.ltb_spec v 0); [lia|].
  rewrite Z.abs_eq by lia.
  apply (decimal_zero_padded 10 8 v); [lia | exact Hv].
Qed.

(** The characters of a zero-padded number are the digits ['0'] to
    ['9']. *)
Lemma zero_padded_digits (k : nat) (n : Z) :
  Forall (fun b => 48 <= uchar_val b <= 57) (zero_padded k n).
Proof.
  revert n. induction k as [|k IH]; intros n; [constructor|].
  cbn [zero_padded]. apply Forall_app. split; [apply IH|].
  constructor; [|constructor].
  pose proof (Z.mod_pos_bound n 10 ltac:(lia)).
  rewrite uchar_val_to_uchar_small by lia. lia.
Qed.

Lemma zero_padded_not_nul (k : nat) (n : Z) :
  Forall (fun b => b <> x00) (zero_padded k n).
Proof.
  eapply Forall_impl; [apply zero_padded_digits|].
  intros b Hb ->. change (uchar_val x00) with 0 in Hb. lia.
Qed.

Lemma strlen_terminated (a b : list byte) :
  Forall (fun c => c <> x00) a -> strlen (a ++ x00 :: b) = Some (length a).
Proof.
  induction 1 as [|c a Hc _ IH]; [reflexivity|].
  cbn [app strlen length]. rewrite IH.
  destruct c; try reflexivity. contradiction.
Qed.

End Digits.

Section PathOfFrame.

(** The name the two statements of [dump_ppm] build for a frame
    number below [10^8]: the four characters that start the array,
    the number as eight zero-padded digits, and [.ppm]. *)
Lemma dump_name_path (name : list byte) (tag : Z) :
  (17 <= length name)%nat ->
  Forall (fun c => c <> x00) (take 4 name) ->
  0 <= tag < 10 ^ 8 ->
  exists name',
    dump_name name tag = Some name'
    /\ cstring name'
       = take 4 name ++ zero_padded 8 tag ++ list_byte_of_string ".ppm"
    /\ take 4 name' = take 4 name
    /\ length name' = length name.
Proof.
  intros Hlen Hhead Htag. unfold dump_name, snprintf_08d.
  assert (Hint : to_int tag = tag).
  { unfold to_int. rewrite Z.mod_small by lia. lia. }
  rewrite Hint, printf_08d_zero_padded by exact Htag.
  set (digits := zero_padded 8 tag).
  assert (Hd : length digits = 8%nat) by apply length_zero_padded.
  assert (Hh : length (take 4 name) = 4%nat) by (rewrite length_take; lia).
  rewrite (take_ge digits) by lia.
  unfold poke at 1. rewrite length_app, Hd. cbn [length].
  case_decide; [|lia]. cbn [mbind option_bind]. unfold strncat.
  set (name1 := take 4 name ++ (digits ++ [x00]) ++ drop (4 + (8 + 1)) name).
  assert (Hsplit : name1
                   = (take 4 name ++ digits) ++ x00 :: drop (4 + (8 + 1)) name).
  { subst name1. rewrite <- !app_assoc. reflexivity. }
  assert (H12 : length (take 4 name ++ digits) = 12%nat)
    by (rewrite length_app, Hh, Hd; reflexivity).
  assert (Hdrop : drop 12 name1 = x00 :: drop (4 + (8 + 1)) name).
  { rewrite Hsplit. apply drop_app_length'. symmetry. exact H12. }
  assert (Htake : take 12 name1 = take 4 name ++ digits).
  { rewrite Hsplit. apply take_app_length'. symmetry. exact H12. }
  assert (H1 : length name1 = length name).
  { subst name1. rewrite !length_app, Hh, length_drop, Hd.
    cbn [length]. lia. }
  rewrite Hdrop. cbn [strlen mbind option_bind].
  unfold poke. rewrite H1. simpl length. case_decide; [|lia].
  rewrite Nat.add_0_r, Htake.
  set (ext := take 5 (list_byte_of_string ".ppm")).
  eexists. split; [reflexivity|]. split; [|split].
  - unfold cstring.
    replace ((take 4 name ++ digits) ++ (ext ++ [x00]) ++ drop (12 + 5) name1)
      with ((take 4 name ++ digits ++ ext) ++ x00 :: drop (12 + 5) name1)
      by (rewrite <- !app_assoc; reflexivity).
    rewrite strlen_terminated.
    + rewrite take_app_length. reflexivity.
    + apply Forall_app. split; [exact Hhead|].
      apply Forall_app. split; [apply zero_padded_not_nul|].
      subst ext. repeat constructor; discriminate.
  - rewrite <- !app_assoc. rewrite take_app_length'; [reflexivity | symmetry; exact Hh].
  - rewrite !length_app, Hh, Hd, length_drop, H1. subst ext.
    cbn [length take list_byte_of_string]. simpl. lia.
Qed.

(** From the name array of the program the path of a frame is [fram],
    eight digits and [.ppm]: no character of it is a slash, so it
    names a file of the current directory, not one under [frames/]. *)
Lemma frame_path_no_directory (name : list byte) (tag : Z) :
  (17 <= length name)%nat ->
  take 4 name = list_byte_of_string "fram" ->
  0 <= tag < 10 ^ 8 ->
  exists name',
    dump_name name tag = Some name'
    /\ path_of name'
       = string_of_list_byte
           (list_byte_of_string "fram" ++ zero_padded 8 tag
            ++ list_byte_of_string ".ppm")
    /\ Forall (fun c => c <> x2f) (cstring name')
    /\ take 4 name' = list_byte_of_string "fram"
    /\ length name' = length name.
Proof.
  intros Hlen Hhead Htag.
  destruct (dump_name_path name tag) as (name' & Hn & Hc & Ht & Hl);
    try assumption.
  { rewrite Hhead. repeat constructor; discriminate. }
  exists name'. rewrite Hhead in Hc, Ht. unfold path_of. rewrite Hc.
  split; [exact Hn|]. split; [reflexivity|].
  split; [|split; assumption].
  apply Forall_app. split; [repeat constructor; discriminate|].
  apply Forall_app. split; [|repeat constructor; discriminate].
  eapply Forall_impl; [apply zero_padded_digits|].
  intros b Hb ->. change (uchar_val x2f) with 47 in Hb. lia.
Qed.

End PathOfFrame.

(** ** Emission of one artifact *)

Section Emission.

Lemma files_only_same_run (g s : globals) :
  files_only g s ->
  same_run g s /\ framecnt s = framecnt g /\ bigbuffer s = bigbuffer g
  /\ ppm_dumpname s = ppm_dumpname g.
Proof. intros [fs ->]. repeat split. Qed.

Lemma dump_name_length (name : list byte) (tag : Z) (name' : list byte) :
  dump_name name tag = Some name' -> length name' = length name.
Proof.
  unfold dump_name, snprintf_08d, strncat.
  destruct (poke name 4 _) as [name1|] eqn:H1; [|discriminate].
  cbn [mbind option_bind].
  destruct (strlen (drop 12 name1)) as [len|]; [|discriminate].
  cbn [mbind option_bind]. intros H2.
  apply length_poke in H1, H2. congruence.
Qed.

(** The state [dump_ppm] ends in differs from the one it starts in by
    the name array and the files only. *)
Lemma dump_ppm_shape p size tag io (g s : globals) :
  result_state id (dump_ppm p size tag io g) = Some s ->
  exists name fs,
    dump_name (ppm_dumpname g) tag = Some name
    /\ s = set_files fs (set_ppm_dumpname name g).
Proof.
  unfold dump_ppm.
  destruct (dump_name (ppm_dumpname g) tag) as [name|]; [|discriminate].
  set (g1 := set_ppm_dumpname name g).
  pose proof (sys_open_files_only (path_of name) (fio_open io) g1) as Ho.
  set (g2 := sys_open (path_of name) (fio_open io) g1) in *.
  pose proof (sys_write_files_only (fio_open io) (path_of name) 0 ppm_header
                (Z.of_nat (length ppm_header)) (fio_header io) g2) as Hh.
  destruct (sys_write (fio_open io) (path_of name) 0 ppm_header _ _ g2)
    as [g3 off]. simpl in Hh.
  pose proof (write_loop_files_only (fio_payload io) (fio_open io)
                (path_of name) off p size 0 g3) as Hl.
  destruct (write_loop (fio_payload io) (fio_open io) (path_of name) off p
              size 0 g3) as [[t g4]| | | |]; simpl in *;
    intros [= <-]; exists name;
    destruct (files_only_trans _ _ _ Ho
                (files_only_trans _ _ _ Hh (Hl _ eq_refl))) as [fs ->];
    exists fs; auto.
Qed.

Lemma dump_ppm_same_run p size tag io (g s : globals) :
  result_state id (dump_ppm p size tag io g) = Some s ->
  same_run g s /\ framecnt s = framecnt g /\ bigbuffer s = bigbuffer g.
Proof.
  intros Hs. apply dump_ppm_shape in Hs as (name & fs & Hn & ->).
  apply dump_name_length in Hn. repeat split; simpl; auto.
Qed.

Lemma dump_ppm_returns p size tag io (g : globals) :
  (17 <= length (ppm_dumpname g))%nat ->
  writes_complete (fio_payload io) size 0 = true ->
  exists s, dump_ppm p size tag io g = Return s.
Proof.
  intros Hname Hw. unfold dump_ppm.
  destruct (dump_name_defined (ppm_dumpname g) tag Hname) as (name & -> & _).
  destruct (sys_write (fio_open io) (path_of name) 0 ppm_header _ _ _)
    as [g3 off].
  eapply write_loop_returns in Hw as (t & s & ->). eexists. reflexivity.
Qed.

Lemma overwrite_end (content data : list byte) :
  overwrite content (length content) data = content ++ data.
Proof.
  unfold overwrite. rewrite firstn_all, drop_ge by lia.
  rewrite app_nil_r. reflexivity.
Qed.

Lemma sys_write_full fd path p (g : globals) (content : list byte) :
  fd <> -1 ->
  p <> [] ->
  files g !! path = Some content ->
  sys_write fd path (length content) p (Z.of_nat (length p))
    (Z.of_nat (length p)) g
  = (set_files (<[path := content ++ p]> (files g)) g,
     (length content + length p)%nat).
Proof.
  intros Hfd Hp Hfile. unfold sys_write.
  destruct (Z.eqb_spec fd (-1)) as [|_]; [contradiction|].
  destruct (Z.leb_spec (Z.of_nat (length p)) 0) as [Hz|_].
  { destruct p; [contradiction | simpl in Hz; lia]. }
  cbn [orb]. rewrite Hfile. cbn [default from_option id].
  rewrite Nat2Z.id, !firstn_all, overwrite_end. reflexivity.
Qed.

(** When [open] succeeds on a path that names no file yet, the header
    is written in full and the first [write] of the payload takes all
    of it, the file holds the header and then the payload. *)
Lemma dump_ppm_complete p size tag io (g : globals) name more :
  dump_name (ppm_dumpname g) tag = Some name ->
  files g !! path_of name = None ->
  fio_open io <> -1 ->
  fio_header io = Z.of_nat (length ppm_header) ->
  fio_payload io = size :: more ->
  size = Z.of_nat (length p) ->
  size < 2 ^ 31 ->
  dump_ppm p size tag io g
  = Return (set_files (<[path_of name := ppm_header ++ p]> (files g))
              (set_ppm_dumpname name g)).
Proof.
  intros Hname Hfresh Hfd Hhdr Hpay Hsize Hint. unfold dump_ppm.
  rewrite Hname, Hpay, Hhdr. unfold sys_open.
  destruct (Z.eqb_spec (fio_open io) (-1)) as [|_]; [contradiction|].
  cbn [files set_ppm_dumpname]. rewrite Hfresh.
  rewrite (sys_write_full _ _ ppm_header _ []);
    [|assumption | discriminate | apply lookup_insert_eq].
  cbn [files set_files app length Nat.add]. rewrite insert_insert_eq.
  cbn [write_loop]. rewrite Z.add_0_l.
  replace (fits_int size) with true
    by (symmetry; unfold fits_int; apply andb_true_intro; split;
        [apply Z.leb_le | apply Z.ltb_lt]; lia).
  rewrite Z.ltb_irrefl. subst size.
  destruct p as [|b p].
  - unfold sys_write. rewrite orb_true_r. rewrite app_nil_r. reflexivity.
  - rewrite (sys_write_full _ _ (b :: p) _ ppm_header);
      [|assumption | discriminate | apply lookup_insert_eq].
    cbn [files set_files mbind result_bind]. rewrite insert_insert_eq.
    reflexivity.
Qed.

End Emission.

(** ** Processing of one frame *)

Section ProcessImage.

Lemma process_image_state p size io (g s : globals) :
  result_state id (process_image p size io g) = Some s ->
  same_run g s /\ framecnt s = to_uint (framecnt g + 1).
Proof.
  unfold process_image. cbn [fmt_pixelformat set_framecnt].
  destruct (fmt_pixelformat g) eqn:Hpf.
  - cbn [bigbuffer].
    destruct (convert_yuyv p size _) as [bb|]; [|simpl; discriminate].
    destruct (fits_int (size * 6)); [|simpl; discriminate].
    intros Hs. apply dump_ppm_same_run in Hs as ([] & Hc & _).
    simpl in *. repeat split; congruence.
  - intros Hs. apply dump_ppm_same_run in Hs as ([] & Hc & _).
    simpl in *. repeat split; congruence.
  - simpl. intros [= <-]. repeat split; simpl; congruence.
Qed.

(** C10. Each call of [process_image] advances the frame counter by
    one, and does so before the pixel format is looked at: whatever
    the call does afterwards, the state it ends in has the counter one
    higher; with a format that is neither YUYV nor RGB24 the call
    returns with the counter advanced and the files as they were. *)
Theorem process_image_counts_first
    (p : list byte) (size : Z) (io : frame_io) (g : globals) (fourcc : Z) :
  fmt_pixelformat g = PixOther fourcc ->
  process_image p size io g
  = Return (set_framecnt (to_uint (framecnt g + 1)) g)
  /\ files (set_framecnt (to_uint (framecnt g + 1)) g) = files g
  /\ forall (p' : list byte) (size' : Z) (io' : frame_io) (g' s : globals),
       result_state id (process_image p' size' io' g') = Some s ->
       framecnt s = to_uint (framecnt g' + 1).
Proof.
  intros Hpf. split; [|split].
  - unfold process_image. cbn [fmt_pixelformat set_framecnt].
    rewrite Hpf. reflexivity.
  - reflexivity.
  - intros p' size' io' g' s Hs. apply process_image_state in Hs. tauto.
Qed.

Lemma process_image_counts_first_witness :
  let g := initial (PixOther 1196444237) ∅ in
  let io := {| fio_open := 3; fio_header := 48; fio_payload := [4] |} in
  process_image [x01; x02; x03; x04] 4 io g
  = Return (set_framecnt (to_uint (framecnt g + 1)) g)
  /\ files (set_framecnt (to_uint (framecnt g + 1)) g) = files g
  /\ forall (p' : list byte) (size' : Z) (io' : frame_io) (g' s : globals),
       result_state id (process_image p' size' io' g') = Some s ->
       framecnt s = to_uint (framecnt g' + 1).
Proof.
  intros g io.
  apply (process_image_counts_first [x01; x02; x03; x04] 4 io g 1196444237).
  reflexivity.
Defined.

(** A subsampled-422 frame emitted into a new file with writes that
    complete: the file holds the header and the converted groups. *)
Lemma process_image_yuyv_complete
    (g : globals) (io : frame_io) (gs : list group) (rest : list byte)
    (name : list byte) (more : list Z) :
  fmt_pixelformat g = V4L2_PIX_FMT_YUYV ->
  6 * Z.of_nat (length gs) <= BIGBUFFER_SIZE ->
  dump_name (ppm_dumpname g) (to_uint (framecnt g + 1)) = Some name ->
  files g !! path_of name = None ->
  fio_open io <> -1 ->
  fio_header io = Z.of_nat (length ppm_header) ->
  fio_payload io = 6 * Z.of_nat (length gs) :: more ->
  exists s : globals,
    process_image (flat_map group_bytes gs ++ rest)
      (4 * Z.of_nat (length gs)) io g = Return s
    /\ files s
       = <[path_of name := ppm_header ++ flat_map code_group gs]> (files g).
Proof.
  intros Hpf Hcap Hname Hfresh Hfd Hhdr Hpay.
  pose proof (yuyv_payload_groups gs rest (bigbuffer g) Hcap) as Hconv.
  unfold yuyv_payload in Hconv.
  destruct (convert_yuyv (flat_map group_bytes gs ++ rest)
              (4 * Z.of_nat (length gs)) (bigbuffer g)) as [bb|] eqn:Hbb;
    [|discriminate].
  cbn [mbind option_bind] in Hconv.
  destruct (fits_int (4 * Z.of_nat (length gs) * 6)) eqn:Hfit;
    [|discriminate].
  injection Hconv as Hout.
  assert (Hq : Z.quot (4 * Z.of_nat (length gs) * 6) 4
               = 6 * Z.of_nat (length gs)).
  { rewrite Z.quot_div_nonneg by lia.
    replace (4 * Z.of_nat (length gs) * 6)
      with (6 * Z.of_nat (length gs) * 4) by lia.
    apply Z.div_mul. lia. }
  eexists. split.
  - unfold process_image. cbn [fmt_pixelformat set_framecnt bigbuffer].
    rewrite Hpf, Hbb, Hfit, Hout, Hq.
    apply (dump_ppm_complete _ _ _ _ _ name more); try assumption.
    + rewrite length_code_groups. lia.
    + assert (BIGBUFFER_SIZE < 2 ^ 31) by (vm_compute; reflexivity). lia.
  - reflexivity.
Qed.

Lemma frame_dump_yuyv (gs : list group) (rest : list byte) (bb : array) :
  6 * Z.of_nat (length gs) <= BIGBUFFER_SIZE ->
  frame_dump V4L2_PIX_FMT_YUYV (flat_map group_bytes gs ++ rest)
    (4 * Z.of_nat (length gs)) bb
  = Some (flat_map code_group gs, 6 * Z.of_nat (length gs)).
Proof.
  intros Hcap.
  pose proof (yuyv_payload_groups gs rest bb Hcap) as Hconv.
  unfold yuyv_payload in Hconv. unfold frame_dump.
  assert (Hq : Z.quot (4 * Z.of_nat (length gs) * 6) 4
               = 6 * Z.of_nat (length gs)).
  { rewrite Z.quot_div_nonneg by lia.
    replace (4 * Z.of_nat (length gs) * 6)
      with (6 * Z.of_nat (length gs) * 4) by lia.
    apply Z.div_mul. lia. }
  rewrite Hq in *.
  destruct (convert_yuyv _ _ _) as [bb'|];
    cbn [mbind option_bind] in Hconv |- *; [|discriminate Hconv].
  destruct (fits_int (4 * Z.of_nat (length gs) * 6)); [|discriminate Hconv].
  injection Hconv as ->. reflexivity.
Qed.

Lemma spec_groups_of_code (gs : list group) :
  uchar_val <$> flat_map code_group gs = flat_map spec_group gs.
Proof.
  induction gs as [|q gs IH]; [reflexivity|].
  cbn [flat_map]. rewrite fmap_app, IH, code_group_spec. reflexivity.
Qed.

(** C3, as the program has it.  A frame of 320 by 240 pixels that is
    emitted into a new file, with writes that complete, gives a file
    made of the header [P6], newline, [#] and a comment field of 31
    fixed characters, newline, [320 240], newline, [255], newline, and
    right after it the [320*240*3] bytes handed to [dump_ppm]: for a
    subsampled-422 frame the RGB triples of its groups in their order,
    for an RGB frame the bytes of the frame. *)
Theorem artifact_format
    (g : globals) (io : frame_io) (p : list byte) (size : Z)
    (out : list byte) (name : list byte) (more : list Z) :
  frame_dump (fmt_pixelformat g) p size (bigbuffer g)
  = Some (out, HRES * VRES * 3) ->
  Z.of_nat (length out) = HRES * VRES * 3 ->
  dump_name (ppm_dumpname g) (to_uint (framecnt g + 1)) = Some name ->
  files g !! path_of name = None ->
  fio_open io <> -1 ->
  fio_header io = Z.of_nat (length ppm_header) ->
  fio_payload io = HRES * VRES * 3 :: more ->
  exists s : globals,
    process_image p size io g = Return s
    /\ files s !! path_of name
       = Some (spec_header comment_field HRES VRES ++ out)
    /\ length comment_field = 31%nat
    /\ (forall (gs : list group) (rest : list byte),
          fmt_pixelformat g = V4L2_PIX_FMT_YUYV ->
          p = flat_map group_bytes gs ++ rest ->
          size = 4 * Z.of_nat (length gs) ->
          uchar_val <$> out = flat_map spec_group gs)
    /\ (fmt_pixelformat g = V4L2_PIX_FMT_RGB24 ->
        out = take (Z.to_nat size) p).
Proof.
  intros Hdump Hlen Hname Hfresh Hfd Hhdr Hpay.
  assert (Hint : HRES * VRES * 3 < 2 ^ 31) by (vm_compute; reflexivity).
  unfold frame_dump in Hdump. unfold process_image.
  cbn [fmt_pixelformat set_framecnt bigbuffer].
  destruct (fmt_pixelformat g) eqn:Hpf; [| |discriminate].
  - destruct (convert_yuyv p size (bigbuffer g)) as [bb|] eqn:Hbb;
      [|discriminate].
    cbn [mbind option_bind] in Hdump.
    destruct (fits_int (size * 6)) eqn:Hfit; [|discriminate].
    injection Hdump as Hout Hsize.
    cbv zeta. rewrite Hsize in Hout |- *. rewrite Hout.
    eexists. split; [|split; [|split; [|split]]].
    + apply (dump_ppm_complete _ _ _ _ _ name more); try assumption.
      symmetry. exact Hlen.
    + cbn [files set_files]. apply lookup_insert_eq.
    + reflexivity.
    + intros gs rest _ -> ->.
      assert (Hgs : 6 * Z.of_nat (length gs) = HRES * VRES * 3).
      { rewrite <- Hsize, Z.quot_div_nonneg by lia.
        replace (4 * Z.of_nat (length gs) * 6)
          with (6 * Z.of_nat (length gs) * 4) by lia.
        symmetry. apply Z.div_mul. lia. }
      pose proof (yuyv_payload_groups gs rest (bigbuffer g)) as Hconv.
      unfold yuyv_payload in Hconv. rewrite Hbb in Hconv.
      cbn [mbind option_bind] in Hconv. rewrite Hfit, Hsize, Hout in Hconv.
      injection Hconv as ->.
      * apply spec_groups_of_code.
      * rewrite Hgs. vm_compute. discriminate.
    + discriminate.
  - injection Hdump as Hout Hsize. rewrite Hsize in Hout |- *. rewrite Hout.
    eexists. split; [|split; [|split; [|split]]].
    + apply (dump_ppm_complete _ _ _ _ _ name more); try assumption.
      symmetry. exact Hlen.
    + cbn [files set_files]. apply lookup_insert_eq.
    + reflexivity.
    + discriminate.
    + reflexivity.
Qed.

(** The product [size*6] is formed in [int]: for a [size] below
    -357913941 it overflows, after a loop that had nothing to
    convert. *)
Lemma process_image_product_overflow p size io (g : globals) :
  fmt_pixelformat g = V4L2_PIX_FMT_YUYV ->
  size < -357913941 ->
  process_image p size io g = Undefined.
Proof.
  intros Hpf Hsize. unfold process_image, convert_yuyv.
  cbn [fmt_pixelformat set_framecnt bigbuffer]. rewrite Hpf.
  replace (Z.to_nat size) with 0%nat by lia. cbn [yuyv_loop].
  destruct (Z.ltb_spec 0 size); [lia|].
  assert (Hfit : fits_int (size * 6) = false).
  { unfold fits_int. apply andb_false_iff. left. apply Z.leb_gt. lia. }
  rewrite Hfit. reflexivity.
Qed.

(** A [bytesused] of 2^31 + 1 reaches [process_image] as the [int]
    -2147483647. *)
Example bytesused_beyond_int :
  read_frame
    {| it_select := fun _ => (1, Eother 0);
       it_dqbuf :=
         [{| io_r := 0; io_errno := Eother 0;
             io_arg := {| index := 0; bytesused := 2147483649 |} |}];
       it_data := stripes; it_io := io_complete 96;
       it_qbuf := [{| io_r := 0; io_errno := Eother 0; io_arg := tt |}] |}
    (streaming V4L2_PIX_FMT_YUYV 2)
  = Undefined.
Proof.
  unfold read_frame. cbn [xioctl it_dqbuf io_r io_errno io_arg andb Z.eqb].
  cbn [index bytesused n_buffers streaming Z.ltb Z.compare Pos.compare
       Pos.compare_cont].
  rewrite process_image_product_overflow; [reflexivity..|].
  vm_compute. reflexivity.
Qed.

End ProcessImage.

(** ** The emitted artifact *)

Section Artifact.

Lemma length_frame_320x240 : Z.of_nat (length frame_320x240) = 38400.
Proof.
  unfold frame_320x240. rewrite length_replicate.
  change (HRES * VRES / 2) with 38400. lia.
Qed.

Lemma artifact_format_witness :
  let g := first_frame V4L2_PIX_FMT_YUYV in
  let io := io_complete (HRES * VRES * 3) in
  let p := flat_map group_bytes frame_320x240 ++ [] in
  let out := flat_map code_group frame_320x240 in
  let name :=
    list_byte_of_string "fram00000001.ppm" ++ [x00]
    ++ list_byte_of_string "00.ppm" ++ [x00] in
  exists s : globals,
    process_image p (HRES * VRES * 2) io g = Return s
    /\ files s !! path_of name
       = Some (spec_header comment_field HRES VRES ++ out)
    /\ length comment_field = 31%nat
    /\ (forall (gs : list group) (rest : list byte),
          fmt_pixelformat g = V4L2_PIX_FMT_YUYV ->
          p = flat_map group_bytes gs ++ rest ->
          HRES * VRES * 2 = 4 * Z.of_nat (length gs) ->
          uchar_val <$> out = flat_map spec_group gs)
    /\ (fmt_pixelformat g = V4L2_PIX_FMT_RGB24 ->
        out = take (Z.to_nat (HRES * VRES * 2)) p).
Proof.
  intros g io p out name.
  apply (artifact_format g io p (HRES * VRES * 2) out name []).
  - pose proof (frame_dump_yuyv frame_320x240 [] (fun _ => x00)) as H.
    rewrite length_frame_320x240 in H. apply H. vm_compute. discriminate.
  - subst out. rewrite length_code_groups.
    rewrite Nat2Z.inj_mul, length_frame_320x240. reflexivity.
  - vm_compute. reflexivity.
  - apply lookup_empty.
  - vm_compute. discriminate.
  - reflexivity.
  - reflexivity.
Defined.

Lemma spec_header_comment_end (comment : list byte) (w h : Z) (rest : list byte) :
  (spec_header comment w h ++ rest) !! (4 + length comment)%nat = Some LF.
Proof.
  unfold spec_header.
  change (list_byte_of_string "P6" ++ [LF] ++ list_byte_of_string "#"
          ++ comment ++ [LF] ++ ?t)
    with ([x50; x36; LF; x23] ++ comment ++ LF :: t).
  rewrite (app_assoc [x50; x36; LF; x23] comment), <- app_assoc.
  rewrite lookup_app_r by (rewrite length_app; simpl; lia).
  rewrite length_app. simpl length.
  replace (4 + length comment - (4 + length comment))%nat with 0%nat by lia.
  reflexivity.
Qed.

Lemma frame_320x240_head :
  frame_320x240
  = replicate 4 (x10, x80, xeb, x80)
    ++ replicate (Z.to_nat 38396) (x10, x80, xeb, x80).
Proof.
  unfold frame_320x240. rewrite <- replicate_add.
  apply (f_equal (fun n => replicate n (x10, x80, xeb, x80))).
  change (HRES * VRES / 2) with 38400. lia.
Qed.

(** A file that holds the header of the program and then a payload
    whose twenty-first byte is not a newline has no comment field of 64
    characters: such a field would end with a newline at offset 68. *)
Lemma no_comment_field_of_64
    (r : result globals) (s : globals) (path : string) (out : list byte) :
  r = Return s ->
  files s !! path = Some (ppm_header ++ out) ->
  out !! 20%nat = Some x00 ->
  ~ exists comment rest : list byte,
      length comment = 64%nat
      /\ artifact_of r path = Some (spec_header comment HRES VRES ++ rest).
Proof.
  intros -> Hfile Hout (comment & rest & Hlen & Hart).
  unfold artifact_of in Hart. cbn [result_state mbind option_bind id] in Hart.
  rewrite Hfile in Hart.
  apply (f_equal (fun o => l ← o; l !! (4 + length comment)%nat)) in Hart.
  cbn [mbind option_bind] in Hart.
  rewrite spec_header_comment_end, Hlen in Hart.
  rewrite lookup_app_r in Hart by (vm_compute; lia).
  change (4 + 64 - length ppm_header)%nat with 20%nat in Hart.
  rewrite Hout in Hart. discriminate Hart.
Qed.

Lemma frame_320x240_byte_20 :
  flat_map code_group frame_320x240 !! 20%nat = Some x00.
Proof.
  rewrite frame_320x240_head, flat_map_app.
  rewrite lookup_app_l by (vm_compute; lia).
  vm_compute. reflexivity.
Qed.

(** C3 as stated fails: the file emitted for a frame of 320 by 240
    pixels has no comment field of 64 characters. *)
Lemma artifact_comment_field_not_64 :
  ~ exists comment rest : list byte,
      length comment = 64%nat
      /\ artifact_of
           (process_image (flat_map group_bytes frame_320x240 ++ [])
              (4 * Z.of_nat (length frame_320x240))
              (io_complete (6 * Z.of_nat (length frame_320x240)))
              (first_frame V4L2_PIX_FMT_YUYV))
           "fram00000001.ppm"
         = Some (spec_header comment HRES VRES ++ rest).
Proof.
  set (name := list_byte_of_string "fram00000001.ppm" ++ [x00]
               ++ list_byte_of_string "00.ppm" ++ [x00]).
  destruct (process_image_yuyv_complete (first_frame V4L2_PIX_FMT_YUYV)
              (io_complete (6 * Z.of_nat (length frame_320x240)))
              frame_320x240 [] name [])
    as (s & Hrun & Hfiles).
  - reflexivity.
  - unfold frame_320x240. rewrite length_replicate. vm_compute. discriminate.
  - vm_compute. reflexivity.
  - apply lookup_empty.
  - discriminate.
  - reflexivity.
  - reflexivity.
  - apply (no_comment_field_of_64 _ s _ (flat_map code_group frame_320x240)
             Hrun).
    + rewrite Hfiles. apply lookup_insert_eq.
    + apply frame_320x240_byte_20.
Qed.

End Artifact.

(** ** The loop of writes and the name of the file *)

Section WriteLoop.

Lemma sum_rets_nonneg (rets : list Z) :
  Forall (fun x => 0 <= x) rets -> 0 <= sum_rets rets.
Proof.
  induction 1 as [|x rets Hx _ IH]; [reflexivity|].
  change (sum_rets (x :: rets)) with (x + sum_rets rets). lia.
Qed.

(** The loop ends at the first [write] with which the sum of the
    values returned reaches [size]. *)
Lemma write_loop_reaches (used : list Z) :
  forall dumpfd path off p size total (g : globals) w rest,
    Forall (fun x => 0 <= x) used ->
    - 2 ^ 31 <= total ->
    total + sum_rets used < size ->
    size <= total + sum_rets used + w ->
    total + sum_rets used + w < 2 ^ 31 ->
    exists s,
      write_loop (used ++ w :: rest) dumpfd path off p size total g
      = Return (total + sum_rets used + w, s).
Proof.
  induction used as [|x used IH];
    intros dumpfd path off p size total g w rest Hpos Hlow Hshort Hfull Hint.
  - simpl in *. rewrite Z.add_0_r in *.
    destruct (sys_write dumpfd path off p size w g) as [g1 off1].
    replace (fits_int (total + w)) with true
      by (symmetry; apply fits_int_iff; lia).
    destruct (Z.ltb_spec (total + w) size); [lia|]. eexists; reflexivity.
  - apply Forall_cons in Hpos as [Hx Hpos].
    pose proof (sum_rets_nonneg used Hpos) as Hsum.
    cbn [app write_loop]. change (sum_rets (x :: used)) with (x + sum_rets used) in *.
    destruct (sys_write dumpfd path off p size x g) as [g1 off1].
    replace (fits_int (total + x)) with true
      by (symmetry; apply fits_int_iff; lia).
    destruct (Z.ltb_spec (total + x) size); [|lia].
    destruct (IH dumpfd path off1 p size (total + x) g1 w rest) as [s Hs];
      try assumption; try lia.
    exists s. rewrite Hs. f_equal. f_equal. lia.
Qed.

(** While the [write]s return 0 the loop asks for one more. *)
Lemma write_loop_no_progress (n : nat) :
  forall dumpfd path off p size total (g : globals),
    total < size ->
    fits_int total = true ->
    write_loop (replicate n 0) dumpfd path off p size total g = Starved g.
Proof.
  induction n as [|n IH]; intros dumpfd path off p size total g Hlt Hint.
  - reflexivity.
  - cbn [replicate write_loop]. unfold sys_write.
    change (0 <=? 0) with true. rewrite orb_true_r, Z.add_0_r, Hint.
    destruct (Z.ltb_spec total size); [|lia]. apply IH; assumption.
Qed.

(** C4, as the program has it.  The [write] of the payload is issued
    again until the sum of the values returned reaches the payload
    size; the loop has no fatal exit, and as long as the [write]s
    return 0 it goes on asking for another. *)
Theorem write_loop_retries
    (dumpfd : Z) (path : string) (off : nat) (p : list byte) (size : Z)
    (g : globals) :
  0 < size ->
  size < 2 ^ 31 ->
  (forall rets : list Z,
      match write_loop rets dumpfd path off p size 0 g with
      | Exit _ _ _ | Abort _ => False
      | _ => True
      end)
  /\ (forall (used : list Z) (w : Z) (rest : list Z),
         Forall (fun x => 0 <= x) used ->
         sum_rets used < size ->
         size <= sum_rets used + w < 2 ^ 31 ->
         exists s,
           write_loop (used ++ w :: rest) dumpfd path off p size 0 g
           = Return (sum_rets used + w, s))
  /\ (forall n : nat,
         write_loop (replicate n 0) dumpfd path off p size 0 g = Starved g).
Proof.
  intros Hpos Hint. split; [|split].
  - intros rets. apply write_loop_no_exit.
  - intros used w rest Hused Hshort [Hfull Hfit].
    destruct (write_loop_reaches used dumpfd path off p size 0 g w rest)
      as [s Hs]; try assumption; try lia.
    exists s. exact Hs.
  - intros n. apply write_loop_no_progress; [lia | reflexivity].
Qed.

Lemma write_loop_retries_witness :
  let g := first_frame V4L2_PIX_FMT_RGB24 in
  let p := [x01; x02; x03; x04] in
  (forall rets : list Z,
      match write_loop rets 3 "fram00000001.ppm" 48 p 4 0 g with
      | Exit _ _ _ | Abort _ => False
      | _ => True
      end)
  /\ (forall (used : list Z) (w : Z) (rest : list Z),
         Forall (fun x => 0 <= x) used ->
         sum_rets used < 4 ->
         4 <= sum_rets used + w < 2 ^ 31 ->
         exists s,
           write_loop (used ++ w :: rest) 3 "fram00000001.ppm" 48 p 4 0 g
           = Return (sum_rets used + w, s))
  /\ (forall n : nat,
         write_loop (replicate n 0) 3 "fram00000001.ppm" 48 p 4 0 g
         = Starved g).
Proof.
  intros g p.
  apply (write_loop_retries 3 "fram00000001.ppm" 48 p 4 g); lia.
Defined.

(** C4 as stated fails: however many [write]s in a row return 0, the
    loop has neither finished nor ended the process. *)
Lemma write_loop_no_progress_not_fatal :
  ~ exists n : nat,
      match
        write_loop (replicate n 0) 3 "fram00000001.ppm" 48
          [x01; x02; x03; x04] 4 0 (first_frame V4L2_PIX_FMT_RGB24)
      with
      | Starved _ => False
      | _ => True
      end.
Proof.
  intros [n Hn].
  rewrite write_loop_no_progress in Hn; [exact Hn | lia | reflexivity].
Qed.

(** A short [write] is followed by a [write] of the whole payload from
    its start: after returns of 2 and 4 for a payload of four bytes the
    file holds six bytes. *)
Example short_write_restarts :
  artifact_of
    (dump_ppm [x01; x02; x03; x04] 4 1
       {| fio_open := 3; fio_header := 48; fio_payload := [2; 4] |}
       (first_frame V4L2_PIX_FMT_RGB24))
    "fram00000001.ppm"
  = Some (ppm_header ++ [x01; x02] ++ [x01; x02; x03; x04]).
Proof. vm_compute. reflexivity. Qed.

(** Two short [write]s of two bytes end the loop for a payload of four
    bytes, with the second half of the payload never written. *)
Example short_writes_lose_bytes :
  artifact_of
    (dump_ppm [x01; x02; x03; x04] 4 1
       {| fio_open := 3; fio_header := 48; fio_payload := [2; 2] |}
       (first_frame V4L2_PIX_FMT_RGB24))
    "fram00000001.ppm"
  = Some (ppm_header ++ [x01; x02] ++ [x01; x02]).
Proof. vm_compute. reflexivity. Qed.

End WriteLoop.

Section FileNameOfFrame.

(** C9 at the first frame: the file the program opens is
    [fram00000001.ppm], a path without a directory part; no file
    appears under [frames/]. *)
Theorem dump_ppm_path_first_frame :
  exists s : globals,
    dump_ppm [x01; x02; x03] 3 1 (io_complete 3)
      (first_frame V4L2_PIX_FMT_RGB24) = Return s
    /\ path_of (ppm_dumpname s) = "fram00000001.ppm"
    /\ map_to_list (files s)
       = [("fram00000001.ppm", ppm_header ++ [x01; x02; x03])]
    /\ files s !! "frames/test00000001.ppm" = None.
Proof.
  eexists. split.
  - apply (dump_ppm_complete _ _ _ _ _
             (list_byte_of_string "fram00000001.ppm" ++ [x00]
              ++ list_byte_of_string "00.ppm" ++ [x00]) []).
    + vm_compute. reflexivity.
    + apply lookup_empty.
    + vm_compute. discriminate.
    + reflexivity.
    + reflexivity.
    + reflexivity.
    + reflexivity.
  - split; [|split]; vm_compute; reflexivity.
Qed.

End FileNameOfFrame.

(** ** The readiness wait *)

Section Wait.

(** [xioctl] never hands an interrupted call to its caller. *)
Lemma xioctl_not_interrupted {A : Type} (script : list (ioctl_ret A))
    (r : ioctl_ret A) :
  xioctl script = Some r -> ~ (io_r r = -1 /\ io_errno r = EINTR).
Proof.
  induction script as [|r0 script IH]; [discriminate|]. cbn [xioctl].
  destruct ((io_r r0 =? -1) && is_EINTR (io_errno r0)) eqn:E; [exact IH|].
  intros [= <-] [Hr He]. rewrite Hr, He in E. discriminate.
Qed.

Lemma is_EINTR_false (e : errno) : e <> EINTR -> is_EINTR e = false.
Proof. destruct e; try reflexivity. contradiction. Qed.

(** C7. In every pass of the acquisition loop the wait is given a
    timeout of 2 seconds.  When it fails with an interruption the loop
    goes to the next wait with the count and the state as they were;
    when it fails for another reason, or returns 0 for no descriptor
    ready, the process exits with a status other than 0 in the state
    it had, so without a further frame written. *)
Theorem select_outcomes
    (it : iteration) (script : list iteration) (count : Z) (g : globals)
    (r : Z) (e : errno) :
  it_select it select_timeout = (r, e) ->
  r = -1 \/ r = 0 ->
  select_timeout = {| tv_sec := 2; tv_usec := 0 |}
  /\ EXIT_FAILURE <> 0
  /\ for_loop (it :: script) count g
     = if r =? 0 then Exit EXIT_FAILURE (Message "select timeout") g
       else match e with
            | EINTR => for_loop script count g
            | _ => Exit EXIT_FAILURE (ErrnoExit "select" e) g
            end.
Proof.
  intros Hsel Hr. split; [reflexivity|]. split; [discriminate|].
  cbn [for_loop]. rewrite Hsel.
  destruct Hr as [-> | ->]; [|reflexivity].
  cbn [Z.eqb]. destruct e; reflexivity.
Qed.

End Wait.

(** ** The dequeue and the passes of the loop *)

Section Dequeue.

(** C6. When the dequeue fails with [EAGAIN] or [EIO], [read_frame]
    returns 0 with the state as it was (no frame emitted) and the loop
    goes to the next wait with the same count; when it fails for
    another reason the process exits with [EXIT_FAILURE]. *)
Theorem dequeue_outcomes
    (it : iteration) (script : list iteration) (count : Z) (g : globals)
    (r : Z) (e : errno) (dq : ioctl_ret v4l2_buffer) :
  it_select it select_timeout = (r, e) ->
  r <> -1 ->
  r <> 0 ->
  xioctl (it_dqbuf it) = Some dq ->
  io_r dq = -1 ->
  0 < count ->
  match io_errno dq with
  | EAGAIN | EIO =>
      read_frame it g = Return (0, g)
      /\ for_loop (it :: script) count g = for_loop script count g
  | e' =>
      e' <> EINTR
      /\ for_loop (it :: script) count g
         = Exit EXIT_FAILURE (ErrnoExit "VIDIOC_DQBUF" e') g
  end.
Proof.
  intros Hsel Hr1 Hr0 Hdq Hfail Hcount.
  pose proof (xioctl_not_interrupted _ _ Hdq) as Hintr.
  cbn [for_loop]. rewrite Hsel.
  destruct (Z.eqb_spec r (-1)); [contradiction|].
  destruct (Z.eqb_spec r 0); [contradiction|].
  unfold read_frame. rewrite Hdq, Hfail. cbn [Z.eqb Pos.eqb].
  destruct (Z.leb_spec count 0); [lia|].
  destruct (io_errno dq) eqn:He; cbn; try (split; [|reflexivity]);
    try discriminate; try reflexivity.
  exfalso. apply Hintr. split; [exact Hfail | reflexivity].
Qed.

End Dequeue.

Section Termination.

Lemma convert_defined_indep (fuel : nat) :
  forall (p : list byte) (size i newi : Z) (bb1 bb2 : array),
    is_Some (yuyv_loop fuel p size i newi bb1) ->
    is_Some (yuyv_loop fuel p size i newi bb2).
Proof.
  induction fuel as [|fuel IH]; intros p size i newi bb1 bb2;
    cbn [yuyv_loop]; destruct (i <? size); try (intros; eexists; reflexivity);
    try exact id.
  destruct (load p i); [|exact id]. cbn [mbind option_bind].
  destruct (load p (i + 1)); [|exact id]. cbn [mbind option_bind].
  destruct (load p (i + 2)); [|exact id]. cbn [mbind option_bind].
  destruct (load p (i + 3)); [|exact id]. cbn [mbind option_bind].
  destruct ((0 <=? newi) && (newi + 5 <? BIGBUFFER_SIZE)); [|exact id].
  destruct (yuv2rgb _ _ _) as [[c1 c2] c3].
  destruct (yuv2rgb _ _ _) as [[c4 c5] c6].
  apply IH.
Qed.

Lemma process_image_returns (it : iteration) (size : Z) (g : globals) :
  frame_emitted (fmt_pixelformat g) it size = true ->
  (17 <= length (ppm_dumpname g))%nat ->
  exists s, process_image (it_data it) size (it_io it) g = Return s.
Proof.
  intros Hem Hname. unfold process_image, frame_emitted in *.
  cbn [fmt_pixelformat set_framecnt].
  destruct (fmt_pixelformat g).
  - destruct (convert_yuyv (it_data it) size (fun _ => x00)) as [bb0|] eqn:E0;
      [|discriminate].
    destruct (convert_defined_indep _ _ _ _ _ _
                (bigbuffer (set_framecnt (to_uint (framecnt g + 1)) g))
                (ex_intro _ bb0 E0)) as [bb Hbb].
    unfold convert_yuyv. rewrite Hbb.
    apply andb_prop in Hem as [Hfit Hem]. rewrite Hfit.
    apply dump_ppm_returns; assumption.
  - apply dump_ppm_returns; assumption.
  - eexists. reflexivity.
Qed.

Lemma read_frame_frame (it : iteration) (g : globals) :
  pass_of (fmt_pixelformat g) (n_buffers g) it = Frame ->
  (17 <= length (ppm_dumpname g))%nat ->
  exists r e g',
    it_select it select_timeout = (r, e) /\ r <> -1 /\ r <> 0
    /\ read_frame it g = Return (1, g')
    /\ same_run g g'
    /\ framecnt g' = to_uint (framecnt g + 1).
Proof.
  unfold pass_of, read_frame, requeued. intros Hpass Hname.
  destruct (it_select it select_timeout) as [r e].
  destruct (Z.eqb_spec r (-1)); [destruct (is_EINTR e); discriminate|].
  destruct (Z.eqb_spec r 0); [discriminate|].
  destruct (xioctl (it_dqbuf it)) as [dq|]; [|discriminate].
  destruct (io_r dq =? -1); [destruct (io_errno dq); discriminate|].
  destruct (index (io_arg dq) <? n_buffers g); [|discriminate].
  destruct (frame_emitted _ it _) eqn:Hem; [|discriminate].
  destruct (xioctl (it_qbuf it)) as [q|]; [|discriminate].
  destruct (io_r q =? -1); [discriminate|].
  destruct (process_image_returns it _ g Hem Hname) as [s Hs].
  pose proof (process_image_state (it_data it)
                (to_int (bytesused (io_arg dq))) (it_io it) g s) as Hst.
  rewrite Hs in *. destruct Hst as [Hrun Hcnt]; [reflexivity|].
  exists r, e, s. split; [reflexivity|]. split; [assumption|].
  split; [assumption|]. split; [reflexivity|]. split; assumption.
Qed.

Lemma for_loop_skip (it : iteration) (script : list iteration) (count : Z)
    (g : globals) :
  pass_of (fmt_pixelformat g) (n_buffers g) it = Interrupted
  \/ pass_of (fmt_pixelformat g) (n_buffers g) it = NotReady ->
  0 < count ->
  for_loop (it :: script) count g = for_loop script count g.
Proof.
  unfold pass_of. intros Hpass Hcount. cbn [for_loop]. unfold read_frame.
  destruct (it_select it select_timeout) as [r e].
  destruct (r =? -1).
  { destruct (is_EINTR e); [reflexivity|]. destruct Hpass; discriminate. }
  destruct (r =? 0); [destruct Hpass; discriminate|].
  destruct (xioctl (it_dqbuf it)) as [dq|]; [|destruct Hpass; discriminate].
  destruct (io_r dq =? -1).
  - destruct (Z.leb_spec count 0); [lia|].
    destruct (io_errno dq); try (destruct Hpass; discriminate); cbn;
      destruct (Z.leb_spec count 0); try lia; reflexivity.
  - destruct (_ && _); destruct Hpass; discriminate.
Qed.

(** Any number of interrupted waits and of dequeues without data is
    passed over with the count and the state as they were. *)
Lemma for_loop_skips (pre script : list iteration) (count : Z)
    (g : globals) :
  Forall (fun it =>
            pass_of (fmt_pixelformat g) (n_buffers g) it = Interrupted
            \/ pass_of (fmt_pixelformat g) (n_buffers g) it = NotReady)
    pre ->
  0 < count ->
  for_loop (pre ++ script) count g = for_loop script count g.
Proof.
  intros Hpre Hcount. induction Hpre as [|it pre Hit _ IH]; [reflexivity|].
  cbn [app]. rewrite for_loop_skip by assumption. exact IH.
Qed.

Lemma for_loop_frame (it : iteration) (script : list iteration) (count : Z)
    (g : globals) :
  pass_of (fmt_pixelformat g) (n_buffers g) it = Frame ->
  (17 <= length (ppm_dumpname g))%nat ->
  0 < count < 2 ^ 32 ->
  exists g',
    same_run g g'
    /\ framecnt g' = to_uint (framecnt g + 1)
    /\ for_loop (it :: script) count g
       = if count =? 1 then Return (g', script)
         else for_loop script (count - 1) g'.
Proof.
  intros Hpass Hname Hcount.
  destruct (read_frame_frame it g Hpass Hname)
    as (r & e & g' & Hsel & Hr1 & Hr0 & Hread & Hrun & Hcnt).
  exists g'. split; [exact Hrun|]. split; [exact Hcnt|].
  cbn [for_loop]. rewrite Hsel.
  destruct (Z.eqb_spec r (-1)); [contradiction|].
  destruct (Z.eqb_spec r 0); [contradiction|].
  rewrite Hread. cbn [mbind result_bind]. cbn [Z.eqb].
  assert (Hdec : to_uint (count - 1) = count - 1)
    by (unfold to_uint; apply Z.mod_small; lia).
  rewrite Hdec.
  destruct (Z.eqb_spec count 1) as [-> | Hne]; [reflexivity|].
  destruct (Z.leb_spec (count - 1) 0); [lia|].
  destruct (Z.ltb_spec 0 (count - 1)); [reflexivity | lia].
Qed.

End Termination.

(** ** The frame budget *)

Section Budget.

Lemma frames_cons (pf : pixelformat) (n : Z) (it : iteration)
    (script : list iteration) :
  frames pf n (it :: script)
  = (if is_frame pf n it then 1 else 0) + frames pf n script.
Proof.
  unfold frames. rewrite filter_cons.
  destruct (is_frame pf n it); case_decide; try congruence;
    cbn [length]; lia.
Qed.

Lemma frames_nonneg (pf : pixelformat) (n : Z) (script : list iteration) :
  0 <= frames pf n script.
Proof. unfold frames. lia. Qed.

Lemma to_uint_succ_add (a b : Z) :
  to_uint (to_uint (a + 1) + (b - 1)) = to_uint (a + b).
Proof.
  unfold to_uint. rewrite Z.add_mod_idemp_l by lia. f_equal. lia.
Qed.

Lemma same_run_trans (g1 g2 g3 : globals) :
  same_run g1 g2 -> same_run g2 g3 -> same_run g1 g3.
Proof. intros [] []. split; congruence. Qed.

Lemma same_run_refl (g : globals) : same_run g g.
Proof. split; reflexivity. Qed.

Lemma frames_app (pf : pixelformat) (n : Z) (a b : list iteration) :
  frames pf n (a ++ b) = frames pf n a + frames pf n b.
Proof.
  unfold frames. rewrite filter_app, length_app. lia.
Qed.

Lemma frames_last (pf : pixelformat) (n : Z) (it : iteration) :
  is_frame pf n it = true -> frames pf n [it] = 1.
Proof.
  intros Hit. rewrite frames_cons, Hit. reflexivity.
Qed.

(** The [for (;;)] loop entered with [count] returns right after the
    [count]-th frame, when no pass before it fails. *)
Lemma for_loop_reaches (used : list iteration) :
  forall (count : Z) (g : globals) (last : iteration)
         (rest : list iteration),
    0 < count < 2 ^ 32 ->
    (17 <= length (ppm_dumpname g))%nat ->
    Forall (fun it => is_failing (fmt_pixelformat g) (n_buffers g) it = false)
      used ->
    is_frame (fmt_pixelformat g) (n_buffers g) last = true ->
    frames (fmt_pixelformat g) (n_buffers g) (used ++ [last]) = count ->
    exists g' : globals,
      for_loop (used ++ last :: rest) count g = Return (g', rest)
      /\ same_run g g'
      /\ framecnt g' = to_uint (framecnt g + count).
Proof.
  induction used as [|it used IH];
    intros count g last rest Hcount Hname Hok Hlast Hfr.
  - cbn [app] in *. rewrite frames_last in Hfr by exact Hlast. subst count.
    unfold is_frame in Hlast.
    destruct (pass_of (fmt_pixelformat g) (n_buffers g) last) eqn:Hpass;
      try discriminate.
    destruct (for_loop_frame last rest 1 g Hpass Hname Hcount)
      as (g1 & Hrun1 & Hcnt1 & Hstep).
    exists g1. split; [exact Hstep|]. split; assumption.
  - apply Forall_cons in Hok as [Hit Hok]. cbn [app] in *.
    rewrite frames_cons in Hfr.
    pose proof (frames_nonneg (fmt_pixelformat g) (n_buffers g) used) as Hnn.
    rewrite frames_app, (frames_last _ _ _ Hlast) in Hfr.
    unfold is_failing, is_frame in Hit, Hfr.
    destruct (pass_of (fmt_pixelformat g) (n_buffers g) it) eqn:Hpass;
      try discriminate.
    + rewrite for_loop_skip by (auto || lia).
      apply IH; try assumption. rewrite frames_app, (frames_last _ _ _ Hlast).
      lia.
    + rewrite for_loop_skip by (auto || lia).
      apply IH; try assumption. rewrite frames_app, (frames_last _ _ _ Hlast).
      lia.
    + destruct (for_loop_frame it (used ++ last :: rest) count g Hpass Hname
                  Hcount) as (g1 & Hrun1 & Hcnt1 & Hstep).
      rewrite Hstep. destruct (Z.eqb_spec count 1) as [-> | Hne]; [lia|].
      destruct Hrun1 as [Hf Hb Hn Hc Hl].
      destruct (IH (count - 1) g1 last rest) as (g' & Hrun & Hs & Hcnt);
        try lia.
      { rewrite Hf, Hn. exact Hok. }
      { rewrite Hf, Hn. exact Hlast. }
      { rewrite Hf, Hn, frames_app, (frames_last _ _ _ Hlast). lia. }
      exists g'. split; [exact Hrun|]. split.
      * eapply same_run_trans; [|exact Hs]. split; assumption.
      * rewrite Hcnt, Hcnt1. apply to_uint_succ_add.
Qed.

End Budget.

(** ** The acquisition loop *)

Section MainLoop.

(** C5, as the program has it.  Take a run whose passes, up to and
    including the [frame_count]-th frame, do not fail: every wait ends
    with a ready descriptor or an interruption, every dequeue gives a
    frame or has nothing ready, and every frame dequeued is processed
    and queued again (its index is inside the pool, its conversion
    stays inside the buffers and inside [int], the [write]s of its
    file come to an end, [VIDIOC_QBUF] succeeds).  Then [mainloop]
    returns right after that frame, whatever the device would do next:
    it has used exactly [frame_count] frames, however many interrupted
    waits and dequeues without data lie between them, and the frame
    counter has advanced by [frame_count]. *)
Theorem mainloop_terminates (used rest : list iteration) (g : globals) :
  0 <= frame_count g < 2 ^ 32 ->
  (17 <= length (ppm_dumpname g))%nat ->
  Forall (fun it => is_failing (fmt_pixelformat g) (n_buffers g) it = false)
    used ->
  ends_with_frame (fmt_pixelformat g) (n_buffers g) used ->
  frames (fmt_pixelformat g) (n_buffers g) used = frame_count g ->
  exists g' : globals,
    mainloop (used ++ rest) g = Return (g', rest)
    /\ same_run g g'
    /\ to_uint (framecnt g') = to_uint (framecnt g + frame_count g).
Proof.
  intros Hcount Hname Hok Hend Hfr. unfold mainloop, ends_with_frame in *.
  assert (Hu : to_uint (frame_count g) = frame_count g)
    by (unfold to_uint; apply Z.mod_small; lia).
  rewrite Hu. destruct (last used) as [it|] eqn:Hlast.
  - apply last_Some in Hlast as [used0 ->].
    apply Forall_app in Hok as [Hok _].
    assert (Hpos : 0 < frame_count g).
    { rewrite <- Hfr, frames_app, (frames_last _ _ _ Hend).
      pose proof (frames_nonneg (fmt_pixelformat g) (n_buffers g) used0).
      lia. }
    destruct (Z.ltb_spec 0 (frame_count g)); [|lia].
    destruct (for_loop_reaches used0 (frame_count g) g it rest)
      as (g' & Hrun & Hs & Hc); try assumption; try lia.
    exists g'. rewrite <- app_assoc. split; [exact Hrun|].
    split; [exact Hs|]. rewrite Hc. unfold to_uint. apply Z.mod_mod. lia.
  - apply last_None in Hlast as ->. cbn [app].
    change (frames (fmt_pixelformat g) (n_buffers g) []) with 0 in Hfr.
    rewrite <- Hfr. cbn [Z.ltb Z.compare]. exists g.
    split; [reflexivity|]. split; [apply same_run_refl|].
    rewrite Z.add_0_r. reflexivity.
Qed.

Lemma mainloop_terminates_witness :
  let g := streaming V4L2_PIX_FMT_YUYV 2 in
  exists g' : globals,
    mainloop (sample_used ++ sample_rest) g = Return (g', sample_rest)
    /\ same_run g g'
    /\ to_uint (framecnt g') = to_uint (framecnt g + frame_count g).
Proof.
  intros g. apply (mainloop_terminates sample_used sample_rest g).
  - vm_compute. split; [discriminate | reflexivity].
  - vm_compute. lia.
  - repeat constructor.
  - vm_compute. reflexivity.
  - vm_compute. reflexivity.
Defined.

Lemma dump_ppm_no_progress p size tag io (g : globals) (n : nat) :
  0 < size ->
  (17 <= length (ppm_dumpname g))%nat ->
  fio_payload io = replicate n 0 ->
  exists s, dump_ppm p size tag io g = Starved s.
Proof.
  intros Hsize Hname Hpay. unfold dump_ppm.
  destruct (dump_name_defined (ppm_dumpname g) tag Hname) as (name & -> & _).
  destruct (sys_write (fio_open io) (path_of name) 0 ppm_header _ _ _)
    as [g3 off].
  rewrite Hpay, write_loop_no_progress by (lia || reflexivity).
  eexists. reflexivity.
Qed.

Lemma ready_pass_ready (i : Z) (rets : list Z) (r : Z) :
  ready_and_dequeued (ready_pass i rets r).
Proof.
  split; [reflexivity|]. eexists. split; reflexivity.
Qed.

(** C5 as stated fails.  In each of these runs with a budget of two
    frames every wait reports a ready descriptor and every dequeue
    succeeds, and [mainloop] does not come to the end of the budget:
    when [VIDIOC_QBUF] fails the process exits after one frame; when
    the dequeued index is outside the pool it stops at the [assert]
    with no frame processed; when the [write]s of the payload return 0
    it is still in [dump_ppm], however many of them there are. *)
Lemma mainloop_ready_runs_fail :
  let g := streaming V4L2_PIX_FMT_RGB24 2 in
  let good := ready_pass 0 [3] 0 in
  (Forall ready_and_dequeued [ready_pass 0 [3] (-1); good; good]
   /\ exists s,
        mainloop [ready_pass 0 [3] (-1); good; good] g
        = Exit EXIT_FAILURE (ErrnoExit "VIDIOC_QBUF" EINVAL) s
        /\ framecnt s = 1)
  /\ (Forall ready_and_dequeued [ready_pass 6 [3] 0; good; good]
      /\ mainloop [ready_pass 6 [3] 0; good; good] g = Abort g)
  /\ (forall n : nat,
        Forall ready_and_dequeued [ready_pass 0 (replicate n 0) 0; good; good]
        /\ exists s,
             mainloop [ready_pass 0 (replicate n 0) 0; good; good] g
             = Starved s).
Proof.
  intros g good.
  assert (Hready : forall a b c,
             Forall ready_and_dequeued [ready_pass a b c; good; good]).
  { intros a b c. repeat (apply Forall_cons; split; [apply ready_pass_ready|]).
    apply Forall_nil_2. }
  split; [|split].
  - split; [apply Hready|]. eexists. split; vm_compute; reflexivity.
  - split; [apply Hready|]. vm_compute. reflexivity.
  - intros n. split; [apply Hready|].
    unfold mainloop. cbn -[write_loop replicate].
    match goal with
    | |- context [dump_ppm ?p ?sz ?tag ?io ?g0] =>
        destruct (dump_ppm_no_progress p sz tag io g0 n) as [s Hs];
        [reflexivity | cbn; lia | reflexivity | rewrite Hs]
    end.
    exists s. reflexivity.
Qed.

(** The sample run ends after its second frame, the sixth pass, with
    two files written and the third frame left in the script. *)
Example sample_run_two_frames :
  exists g' : globals,
    mainloop sample_script (streaming V4L2_PIX_FMT_YUYV 2)
    = Return (g', sample_rest)
    /\ framecnt g' = 2
    /\ (map_to_list (files g')).*1
       = ["fram00000001.ppm"; "fram00000002.ppm"].
Proof.
  eexists. split; [vm_compute; reflexivity|].
  split; vm_compute; reflexivity.
Qed.

Lemma select_outcomes_witness :
  let g := streaming V4L2_PIX_FMT_YUYV 2 in
  (select_timeout = {| tv_sec := 2; tv_usec := 0 |}
   /\ EXIT_FAILURE <> 0
   /\ for_loop (wait_pass (-1) EINTR :: [wait_pass 0 (Eother 0)]) 2 g
      = for_loop [wait_pass 0 (Eother 0)] 2 g)
  /\ (select_timeout = {| tv_sec := 2; tv_usec := 0 |}
      /\ EXIT_FAILURE <> 0
      /\ for_loop (wait_pass (-1) EINVAL :: [wait_pass 0 (Eother 0)]) 2 g
         = Exit EXIT_FAILURE (ErrnoExit "select" EINVAL) g)
  /\ (select_timeout = {| tv_sec := 2; tv_usec := 0 |}
      /\ EXIT_FAILURE <> 0
      /\ for_loop (wait_pass 0 (Eother 0) :: [wait_pass 0 (Eother 0)]) 2 g
         = Exit EXIT_FAILURE (Message "select timeout") g).
Proof.
  intros g.
  pose proof (select_outcomes (wait_pass (-1) EINTR) [wait_pass 0 (Eother 0)] 2 g
                (-1) EINTR eq_refl (or_introl eq_refl)) as H1.
  pose proof (select_outcomes (wait_pass (-1) EINVAL) [wait_pass 0 (Eother 0)] 2 g
                (-1) EINVAL eq_refl (or_introl eq_refl)) as H2.
  pose proof (select_outcomes (wait_pass 0 (Eother 0)) [wait_pass 0 (Eother 0)] 2 g
                0 (Eother 0) eq_refl (or_intror eq_refl)) as H3.
  cbn [Z.eqb] in H1, H2, H3.
  exact (conj H1 (conj H2 H3)).
Defined.

Lemma dequeue_outcomes_witness :
  let g := streaming V4L2_PIX_FMT_YUYV 2 in
  (read_frame (dequeue_failure EAGAIN) g = Return (0, g)
   /\ for_loop (dequeue_failure EAGAIN :: [wait_pass 0 (Eother 0)]) 2 g
      = for_loop [wait_pass 0 (Eother 0)] 2 g)
  /\ (read_frame (dequeue_failure EIO) g = Return (0, g)
      /\ for_loop (dequeue_failure EIO :: [wait_pass 0 (Eother 0)]) 2 g
         = for_loop [wait_pass 0 (Eother 0)] 2 g)
  /\ (EINVAL <> EINTR
      /\ for_loop (dequeue_failure EINVAL :: [wait_pass 0 (Eother 0)]) 2 g
         = Exit EXIT_FAILURE (ErrnoExit "VIDIOC_DQBUF" EINVAL) g).
Proof.
  intros g.
  assert (Hr1 : 1 <> -1) by discriminate.
  assert (Hr0 : 1 <> 0) by discriminate.
  assert (Hc : 0 < 2) by reflexivity.
  pose proof (fun e =>
                dequeue_outcomes (dequeue_failure e) [wait_pass 0 (Eother 0)] 2 g
                  1 (Eother 0)
                  {| io_r := -1; io_errno := e;
                     io_arg := {| index := 0; bytesused := 0 |} |}
                  eq_refl Hr1 Hr0) as H.
  pose proof (H EAGAIN eq_refl eq_refl Hc) as H1.
  pose proof (H EIO eq_refl eq_refl Hc) as H2.
  pose proof (H EINVAL eq_refl eq_refl Hc) as H3.
  cbn [io_errno] in H1, H2, H3.
  exact (conj H1 (conj H2 H3)).
Defined.

End MainLoop.

(** ** The buffer pool *)

Section BufferPool.

(** The mapping loop ends the process when the mapping of a buffer
    fails: at that buffer, with the diagnostic of [mmap], when the
    buffers before it are mapped, and no later than that buffer in any
    case. *)
Lemma map_buffers_failure (pre : list buffer_script) :
  forall (count : Z) (g : globals) (bs : buffer_script)
         (post : list buffer_script) (e : errno),
    Forall buffer_answers pre ->
    0 <= n_buffers g ->
    n_buffers g + Z.of_nat (length pre) < count ->
    count <= 2 ^ 32 ->
    buffer_map_fails bs e ->
    exists d g',
      map_buffers (pre ++ bs :: post) count g = Exit EXIT_FAILURE d g'
      /\ (Forall (fun b => buffer_maps b = true) pre ->
          d = ErrnoExit "mmap" e).
Proof.
  induction pre as [|b pre IH];
    intros count g bs post e Hpre Hn Hlt Hcount Hbs.
  - destruct Hbs as (qb & Hq & Hr & Hm). cbn [app map_buffers].
    cbn [length] in Hlt. destruct (Z.ltb_spec (n_buffers g) count); [|lia].
    rewrite Hq. destruct (Z.eqb_spec (io_r qb) (-1)); [contradiction|].
    rewrite Hm. eexists _, _. split; [reflexivity | reflexivity].
  - apply Forall_cons in Hpre as [[qb Hb] Hpre]. cbn [app map_buffers].
    cbn [length] in Hlt. destruct (Z.ltb_spec (n_buffers g) count); [|lia].
    rewrite Hb. destruct (io_r qb =? -1) eqn:E.
    { eexists _, _. split; [reflexivity|].
      intros Hall. apply Forall_cons in Hall as [Hall _].
      unfold buffer_maps in Hall. rewrite Hb, E in Hall. discriminate. }
    destruct (bs_mmap b _ _) as [addr|e'] eqn:Hm.
    + match goal with
      | |- context [map_buffers _ count ?s] => set (g1 := s)
      end.
      assert (Hn1 : n_buffers g1 = n_buffers g + 1).
      { subst g1. cbn [n_buffers set_n_buffers set_buffers].
        unfold to_uint. apply Z.mod_small. lia. }
      destruct (IH count g1 bs post e) as (d & g' & Hrun & Hd);
        try assumption; try lia.
      exists d, g'. split; [exact Hrun|].
      intros Hall. apply Forall_cons in Hall as [_ Hall]. auto.
    + eexists _, _. split; [reflexivity|].
      intros Hall. apply Forall_cons in Hall as [Hall _].
      unfold buffer_maps in Hall. rewrite Hb, Hm in Hall.
      rewrite andb_false_r in Hall. discriminate.
Qed.

(** C8. [init_mmap] asks for 6 buffers.  The process exits with
    [EXIT_FAILURE] when the request is refused with [EINVAL] (no
    memory mapping), when fewer than 2 buffers are granted, and when
    the mapping of one of the granted buffers fails: no later than at
    that buffer, and there with the diagnostic of [mmap] when the
    buffers before it are mapped. *)
Theorem init_mmap_failures
    (s : mmap_script) (g : globals) (req : ioctl_ret Z) :
  xioctl (ms_reqbufs s 6) = Some req ->
  (io_r req = -1 ->
   io_errno req = EINVAL ->
   init_mmap s g
   = Exit EXIT_FAILURE (Message "does not support memory mapping") g)
  /\ (io_r req <> -1 ->
      io_arg req < 2 ->
      init_mmap s g
      = Exit EXIT_FAILURE (Message "Insufficient buffer memory") g)
  /\ (io_r req <> -1 ->
      2 <= io_arg req <= 2 ^ 32 ->
      ms_calloc s = true ->
      forall (pre : list buffer_script) (bs : buffer_script)
             (post : list buffer_script) (e : errno),
        ms_buffers s = pre ++ bs :: post ->
        Z.of_nat (length pre) < io_arg req ->
        Forall buffer_answers pre ->
        buffer_map_fails bs e ->
        exists d g',
          init_mmap s g = Exit EXIT_FAILURE d g'
          /\ (Forall (fun b => buffer_maps b = true) pre ->
              d = ErrnoExit "mmap" e)).
Proof.
  intros Hreq. unfold init_mmap. change requested_buffers with 6.
  rewrite Hreq. split; [|split].
  - intros -> ->. reflexivity.
  - intros Hr Hcount. destruct (Z.eqb_spec (io_r req) (-1)); [contradiction|].
    destruct (Z.ltb_spec (io_arg req) 2); [reflexivity | lia].
  - intros Hr Hcount Hcalloc pre bs post e Hbufs Hpre Hanswers Hfails.
    destruct (Z.eqb_spec (io_r req) (-1)); [contradiction|].
    destruct (Z.ltb_spec (io_arg req) 2); [lia|].
    rewrite Hcalloc, Hbufs.
    apply map_buffers_failure; try assumption;
      cbn [n_buffers set_n_buffers]; lia.
Qed.

Lemma init_mmap_failures_witness :
  let g := first_frame V4L2_PIX_FMT_YUYV in
  init_mmap (pool_script (reqbufs_answer (-1) EINVAL 6) []) g
  = Exit EXIT_FAILURE (Message "does not support memory mapping") g
  /\ init_mmap (pool_script (reqbufs_answer 0 (Eother 0) 1) [good_buffer 4096]) g
     = Exit EXIT_FAILURE (Message "Insufficient buffer memory") g
  /\ exists g',
       init_mmap
         (pool_script (reqbufs_answer 0 (Eother 0) 4)
            ([good_buffer 4096; good_buffer 8192]
             ++ unmappable_buffer (Eother 12) :: [good_buffer 12288]))
         g
       = Exit EXIT_FAILURE (ErrnoExit "mmap" (Eother 12)) g'.
Proof.
  intros g. split; [|split].
  - apply (init_mmap_failures
             (pool_script (reqbufs_answer (-1) EINVAL 6) []) g
             {| io_r := -1; io_errno := EINVAL; io_arg := 6 |});
      reflexivity.
  - apply (init_mmap_failures
             (pool_script (reqbufs_answer 0 (Eother 0) 1) [good_buffer 4096])
             g {| io_r := 0; io_errno := Eother 0; io_arg := 1 |});
      [reflexivity | discriminate | reflexivity].
  - destruct (init_mmap_failures
                (pool_script (reqbufs_answer 0 (Eother 0) 4)
                   ([good_buffer 4096; good_buffer 8192]
                    ++ unmappable_buffer (Eother 12) :: [good_buffer 12288]))
                g {| io_r := 0; io_errno := Eother 0; io_arg := 4 |}
                eq_refl) as (_ & _ & H).
    destruct (H ltac:(discriminate) ltac:(simpl; lia) eq_refl
                [good_buffer 4096; good_buffer 8192]
                (unmappable_buffer (Eother 12)) [good_buffer 12288]
                (Eother 12) eq_refl ltac:(simpl; lia))
      as (d & g' & Hrun & Hd).
    + repeat constructor; eexists; reflexivity.
    + eexists. split; [reflexivity|]. split; [discriminate | reflexivity].
    + exists g'. rewrite Hrun, Hd; [reflexivity|]. repeat constructor.
Defined.

(** With four buffers granted and mapped the pool has four buffers. *)
Example init_mmap_four_buffers :
  exists g',
    init_mmap
      (pool_script (reqbufs_answer 0 (Eother 0) 4)
         [good_buffer 4096; good_buffer 8192; good_buffer 12288;
          good_buffer 16384])
      (first_frame V4L2_PIX_FMT_YUYV)
    = Return g'
    /\ n_buffers g' = 4
    /\ buf_start <$> buffers g' = [4096; 8192; 12288; 16384].
Proof. eexists. split; [vm_compute; reflexivity|]. split; reflexivity. Qed.

End BufferPool.

(* ================================================================= *)
(** * Further properties *)

(** ** The colour transform *)

Section ColourTransform.

Lemma shiftr8_mono (a b : Z) : a <= b -> Z.shiftr a 8 <= Z.shiftr b 8.
Proof.
  intros H. rewrite !Z.shiftr_div_pow2 by lia.
  apply Z.div_le_mono; lia.
Qed.

Lemma clamp8_mono (a b : Z) : a <= b -> clamp8 a <= clamp8 b.
Proof. unfold clamp8. lia. Qed.

Lemma yuv2rgb_values (y u v : Z) :
  yuv2rgb y u v
  = (to_uchar (clamp8 (Z.shiftr (298 * (y - 16) + 409 * (v - 128) + 128) 8)),
     to_uchar (clamp8 (Z.shiftr (298 * (y - 16) - 100 * (u - 128)
                                 - 208 * (v - 128) + 128) 8)),
     to_uchar (clamp8 (Z.shiftr (298 * (y - 16) + 516 * (u - 128) + 128) 8))).
Proof.
  unfold yuv2rgb, yuv2rgb_int. cbv zeta.
  rewrite <- !clip_is_clamp8. reflexivity.
Qed.

(** X1.  With the chroma pair fixed, a brighter luma sample never gives
    a darker pixel: each of the three bytes [yuv2rgb] stores is
    monotone in the luma byte. *)
Theorem yuv2rgb_luma_monotone (y y' u v : byte) :
  uchar_val y <= uchar_val y' ->
  let '(r, g, b) := yuv2rgb (uchar_val y) (uchar_val u) (uchar_val v) in
  let '(r', g', b') := yuv2rgb (uchar_val y') (uchar_val u) (uchar_val v) in
  uchar_val r <= uchar_val r'
  /\ uchar_val g <= uchar_val g'
  /\ uchar_val b <= uchar_val b'.
Proof.
  intros Hy. rewrite !yuv2rgb_values.
  rewrite !uchar_val_to_uchar_small by apply clamp8_range.
  repeat split; apply clamp8_mono, shiftr8_mono; lia.
Qed.

Lemma yuv2rgb_luma_monotone_witness :
  let '(r, g, b) := yuv2rgb (uchar_val x51) (uchar_val x5a) (uchar_val xf0) in
  let '(r', g', b') :=
    yuv2rgb (uchar_val x91) (uchar_val x5a) (uchar_val xf0) in
  uchar_val r <= uchar_val r'
  /\ uchar_val g <= uchar_val g'
  /\ uchar_val b <= uchar_val b'.
Proof. apply (yuv2rgb_luma_monotone x51 x91 x5a xf0). cbn. lia. Defined.

(** X2.  With the neutral chroma pair (128, 128) the three bytes
    [yuv2rgb] stores are equal, a grey; a luma byte of 16 or less
    gives black and one of 235 or more gives white. *)
Theorem yuv2rgb_neutral_chroma (y : byte) :
  exists c : byte,
    yuv2rgb (uchar_val y) 128 128 = (c, c, c)
    /\ uchar_val c = clamp8 (Z.shiftr (298 * (uchar_val y - 16) + 128) 8)
    /\ (uchar_val y <= 16 -> c = x00)
    /\ (235 <= uchar_val y -> c = xff).
Proof.
  exists (to_uchar (clamp8 (Z.shiftr (298 * (uchar_val y - 16) + 128) 8))).
  split; [|split; [|split]].
  - rewrite yuv2rgb_values. repeat f_equal; lia.
  - apply uchar_val_to_uchar_small, clamp8_range.
  - intros Hy.
    assert (H : Z.shiftr (298 * (uchar_val y - 16) + 128) 8 <= Z.shiftr 128 8)
      by (apply shiftr8_mono; lia).
    change (Z.shiftr 128 8) with 0 in H.
    replace (clamp8 _) with 0 by (unfold clamp8; lia). reflexivity.
  - intros Hy.
    assert (H : Z.shiftr (298 * (235 - 16) + 128) 8
                <= Z.shiftr (298 * (uchar_val y - 16) + 128) 8)
      by (apply shiftr8_mono; lia).
    change (Z.shiftr (298 * (235 - 16) + 128) 8) with 255 in H.
    replace (clamp8 _) with 255 by (unfold clamp8; lia). reflexivity.
Qed.

End ColourTransform.


(** ** The conversion loop on sizes and buffers of any shape *)

Section ConversionBounds.

Lemma ltb_round_up (i size : Z) :
  i mod 4 = 0 -> (i <? size) = (i <? 4 * ((size + 3) / 4)).
Proof.
  intros Hi.
  destruct (Z.ltb_spec i size), (Z.ltb_spec i (4 * ((size + 3) / 4)));
    try reflexivity; Z.to_euclidean_division_equations; lia.
Qed.

Lemma yuyv_loop_round_up (fuel : nat) :
  forall (p : list byte) (size i newi : Z) (bb : array),
    i mod 4 = 0 ->
    yuyv_loop fuel p size i newi bb
    = yuyv_loop fuel p (4 * ((size + 3) / 4)) i newi bb.
Proof.
  induction fuel as [|fuel IH]; intros p size i newi bb Hi;
    cbn [yuyv_loop]; rewrite <- (ltb_round_up i size) by exact Hi;
    [reflexivity|].
  destruct (i <? size); [|reflexivity].
  destruct (load p i); [|reflexivity]. cbn [mbind option_bind].
  destruct (load p (i + 1)); [|reflexivity]. cbn [mbind option_bind].
  destruct (load p (i + 2)); [|reflexivity]. cbn [mbind option_bind].
  destruct (load p (i + 3)); [|reflexivity]. cbn [mbind option_bind].
  destruct ((0 <=? newi) && (newi + 5 <? BIGBUFFER_SIZE)); [|reflexivity].
  destruct (yuv2rgb _ _ _) as [[c1 c2] c3].
  destruct (yuv2rgb _ _ _) as [[c4 c5] c6].
  apply IH. Z.to_euclidean_division_equations; lia.
Qed.

(** X3.  The loop of [process_image] works on whole groups: for a
    [size] that is not a multiple of 4 it runs as for the next
    multiple of 4, reading up to three bytes beyond [size]. *)
Theorem convert_yuyv_rounds_size_up (p : list byte) (size : Z) (bb : array) :
  convert_yuyv p size bb = convert_yuyv p (4 * ((size + 3) / 4)) bb.
Proof.
  unfold convert_yuyv.
  rewrite (yuyv_loop_fuel (Z.to_nat size) (Z.to_nat (4 * ((size + 3) / 4))))
    by (Z.to_euclidean_division_equations; lia).
  apply yuyv_loop_round_up. reflexivity.
Qed.

Lemma load_Some_lt (p : list byte) (i : Z) (b : byte) :
  load p i = Some b -> 0 <= i < Z.of_nat (length p).
Proof.
  unfold load. destruct (Z.ltb_spec i 0) as [|Hi]; [discriminate|].
  intros Hb%lookup_lt_Some. lia.
Qed.

Lemma yuyv_loop_short_buffer (fuel : nat) :
  forall (p : list byte) (size i newi : Z) (bb : array),
    i <= Z.of_nat (length p) < size ->
    yuyv_loop fuel p size i newi bb = None.
Proof.
  induction fuel as [|fuel IH]; intros p size i newi bb Hi;
    cbn [yuyv_loop]; destruct (Z.ltb_spec i size); try lia;
    [reflexivity|].
  destruct (load p i); [|reflexivity]. cbn [mbind option_bind].
  destruct (load p (i + 1)); [|reflexivity]. cbn [mbind option_bind].
  destruct (load p (i + 2)); [|reflexivity]. cbn [mbind option_bind].
  destruct (load p (i + 3)) eqn:E3; [|reflexivity]. cbn [mbind option_bind].
  apply load_Some_lt in E3.
  destruct ((0 <=? newi) && (newi + 5 <? BIGBUFFER_SIZE)); [|reflexivity].
  destruct (yuv2rgb _ _ _) as [[c1 c2] c3].
  destruct (yuv2rgb _ _ _) as [[c4 c5] c6].
  apply IH. lia.
Qed.

(** X4.  A subsampled-422 frame needs a mapped buffer that holds
    [size] rounded up to a multiple of 4: on a shorter one the loop
    reads outside the buffer and [process_image] has no defined
    outcome. *)
Theorem process_image_short_buffer
    (p : list byte) (size : Z) (io : frame_io) (g : globals) :
  fmt_pixelformat g = V4L2_PIX_FMT_YUYV ->
  Z.of_nat (length p) < 4 * ((size + 3) / 4) ->
  convert_yuyv p size (bigbuffer g) = None
  /\ process_image p size io g = Undefined.
Proof.
  intros Hpf Hlen.
  assert (Hc : convert_yuyv p size (bigbuffer g) = None).
  { unfold convert_yuyv.
    rewrite (yuyv_loop_round_up _ p size 0 0) by reflexivity.
    apply yuyv_loop_short_buffer. lia. }
  split; [exact Hc|]. unfold process_image.
  cbn [fmt_pixelformat set_framecnt bigbuffer]. rewrite Hpf, Hc. reflexivity.
Qed.

Lemma process_image_short_buffer_witness :
  let g := first_frame V4L2_PIX_FMT_YUYV in
  convert_yuyv [x10; x80; xeb; x80; x51; x5a] 6 (bigbuffer g) = None
  /\ process_image [x10; x80; xeb; x80; x51; x5a] 6 (io_complete 9) g
     = Undefined.
Proof.
  intros g.
  apply (process_image_short_buffer [x10; x80; xeb; x80; x51; x5a] 6
           (io_complete 9) g).
  - reflexivity.
  - vm_compute. reflexivity.
Defined.

(** X5.  The scratch array bounds the frame: the conversion of [n]
    groups is defined exactly when its [6 * n] bytes fit
    [bigbuffer], that is for at most 204800 groups (409600 pixels);
    a larger frame is stored past the end of the array. *)
Theorem convert_yuyv_capacity
    (gs : list group) (rest : list byte) (g : globals) (io : frame_io) :
  (is_Some (convert_yuyv (flat_map group_bytes gs ++ rest)
              (4 * Z.of_nat (length gs)) (bigbuffer g))
   <-> Z.of_nat (length gs) <= 204800)
  /\ (fmt_pixelformat g = V4L2_PIX_FMT_YUYV ->
      204800 < Z.of_nat (length gs) ->
      process_image (flat_map group_bytes gs ++ rest)
        (4 * Z.of_nat (length gs)) io g = Undefined).
Proof.
  assert (Hcap : BIGBUFFER_SIZE = 6 * 204800) by reflexivity.
  assert (Hbig : 204800 < Z.of_nat (length gs) ->
                 convert_yuyv (flat_map group_bytes gs ++ rest)
                   (4 * Z.of_nat (length gs)) (bigbuffer g) = None).
  { intros H. apply convert_yuyv_out_of_bounds. rewrite Hcap. lia. }
  split; [split|].
  - intros [bb Hbb].
    destruct (Z.le_gt_cases (Z.of_nat (length gs)) 204800) as [|Hgt];
      [assumption|].
    rewrite Hbig in Hbb by lia. discriminate.
  - intros Hle.
    pose proof (yuyv_payload_groups gs rest (bigbuffer g)) as H.
    unfold yuyv_payload in H.
    destruct (convert_yuyv _ _ _); [eauto|].
    rewrite Hcap in H. discriminate H. lia.
  - intros Hpf Hgt. unfold process_image.
    cbn [fmt_pixelformat set_framecnt bigbuffer].
    rewrite Hpf, Hbig by exact Hgt. reflexivity.
Qed.

(** X6.  After a subsampled-422 frame of [n] groups [bigbuffer] holds
    the [6 * n] bytes of the frame and, behind them, what it held
    before: the loop clears nothing. *)
Theorem process_image_bigbuffer
    (g s : globals) (io : frame_io) (gs : list group) (rest : list byte) :
  fmt_pixelformat g = V4L2_PIX_FMT_YUYV ->
  result_state id
    (process_image (flat_map group_bytes gs ++ rest)
       (4 * Z.of_nat (length gs)) io g) = Some s ->
  array_slice (bigbuffer s) 0 (6 * Z.of_nat (length gs))
  = flat_map code_group gs
  /\ forall j, 6 * Z.of_nat (length gs) <= j -> bigbuffer s j = bigbuffer g j.
Proof.
  intros Hpf Hs. unfold process_image in Hs.
  cbn [fmt_pixelformat set_framecnt bigbuffer] in Hs. rewrite Hpf in Hs.
  destruct (Z.le_gt_cases (6 * Z.of_nat (length gs)) BIGBUFFER_SIZE)
    as [Hle|Hgt].
  - destruct (yuyv_loop_groups gs (Z.to_nat (4 * Z.of_nat (length gs)))
                [] rest 0 (bigbuffer g)) as (bb' & Hrun & Hout & Hkeep);
      [lia | lia | lia |].
    cbn [length app] in Hrun. change (Z.of_nat 0) with 0 in Hrun.
    rewrite Z.add_0_l in Hrun. fold (convert_yuyv (flat_map group_bytes gs ++ rest)
      (4 * Z.of_nat (length gs)) (bigbuffer g)) in Hrun.
    rewrite Hrun in Hs.
    destruct (fits_int (4 * Z.of_nat (length gs) * 6)); [|discriminate Hs].
    apply dump_ppm_same_run in Hs. destruct Hs as (_ & _ & Hbb).
    cbn [bigbuffer set_bigbuffer] in Hbb. rewrite Hbb.
    split; [exact Hout|]. intros j Hj. apply Hkeep. lia.
  - rewrite convert_yuyv_out_of_bounds in Hs by exact Hgt. discriminate Hs.
Qed.

Lemma process_image_bigbuffer_witness :
  let g := first_frame V4L2_PIX_FMT_YUYV in
  let gs := [(x10, x80, xeb, x80); (x51, x5a, x51, xf0)] in
  let s :=
    set_files
      {[ "fram00000001.ppm" := ppm_header ++ flat_map code_group gs ]}
      (set_ppm_dumpname
         (list_byte_of_string "fram00000001.ppm" ++ [x00]
          ++ list_byte_of_string "00.ppm" ++ [x00])
         (set_bigbuffer
            (default (fun _ => x00)
               (convert_yuyv (flat_map group_bytes gs ++ []) 8 (fun _ => x00)))
            (set_framecnt 1 g))) in
  array_slice (bigbuffer s) 0 (6 * Z.of_nat (length gs))
  = flat_map code_group gs
  /\ forall j, 6 * Z.of_nat (length gs) <= j -> bigbuffer s j = bigbuffer g j.
Proof.
  intros g gs s.
  apply (process_image_bigbuffer g s (io_complete 12) gs []).
  - reflexivity.
  - vm_compute. reflexivity.
Defined.

End ConversionBounds.


(** ** What [dump_ppm] leaves in the file system *)

Section FileContents.

Lemma fits_int_true (z : Z) : - 2 ^ 31 <= z < 2 ^ 31 -> fits_int z = true.
Proof. apply fits_int_iff. Qed.

Lemma set_files_id (g : globals) : set_files (files g) g = g.
Proof. destruct g. reflexivity. Qed.

Lemma set_files_twice (x y : gmap string (list byte)) (g : globals) :
  set_files x (set_files y g) = set_files x g.
Proof. reflexivity. Qed.

Lemma sys_open_created (path : string) (fd0 : Z) (g : globals) :
  fd0 <> -1 ->
  sys_open path fd0 g
  = set_files (<[path := default [] (files g !! path)]> (files g)) g.
Proof.
  intros Hfd. unfold sys_open.
  destruct (Z.eqb_spec fd0 (-1)) as [|_]; [contradiction|].
  destruct (files g !! path) as [c|] eqn:E; cbn [default]; [|reflexivity].
  rewrite insert_id by exact E. symmetry. apply set_files_id.
Qed.

Lemma overwrite_nil (content : list byte) (off : nat) :
  overwrite content off [] = content.
Proof.
  unfold overwrite. cbn [app length]. rewrite Nat.add_0_r.
  apply take_drop.
Qed.

Lemma sys_write_at (fd0 : Z) (path : string) (off : nat) (p : list byte)
    (count ret : Z) (g : globals) (c : list byte) :
  fd0 <> -1 ->
  files g !! path = Some c ->
  sys_write fd0 path off p count ret g
  = (set_files
       (<[path := overwrite c off
                    (take (Z.to_nat ret) (take (Z.to_nat count) p))]>
          (files g)) g,
     (off + length (take (Z.to_nat ret) (take (Z.to_nat count) p)))%nat).
Proof.
  intros Hfd Hc. unfold sys_write.
  destruct (Z.eqb_spec fd0 (-1)) as [|_]; [contradiction|].
  destruct (Z.leb_spec ret 0) as [Hle|Hgt]; cbn [orb].
  - replace (Z.to_nat ret) with 0%nat by lia. cbn [take length].
    rewrite overwrite_nil, Nat.add_0_r, insert_id by exact Hc.
    rewrite set_files_id. reflexivity.
  - rewrite Hc. reflexivity.
Qed.

Lemma sys_write_closed (path : string) (off : nat) (p : list byte)
    (count ret : Z) (g : globals) :
  sys_write (-1) path off p count ret g = (g, off).
Proof. reflexivity. Qed.

Lemma take_whole (p : list byte) :
  take (Z.to_nat (Z.of_nat (length p))) p = p.
Proof. rewrite Nat2Z.id. apply firstn_all. Qed.

Lemma loop_ends_at_size (used : list Z) :
  forall w size total, loop_ends_at used w size total -> size < 2 ^ 31.
Proof.
  induction used as [|x used IH]; intros w size total H;
    cbn [loop_ends_at] in H; [lia|].
  destruct H as [_ H]. exact (IH _ _ _ H).
Qed.

Lemma write_loop_contents (used : list Z) :
  forall (w : Z) (rest : list Z) (fd0 : Z) (path : string) (c p : list byte)
         (total : Z) (g : globals),
    fd0 <> -1 ->
    files g !! path = Some c ->
    - 2 ^ 31 <= total ->
    loop_ends_at used w (Z.of_nat (length p)) total ->
    exists t,
      write_loop (used ++ w :: rest) fd0 path (length c) p
        (Z.of_nat (length p)) total g
      = Return (t,
                set_files
                  (<[path := c ++ written_bytes p (used ++ [w])]> (files g))
                  g).
Proof.
  induction used as [|x used IH];
    intros w rest fd0 path c p total g Hfd Hc Htot Hend;
    cbn [app write_loop loop_ends_at] in *.
  - rewrite (sys_write_at _ _ _ _ _ _ _ c) by assumption.
    rewrite take_whole.
    rewrite (fits_int_true (total + w)) by lia.
    destruct (Z.ltb_spec (total + w) (Z.of_nat (length p))); [lia|].
    eexists. rewrite overwrite_end. unfold written_bytes.
    cbn [flat_map]. rewrite app_nil_r. reflexivity.
  - destruct Hend as [Hx Hend].
    pose proof (loop_ends_at_size _ _ _ _ Hend) as Hsize.
    rewrite (sys_write_at _ _ _ _ _ _ _ c) by assumption.
    rewrite take_whole.
    rewrite (fits_int_true (total + x)) by lia.
    destruct (Z.ltb_spec (total + x) (Z.of_nat (length p))); [|lia].
    rewrite overwrite_end, <- length_app.
    destruct (IH w rest fd0 path (c ++ take (Z.to_nat x) p) p (total + x)
                (set_files (<[path := c ++ take (Z.to_nat x) p]> (files g)) g))
      as [t Ht]; [exact Hfd | apply lookup_insert_eq | lia | exact Hend |].
    exists t. rewrite Ht. cbn [files set_files]. rewrite insert_insert_eq.
    unfold written_bytes. cbn [flat_map app]. rewrite app_assoc. reflexivity.
Qed.

(** X7.  The file of a frame, in general.  Into a new file, after a
    complete header, every [write] of the loop of [dump_ppm] appends
    the first [written] bytes of the payload, starting again at the
    first byte each time: the file is the header followed by these
    pieces, for all the writes up to the one at which the total of
    the return values reaches [size].  A failed write adds nothing to
    the file and takes one off the total. *)
Theorem dump_ppm_contents
    (p : list byte) (tag : Z) (io : frame_io) (g : globals)
    (name : list byte) (used : list Z) (w : Z) (rest : list Z) :
  dump_name (ppm_dumpname g) tag = Some name ->
  files g !! path_of name = None ->
  fio_open io <> -1 ->
  fio_header io = Z.of_nat (length ppm_header) ->
  fio_payload io = used ++ w :: rest ->
  loop_ends_at used w (Z.of_nat (length p)) 0 ->
  dump_ppm p (Z.of_nat (length p)) tag io g
  = Return (set_files
              (<[path_of name
                 := ppm_header ++ written_bytes p (used ++ [w])]> (files g))
              (set_ppm_dumpname name g)).
Proof.
  intros Hname Hfresh Hfd Hhdr Hpay Hend. unfold dump_ppm.
  rewrite Hname, Hpay, Hhdr, sys_open_created by exact Hfd.
  cbn [files set_ppm_dumpname]. rewrite Hfresh. cbn [default].
  rewrite (sys_write_at _ _ _ _ _ _ _ []);
    [|exact Hfd | apply lookup_insert_eq].
  rewrite !take_whole. cbn [files set_files]. rewrite insert_insert_eq.
  change (overwrite [] 0 ppm_header) with ppm_header.
  change (0 + length ppm_header)%nat with (length ppm_header).
  destruct (write_loop_contents used w rest (fio_open io) (path_of name)
              ppm_header p 0
              (set_files (<[path_of name := ppm_header]> (files g))
                 (set_ppm_dumpname name g)))
    as [t Ht]; [exact Hfd | apply lookup_insert_eq | lia | exact Hend |].
  rewrite set_files_twice, Ht. cbn [mbind result_bind files set_files].
  rewrite insert_insert_eq. reflexivity.
Qed.

Lemma dump_ppm_contents_witness :
  let g := first_frame V4L2_PIX_FMT_RGB24 in
  let p := [x01; x02; x03; x04] in
  let name :=
    list_byte_of_string "fram00000001.ppm" ++ [x00]
    ++ list_byte_of_string "00.ppm" ++ [x00] in
  dump_ppm p (Z.of_nat (length p)) 1
    {| fio_open := 3; fio_header := 48; fio_payload := [-1; 4] ++ 2 :: [4] |} g
  = Return (set_files
              (<[path_of name
                 := ppm_header ++ written_bytes p ([-1; 4] ++ [2])]> (files g))
              (set_ppm_dumpname name g)).
Proof.
  intros g p name.
  apply (dump_ppm_contents p 1 _ g name [-1; 4] 2 [4]).
  - vm_compute. reflexivity.
  - apply lookup_empty.
  - cbn. discriminate.
  - reflexivity.
  - reflexivity.
  - cbn. lia.
Defined.

End FileContents.


(** ** Calls of [dump_ppm] that nothing checks *)

Section Unchecked.

Lemma dump_ppm_one_write
    (p : list byte) (tag : Z) (io : frame_io) (g : globals)
    (name : list byte) (more : list Z) :
  dump_name (ppm_dumpname g) tag = Some name ->
  fio_open io <> -1 ->
  fio_payload io = Z.of_nat (length p) :: more ->
  Z.of_nat (length p) < 2 ^ 31 ->
  let old := default [] (files g !! path_of name) in
  let hd := take (Z.to_nat (fio_header io)) ppm_header in
  dump_ppm p (Z.of_nat (length p)) tag io g
  = Return (set_files
              (<[path_of name
                 := overwrite (overwrite old 0 hd) (length hd) p]> (files g))
              (set_ppm_dumpname name g)).
Proof.
  intros Hname Hfd Hpay Hint old hd. unfold dump_ppm.
  rewrite Hname, Hpay, sys_open_created by exact Hfd.
  cbn [files set_ppm_dumpname]. fold old.
  rewrite (sys_write_at _ _ _ _ _ _ _ old);
    [|exact Hfd | apply lookup_insert_eq].
  rewrite take_whole. fold hd. cbn [files set_files].
  rewrite insert_insert_eq, set_files_twice. cbn [write_loop].
  rewrite (sys_write_at _ _ _ _ _ _ _ (overwrite old 0 hd));
    [|exact Hfd | apply lookup_insert_eq].
  rewrite !take_whole, Z.add_0_l, fits_int_true by lia.
  rewrite Z.ltb_irrefl. cbn [mbind result_bind files set_files].
  rewrite insert_insert_eq, set_files_twice. reflexivity.
Qed.

Lemma overwrite_start (old h : list byte) :
  overwrite old 0 h = h ++ drop (length h) old.
Proof. unfold overwrite. rewrite take_0. reflexivity. Qed.

Lemma overwrite_behind (h t p : list byte) :
  overwrite (h ++ t) (length h) p = h ++ p ++ drop (length p) t.
Proof.
  unfold overwrite. rewrite take_app_length, <- drop_drop, drop_app_length.
  reflexivity.
Qed.

(** X8.  [dump_ppm] opens its file without truncating it: when the
    file is there already, the header and the payload are written over
    its first bytes, and what it held beyond them stays. *)
Theorem dump_ppm_keeps_old_tail
    (p : list byte) (tag : Z) (io : frame_io) (g : globals)
    (name old : list byte) (more : list Z) :
  dump_name (ppm_dumpname g) tag = Some name ->
  files g !! path_of name = Some old ->
  fio_open io <> -1 ->
  fio_header io = Z.of_nat (length ppm_header) ->
  fio_payload io = Z.of_nat (length p) :: more ->
  Z.of_nat (length p) < 2 ^ 31 ->
  dump_ppm p (Z.of_nat (length p)) tag io g
  = Return (set_files
              (<[path_of name
                 := ppm_header ++ p
                    ++ drop (length ppm_header + length p) old]> (files g))
              (set_ppm_dumpname name g)).
Proof.
  intros Hname Hold Hfd Hhdr Hpay Hint.
  rewrite (dump_ppm_one_write p tag io g name more) by assumption.
  rewrite Hold, Hhdr, take_whole. change (default [] (Some old)) with old.
  rewrite overwrite_start, overwrite_behind, drop_drop. reflexivity.
Qed.

Lemma dump_ppm_keeps_old_tail_witness :
  let old := replicate 48 x2a ++ [x0a; x0b; x0c; x0d; x0e] in
  let g :=
    set_files {[ "fram00000001.ppm" := old ]} (first_frame V4L2_PIX_FMT_RGB24) in
  let p := [x01; x02; x03] in
  let name :=
    list_byte_of_string "fram00000001.ppm" ++ [x00]
    ++ list_byte_of_string "00.ppm" ++ [x00] in
  dump_ppm p (Z.of_nat (length p)) 1 (io_complete 3) g
  = Return (set_files
              (<[path_of name
                 := ppm_header ++ p
                    ++ drop (length ppm_header + length p) old]> (files g))
              (set_ppm_dumpname name g)).
Proof.
  intros old g p name.
  apply (dump_ppm_keeps_old_tail p 1 (io_complete 3) g name old []).
  - vm_compute. reflexivity.
  - apply lookup_singleton_eq.
  - cbn. discriminate.
  - reflexivity.
  - reflexivity.
  - cbn. lia.
Defined.

(** X9.  The return value of the [write] of the header is not
    looked at: when that call writes only [h] bytes, or fails, the
    payload follows the part of the header that was written, and the
    call returns as after a complete header. *)
Theorem dump_ppm_header_unchecked
    (p : list byte) (tag : Z) (io : frame_io) (g : globals)
    (name : list byte) (more : list Z) :
  dump_name (ppm_dumpname g) tag = Some name ->
  files g !! path_of name = None ->
  fio_open io <> -1 ->
  fio_payload io = Z.of_nat (length p) :: more ->
  Z.of_nat (length p) < 2 ^ 31 ->
  dump_ppm p (Z.of_nat (length p)) tag io g
  = Return (set_files
              (<[path_of name
                 := take (Z.to_nat (fio_header io)) ppm_header ++ p]>
                 (files g))
              (set_ppm_dumpname name g)).
Proof.
  intros Hname Hfresh Hfd Hpay Hint.
  rewrite (dump_ppm_one_write p tag io g name more) by assumption.
  rewrite Hfresh. change (default [] None) with (@nil byte).
  rewrite overwrite_start, drop_nil, app_nil_r, overwrite_end. reflexivity.
Qed.

Lemma dump_ppm_header_unchecked_witness :
  let g := first_frame V4L2_PIX_FMT_RGB24 in
  let p := [x01; x02; x03] in
  let io := {| fio_open := 3; fio_header := 10; fio_payload := [3] |} in
  let name :=
    list_byte_of_string "fram00000001.ppm" ++ [x00]
    ++ list_byte_of_string "00.ppm" ++ [x00] in
  dump_ppm p (Z.of_nat (length p)) 1 io g
  = Return (set_files
              (<[path_of name
                 := take (Z.to_nat (fio_header io)) ppm_header ++ p]>
                 (files g))
              (set_ppm_dumpname name g)).
Proof.
  intros g p io name.
  apply (dump_ppm_header_unchecked p 1 io g name []).
  - vm_compute. reflexivity.
  - apply lookup_empty.
  - cbn. discriminate.
  - reflexivity.
  - cbn. lia.
Defined.

Lemma write_loop_closed (n : nat) :
  forall (path : string) (off : nat) (p : list byte) (size total : Z)
         (g : globals),
    - 2 ^ 31 <= total <= 0 ->
    0 < size ->
    write_loop (replicate n (-1)) (-1) path off p size total g
    = if Z.of_nat n <=? total + 2 ^ 31 then Starved g else Undefined.
Proof.
  induction n as [|n IH]; intros path off p size total g Htot Hsize.
  - cbn [replicate write_loop].
    destruct (Z.leb_spec (Z.of_nat 0) (total + 2 ^ 31)); [reflexivity|lia].
  - cbn [replicate write_loop]. rewrite sys_write_closed.
    destruct (fits_int (total + -1)) eqn:Hfit.
    + apply fits_int_iff in Hfit.
      destruct (Z.ltb_spec (total + -1) size); [|lia].
      rewrite IH by lia.
      destruct (Z.leb_spec (Z.of_nat n) (total + -1 + 2 ^ 31)),
        (Z.leb_spec (Z.of_nat (S n)) (total + 2 ^ 31));
        try reflexivity; lia.
    + destruct (Z.leb_spec (Z.of_nat (S n)) (total + 2 ^ 31));
        [|reflexivity].
      assert (fits_int (total + -1) = true) by (apply fits_int_true; lia).
      congruence.
Qed.

(** X10.  The descriptor [open] returns is not tested.  When [open]
    fails, every [write] fails and takes one off [total], which never
    reaches [size]: the loop of [dump_ppm] goes on as long as the
    writes are answered, no file is made or changed, and after more
    than [2^31] writes [total] leaves the range of [int]. *)
Theorem dump_ppm_open_failure
    (p : list byte) (size tag : Z) (io : frame_io) (g : globals)
    (name : list byte) (n : nat) :
  dump_name (ppm_dumpname g) tag = Some name ->
  fio_open io = -1 ->
  fio_payload io = replicate n (-1) ->
  0 < size ->
  dump_ppm p size tag io g
  = if Z.of_nat n <=? 2 ^ 31 then Starved (set_ppm_dumpname name g)
    else Undefined.
Proof.
  intros Hname Hfd Hpay Hsize. unfold dump_ppm.
  rewrite Hname, Hpay, Hfd. unfold sys_open.
  change (-1 =? -1) with true. cbv iota. rewrite sys_write_closed.
  rewrite write_loop_closed by lia. rewrite Z.add_0_l.
  destruct (Z.of_nat n <=? 2 ^ 31); reflexivity.
Qed.

Lemma dump_ppm_open_failure_witness :
  let g := first_frame V4L2_PIX_FMT_RGB24 in
  let name :=
    list_byte_of_string "fram00000001.ppm" ++ [x00]
    ++ list_byte_of_string "00.ppm" ++ [x00] in
  dump_ppm [x01; x02; x03] 3 1
    {| fio_open := -1; fio_header := -1; fio_payload := replicate 5 (-1) |} g
  = if Z.of_nat 5 <=? 2 ^ 31 then Starved (set_ppm_dumpname name g)
    else Undefined.
Proof.
  intros g name.
  apply (dump_ppm_open_failure [x01; x02; x03] 3 1 _ g name 5).
  - vm_compute. reflexivity.
  - reflexivity.
  - reflexivity.
  - lia.
Defined.

End Unchecked.


(** ** The files a frame does not touch *)

Section OtherFiles.

Lemma only_file_refl (path : string) (g : globals) : only_file path g g.
Proof. split; auto. Qed.

Lemma only_file_trans (path : string) (g1 g2 g3 : globals) :
  only_file path g1 g2 -> only_file path g2 g3 -> only_file path g1 g3.
Proof.
  intros [H1 K1] [H2 K2]. split; [|auto].
  intros q Hq. rewrite H2, H1 by exact Hq. reflexivity.
Qed.

Lemma only_file_insert (path : string) (c : list byte) (g : globals) :
  only_file path g (set_files (<[path := c]> (files g)) g).
Proof.
  split; cbn [files set_files].
  - intros q Hq. apply lookup_insert_ne. congruence.
  - intros _. rewrite lookup_insert_eq. eauto.
Qed.

Lemma sys_open_only_file (path : string) (fd0 : Z) (g : globals) :
  only_file path g (sys_open path fd0 g).
Proof.
  unfold sys_open. destruct (fd0 =? -1); [apply only_file_refl|].
  destruct (files g !! path); [apply only_file_refl|].
  apply only_file_insert.
Qed.

Lemma sys_write_only_file fd0 path off p count ret (g : globals) :
  only_file path g (sys_write fd0 path off p count ret g).1.
Proof.
  unfold sys_write. destruct ((fd0 =? -1) || (ret <=? 0)); cbn [fst];
    [apply only_file_refl | apply only_file_insert].
Qed.

Lemma write_loop_only_file (rets : list Z) :
  forall dumpfd path off p size total (g s : globals),
    result_state snd (write_loop rets dumpfd path off p size total g) = Some s ->
    only_file path g s.
Proof.
  induction rets as [|w rets IH]; intros dumpfd path off p size total g s.
  - simpl. intros [= <-]. apply only_file_refl.
  - cbn [write_loop].
    pose proof (sys_write_only_file dumpfd path off p size w g) as Hw.
    destruct (sys_write dumpfd path off p size w g) as [g1 off1].
    simpl in Hw. destruct (fits_int (total + w)); [|discriminate].
    destruct (total + w <? size).
    + intros Hs. apply IH in Hs. eapply only_file_trans; eassumption.
    + simpl. intros [= <-]. exact Hw.
Qed.

Lemma sys_open_is_Some (path : string) (fd0 : Z) (g : globals) :
  fd0 <> -1 -> is_Some (files (sys_open path fd0 g) !! path).
Proof.
  intros Hfd. rewrite sys_open_created by exact Hfd. cbn [files set_files].
  rewrite lookup_insert_eq. eauto.
Qed.

Lemma dump_ppm_only_file p size tag io (g s : globals) (name : list byte) :
  dump_name (ppm_dumpname g) tag = Some name ->
  result_state id (dump_ppm p size tag io g) = Some s ->
  only_file (path_of name) g s
  /\ (fio_open io <> -1 -> is_Some (files s !! path_of name)).
Proof.
  intros Hname. unfold dump_ppm. rewrite Hname.
  set (g1 := set_ppm_dumpname name g).
  pose proof (sys_open_only_file (path_of name) (fio_open io) g1) as Ho.
  pose proof (sys_open_is_Some (path_of name) (fio_open io) g1) as Hc.
  set (g2 := sys_open (path_of name) (fio_open io) g1) in *.
  pose proof (sys_write_only_file (fio_open io) (path_of name) 0 ppm_header
                (Z.of_nat (length ppm_header)) (fio_header io) g2) as Hh.
  destruct (sys_write (fio_open io) (path_of name) 0 ppm_header _ _ g2)
    as [g3 off]. simpl in Hh.
  pose proof (write_loop_only_file (fio_payload io) (fio_open io)
                (path_of name) off p size 0 g3) as Hl.
  assert (Hall : forall s', only_file (path_of name) g3 s' ->
                   only_file (path_of name) g s'
                   /\ (fio_open io <> -1 -> is_Some (files s' !! path_of name))).
  { intros s' Hs'.
    assert (H13 : only_file (path_of name) g1 s')
      by (eapply only_file_trans; [exact Ho|];
          eapply only_file_trans; eassumption).
    split; [exact H13|].
    intros Hfd. apply Hs', Hh, Hc, Hfd. }
  destruct (write_loop (fio_payload io) (fio_open io) (path_of name) off p
              size 0 g3) as [[t g4]| | | |]; simpl in *;
    intros [= <-]; apply Hall, Hl; reflexivity.
Qed.

(** X11.  A frame touches one file only.  Whatever way
    [process_image] ends, no file is removed, and every file other
    than the one the frame number names is left as it was; with a pixel
    format that is neither of the two the program knows, no file
    changes at all. *)
Theorem process_image_one_file
    (p : list byte) (size : Z) (io : frame_io) (g s : globals) :
  result_state id (process_image p size io g) = Some s ->
  (forall q, is_Some (files g !! q) -> is_Some (files s !! q))
  /\ (forall name q,
        dump_name (ppm_dumpname g) (to_uint (framecnt g + 1)) = Some name ->
        q <> path_of name ->
        files s !! q = files g !! q)
  /\ (forall fourcc, fmt_pixelformat g = PixOther fourcc -> files s = files g).
Proof.
  unfold process_image. cbn [fmt_pixelformat set_framecnt bigbuffer].
  intros Hs.
  assert (Hdump : forall p' size' g1,
             files g1 = files g -> ppm_dumpname g1 = ppm_dumpname g ->
             result_state id
               (dump_ppm p' size' (to_uint (framecnt g + 1)) io g1) = Some s ->
             (forall q, is_Some (files g !! q) -> is_Some (files s !! q))
             /\ (forall name q,
                   dump_name (ppm_dumpname g) (to_uint (framecnt g + 1))
                   = Some name ->
                   q <> path_of name ->
                   files s !! q = files g !! q)).
  { intros p' size' g1 Hf Hn Hd.
    destruct (dump_ppm_shape _ _ _ _ _ _ Hd) as (name & fs & Hname & _).
    destruct (dump_ppm_only_file _ _ _ _ _ _ name Hname Hd) as [[Ho Hk] _].
    rewrite Hf in Ho, Hk. rewrite Hn in Hname. split.
    - intros q Hq. destruct (decide (q = path_of name)) as [->|Hne];
        [auto | rewrite Ho by exact Hne; exact Hq].
    - intros name' q Hname' Hq. rewrite Hname in Hname'.
      injection Hname' as <-. apply Ho, Hq. }
  destruct (fmt_pixelformat g) as [| |fourcc] eqn:Hpf.
  - destruct (convert_yuyv p size (bigbuffer g)) as [bb|]; [|discriminate].
    destruct (fits_int (size * 6)); [|discriminate].
    cbv zeta in Hs. cbn [framecnt set_bigbuffer set_framecnt] in Hs.
    apply Hdump in Hs as [H1 H2]; [|reflexivity..].
    split; [exact H1|]. split; [exact H2|]. discriminate.
  - cbn [framecnt set_framecnt] in Hs.
    apply Hdump in Hs as [H1 H2]; [|reflexivity..].
    split; [exact H1|]. split; [exact H2|]. discriminate.
  - injection Hs as <-. cbn [files set_framecnt]. auto.
Qed.

Lemma process_image_one_file_witness :
  let g :=
    set_files {[ "notes.txt" := [x41; x42] ]}
      (first_frame V4L2_PIX_FMT_RGB24) in
  let s :=
    set_files
      (<[ "fram00000001.ppm" := ppm_header ++ [x01; x02; x03] ]> (files g))
      (set_ppm_dumpname
         (list_byte_of_string "fram00000001.ppm" ++ [x00]
          ++ list_byte_of_string "00.ppm" ++ [x00])
         (set_framecnt 1 g)) in
  (forall q, is_Some (files g !! q) -> is_Some (files s !! q))
  /\ (forall name q,
        dump_name (ppm_dumpname g) (to_uint (framecnt g + 1)) = Some name ->
        q <> path_of name ->
        files s !! q = files g !! q)
  /\ (forall fourcc, fmt_pixelformat g = PixOther fourcc -> files s = files g).
Proof.
  intros g s.
  apply (process_image_one_file [x01; x02; x03] 3 (io_complete 3) g s).
  vm_compute. reflexivity.
Defined.

(** X12.  An empty frame is a frame: with [size] 0 and a pixel format
    the program knows, [process_image] counts the frame and leaves a
    new file that holds the 48 bytes of the header and nothing else. *)
Theorem process_image_empty_frame
    (p : list byte) (io : frame_io) (g : globals) (name : list byte)
    (more : list Z) :
  fmt_pixelformat g = V4L2_PIX_FMT_YUYV
  \/ fmt_pixelformat g = V4L2_PIX_FMT_RGB24 ->
  dump_name (ppm_dumpname g) (to_uint (framecnt g + 1)) = Some name ->
  files g !! path_of name = None ->
  fio_open io <> -1 ->
  fio_header io = Z.of_nat (length ppm_header) ->
  fio_payload io = 0 :: more ->
  exists s : globals,
    process_image p 0 io g = Return s
    /\ files s !! path_of name = Some ppm_header
    /\ length ppm_header = 48%nat
    /\ framecnt s = to_uint (framecnt g + 1).
Proof.
  intros Hpf Hname Hfresh Hfd Hhdr Hpay. unfold process_image.
  cbn [fmt_pixelformat set_framecnt bigbuffer framecnt].
  assert (Hd : forall g1,
             files g1 = files g -> ppm_dumpname g1 = ppm_dumpname g ->
             dump_ppm [] 0 (to_uint (framecnt g + 1)) io g1
             = Return (set_files (<[path_of name := ppm_header ++ []]>
                                    (files g1))
                         (set_ppm_dumpname name g1))).
  { intros g1 Hf Hn.
    apply (dump_ppm_complete [] 0 _ io g1 name more); try assumption;
      try reflexivity; [rewrite Hn | rewrite Hf]; assumption. }
  destruct Hpf as [-> | ->].
  - change (convert_yuyv p 0 (bigbuffer g)) with (Some (bigbuffer g)).
    change (fits_int (0 * 6)) with true.
    cbv zeta iota. cbn [framecnt set_bigbuffer set_framecnt].
    change (array_slice (bigbuffer g) 0 (Z.quot (0 * 6) 4)) with (@nil byte).
    change (Z.quot (0 * 6) 4) with 0.
    rewrite Hd by reflexivity. eexists. split; [reflexivity|].
    cbn [files set_files framecnt set_ppm_dumpname set_bigbuffer set_framecnt].
    rewrite lookup_insert_eq, app_nil_r. auto.
  - change (take (Z.to_nat 0) p) with (@nil byte).
    rewrite Hd by reflexivity. eexists. split; [reflexivity|].
    cbn [files set_files framecnt set_ppm_dumpname set_framecnt].
    rewrite lookup_insert_eq, app_nil_r. auto.
Qed.

Lemma process_image_empty_frame_witness :
  let g := first_frame V4L2_PIX_FMT_YUYV in
  let name :=
    list_byte_of_string "fram00000001.ppm" ++ [x00]
    ++ list_byte_of_string "00.ppm" ++ [x00] in
  exists s : globals,
    process_image [x10; x80; xeb; x80] 0 (io_complete 0) g = Return s
    /\ files s !! path_of name = Some ppm_header
    /\ length ppm_header = 48%nat
    /\ framecnt s = to_uint (framecnt g + 1).
Proof.
  intros g name.
  apply (process_image_empty_frame [x10; x80; xeb; x80] (io_complete 0) g
           name []).
  - left. reflexivity.
  - vm_compute. reflexivity.
  - apply lookup_empty.
  - cbn. discriminate.
  - reflexivity.
  - reflexivity.
Defined.

End OtherFiles.


(** ** The names of the frames *)

Section FrameNames.

Lemma zero_padded_inj (k : nat) :
  forall a b : Z,
    zero_padded k a = zero_padded k b ->
    a mod 10 ^ Z.of_nat k = b mod 10 ^ Z.of_nat k.
Proof.
  induction k as [|k IH]; intros a b H.
  - change (10 ^ Z.of_nat 0) with 1. rewrite !Z.mod_1_r. reflexivity.
  - cbn [zero_padded] in H. apply app_inj_tail in H as [Hq Hd].
    apply IH in Hq. apply (f_equal uchar_val) in Hd.
    pose proof (Z.mod_pos_bound a 10 ltac:(lia)).
    pose proof (Z.mod_pos_bound b 10 ltac:(lia)).
    rewrite !uchar_val_to_uchar_small in Hd by lia.
    replace (Z.of_nat (S k)) with (1 + Z.of_nat k) by lia.
    rewrite Z.pow_add_r, Z.pow_1_r by lia.
    rewrite !Z.rem_mul_r by lia. lia.
Qed.

Lemma path_of_inj (a b : list byte) :
  string_of_list_byte a = string_of_list_byte b -> a = b.
Proof.
  intros H. apply (f_equal list_byte_of_string) in H.
  rewrite !list_byte_of_string_of_list_byte in H. exact H.
Qed.

(** X13.  While the frame number is below [10^8], two frames never
    share a file: from name arrays that start with the same four
    characters, different frame numbers give different paths. *)
Theorem frame_paths_distinct
    (name1 name2 n1 n2 : list byte) (t1 t2 : Z) :
  (17 <= length name1)%nat ->
  (17 <= length name2)%nat ->
  take 4 name1 = take 4 name2 ->
  Forall (fun c => c <> x00) (take 4 name1) ->
  0 <= t1 < 10 ^ 8 ->
  0 <= t2 < 10 ^ 8 ->
  dump_name name1 t1 = Some n1 ->
  dump_name name2 t2 = Some n2 ->
  t1 <> t2 ->
  path_of n1 <> path_of n2.
Proof.
  intros Hl1 Hl2 Hpre Hnul Ht1 Ht2 Hn1 Hn2 Hne Hpath.
  destruct (dump_name_path name1 t1) as (n1' & Hn1' & Hc1 & _);
    try assumption.
  destruct (dump_name_path name2 t2) as (n2' & Hn2' & Hc2 & _);
    try assumption; [rewrite <- Hpre; exact Hnul|].
  rewrite Hn1 in Hn1'. injection Hn1' as <-.
  rewrite Hn2 in Hn2'. injection Hn2' as <-.
  unfold path_of in Hpath. apply path_of_inj in Hpath.
  rewrite Hc1, Hc2, Hpre in Hpath.
  apply app_inv_head, app_inv_tail, (zero_padded_inj 8) in Hpath.
  change (Z.of_nat 8) with 8 in Hpath.
  rewrite !Z.mod_small in Hpath by assumption. contradiction.
Qed.

Lemma frame_paths_distinct_witness :
  let name1 := ppm_dumpname_init in
  let name2 :=
    list_byte_of_string "fram00000001.ppm" ++ [x00]
    ++ list_byte_of_string "00.ppm" ++ [x00] in
  let n2 :=
    list_byte_of_string "fram00000002.ppm" ++ [x00]
    ++ list_byte_of_string "00.ppm" ++ [x00] in
  path_of name2 <> path_of n2.
Proof.
  intros name1 name2 n2.
  apply (frame_paths_distinct name1 name2 name2 n2 1 2).
  - cbn. lia.
  - cbn. lia.
  - reflexivity.
  - repeat constructor; discriminate.
  - lia.
  - lia.
  - vm_compute. reflexivity.
  - vm_compute. reflexivity.
  - lia.
Defined.

Lemma pow10_S (k : nat) : 10 ^ Z.of_nat (S k) = 10 * 10 ^ Z.of_nat k.
Proof.
  replace (Z.of_nat (S k)) with (1 + Z.of_nat k) by lia.
  rewrite Z.pow_add_r, Z.pow_1_r by lia. reflexivity.
Qed.

Lemma decimal_exact (k : nat) :
  forall (fuel : nat) (n : Z),
    (S k <= fuel)%nat ->
    10 ^ Z.of_nat k <= n < 10 ^ Z.of_nat (S k) ->
    decimal fuel n = zero_padded (S k) n.
Proof.
  induction k as [|k IH]; intros fuel n Hfuel Hn;
    (destruct fuel as [|fuel]; [lia|]); cbn [decimal].
  - change (10 ^ Z.of_nat 0) with 1 in Hn.
    change (10 ^ Z.of_nat 1) with 10 in Hn.
    destruct (Z.ltb_spec n 10); [|lia].
    cbn [zero_padded app]. rewrite Z.mod_small by lia. reflexivity.
  - rewrite (pow10_S (S k)) in Hn. rewrite (pow10_S k) in Hn.
    assert (0 < 10 ^ Z.of_nat k) by (apply Z.pow_pos_nonneg; lia).
    destruct (Z.ltb_spec n 10); [lia|].
    rewrite (IH fuel (n / 10)); [reflexivity | lia |].
    rewrite (pow10_S k).
    split; [apply Z.div_le_lower_bound | apply Z.div_lt_upper_bound]; lia.
Qed.

(** X14.  The name has room for eight digits only.  Of a frame number
    of nine digits [snprintf] keeps the eight leading ones, so frame
    [tag] gets the very name of frame [tag / 10], whose file it then
    writes over. *)
Theorem dump_name_nine_digits (name : list byte) (tag : Z) :
  10 ^ 8 <= tag < 10 ^ 9 ->
  dump_name name tag = dump_name name (tag / 10).
Proof.
  intros Htag. unfold dump_name, snprintf_08d. do 3 f_equal.
  assert (Hq : 10 ^ 7 <= tag / 10 < 10 ^ 8).
  { split; [apply Z.div_le_lower_bound | apply Z.div_lt_upper_bound]; lia. }
  assert (Hi : to_int tag = tag)
    by (unfold to_int; rewrite Z.mod_small by lia; lia).
  assert (Hiq : to_int (tag / 10) = tag / 10)
    by (unfold to_int; rewrite Z.mod_small by lia; lia).
  rewrite Hi, Hiq, (printf_08d_zero_padded (tag / 10)) by lia.
  rewrite (take_ge (zero_padded 8 _)) by (rewrite length_zero_padded; lia).
  unfold printf_08d. destruct (Z.ltb_spec tag 0); [lia|].
  rewrite Z.abs_eq, (decimal_exact 8 10 tag) by (try assumption; lia).
  rewrite length_zero_padded. cbn [Nat.sub replicate app].
  change (zero_padded 9 tag)
    with (zero_padded 8 (tag / 10) ++ [to_uchar (48 + tag mod 10)]).
  apply take_app_length'. rewrite length_zero_padded. reflexivity.
Qed.

Lemma dump_name_nine_digits_witness :
  dump_name ppm_dumpname_init 123456789
  = dump_name ppm_dumpname_init (123456789 / 10).
Proof. apply (dump_name_nine_digits ppm_dumpname_init 123456789). lia. Defined.

(** X15.  The two string calls of [dump_ppm] stay inside
    [ppm_dumpname] for every frame number.  On an array of at least
    17 bytes they write the bytes 4 to 16 and no other: eight
    characters of the number, [.ppm] and a terminator; the four bytes
    before and all the bytes behind are left as they are.  A shorter
    array is overrun. *)
Theorem dump_name_in_place (name : list byte) (tag : Z) :
  ((17 <= length name)%nat ->
   dump_name name tag
   = Some (take 4 name ++ take 8 (printf_08d (to_int tag))
           ++ list_byte_of_string ".ppm" ++ [x00] ++ drop 17 name)
   /\ length (take 8 (printf_08d (to_int tag))) = 8%nat)
  /\ ((length name < 17)%nat -> dump_name name tag = None).
Proof.
  set (digits := take 8 (printf_08d (to_int tag))).
  assert (Hd : length digits = 8%nat).
  { subst digits. rewrite length_take.
    pose proof (length_printf_08d (to_int tag)). lia. }
  unfold dump_name, snprintf_08d.
  change (9 - 1)%nat with 8%nat. fold digits.
  split.
  - intros Hlen. split; [|exact Hd].
    assert (Hh : length (take 4 name) = 4%nat) by (rewrite length_take; lia).
    unfold poke at 1. rewrite length_app, Hd. cbn [length].
    case_decide; [|lia]. cbn [mbind option_bind]. unfold strncat.
    set (name1 := take 4 name ++ (digits ++ [x00]) ++ drop (4 + (8 + 1)) name).
    assert (Hsplit : name1
                     = (take 4 name ++ digits)
                       ++ x00 :: drop (4 + (8 + 1)) name).
    { subst name1. rewrite <- !app_assoc. reflexivity. }
    assert (H12 : length (take 4 name ++ digits) = 12%nat)
      by (rewrite length_app, Hh, Hd; reflexivity).
    assert (Hdrop : drop 12 name1 = x00 :: drop (4 + (8 + 1)) name).
    { rewrite Hsplit. apply drop_app_length'. symmetry. exact H12. }
    assert (Htake : take 12 name1 = take 4 name ++ digits).
    { rewrite Hsplit. apply take_app_length'. symmetry. exact H12. }
    assert (H1 : length name1 = length name).
    { subst name1. rewrite !length_app, Hh, length_drop, Hd.
      cbn [length]. lia. }
    assert (H17 : drop 17 name1 = drop 17 name).
    { replace 17%nat with (12 + 5)%nat by reflexivity.
      rewrite <- (drop_drop name1), Hdrop. cbn [drop].
      rewrite drop_drop. reflexivity. }
    rewrite Hdrop. cbn [strlen mbind option_bind].
    assert (Hp : poke name1 (12 + 0)
                   (take 5 (list_byte_of_string ".ppm") ++ [x00])
                 = Some (take 12 name1
                         ++ (list_byte_of_string ".ppm" ++ [x00])
                         ++ drop 17 name1)).
    { unfold poke. rewrite H1.
      change (length (take 5 (list_byte_of_string ".ppm") ++ [x00]))
        with 5%nat.
      case_decide; [reflexivity | lia]. }
    rewrite Hp, Htake, H17, <- !app_assoc. reflexivity.
  - intros Hlen. unfold poke at 1. rewrite length_app, Hd. cbn [length].
    case_decide as H13; [|reflexivity]. cbn [mbind option_bind].
    unfold strncat.
    set (name1 := take 4 name ++ (digits ++ [x00]) ++ drop (4 + (8 + 1)) name).
    assert (Hh : length (take 4 name) = 4%nat) by (rewrite length_take; lia).
    assert (H1 : length name1 = length name).
    { subst name1. rewrite !length_app, Hh, length_drop, Hd.
      cbn [length]. lia. }
    destruct (strlen (drop 12 name1)) as [len|]; [|reflexivity].
    cbn [mbind option_bind]. unfold poke. rewrite H1.
    change (length (take 5 (list_byte_of_string ".ppm") ++ [x00]))
      with 5%nat.
    case_decide; [lia | reflexivity].
Qed.

Lemma dump_name_in_place_witness :
  dump_name ppm_dumpname_init 4294967295
  = Some (take 4 ppm_dumpname_init
          ++ take 8 (printf_08d (to_int 4294967295))
          ++ list_byte_of_string ".ppm" ++ [x00]
          ++ drop 17 ppm_dumpname_init)
  /\ length (take 8 (printf_08d (to_int 4294967295))) = 8%nat.
Proof.
  apply (dump_name_in_place ppm_dumpname_init 4294967295). cbn. lia.
Defined.

End FrameNames.


(** ** [xioctl] and the failures of [read_frame] *)

Section Ioctl.

(** X16.  [xioctl] hands on the first answer of [ioctl] that is not
    an interruption: it returns [r] exactly when [r] comes after
    answers that are all -1 with [EINTR] and is not one itself, an
    error other than [EINTR] included; it never returns an
    interruption, and it goes on calling as long as every answer is
    one. *)
Theorem xioctl_first_answer {A : Type} (script : list (ioctl_ret A)) :
  (forall r,
      xioctl script = Some r
      <-> exists pre rest,
            script = pre ++ r :: rest
            /\ Forall (fun a => interrupted a = true) pre
            /\ interrupted r = false)
  /\ (xioctl script = None
      <-> Forall (fun a => interrupted a = true) script).
Proof.
  induction script as [|a script [IHs IHn]].
  - split.
    + intros r. split; [discriminate|].
      intros (pre & rest & H & _). destruct pre; discriminate.
    + split; [constructor | reflexivity].
  - cbn [xioctl]. fold (interrupted a).
    destruct (interrupted a) eqn:Ha.
    + split.
      * intros r. rewrite IHs. split.
        -- intros (pre & rest & -> & Hpre & Hr).
           exists (a :: pre), rest. split; [reflexivity|].
           split; [constructor; assumption | exact Hr].
        -- intros (pre & rest & H & Hpre & Hr).
           destruct pre as [|a' pre]; cbn [app] in H; injection H as -> ->.
           ++ congruence.
           ++ apply Forall_cons in Hpre as [_ Hpre]. eauto.
      * rewrite IHn. split; [constructor; assumption|].
        intros H. apply Forall_cons in H as [_ H]. exact H.
    + split.
      * intros r. split.
        -- intros [= <-]. exists [], script. split; [reflexivity|].
           split; [constructor | exact Ha].
        -- intros (pre & rest & H & Hpre & Hr).
           destruct pre as [|a' pre]; cbn [app] in H; injection H as -> ->.
           ++ reflexivity.
           ++ apply Forall_cons in Hpre as [Ha' _]. congruence.
      * split; [discriminate|].
        intros H. apply Forall_cons in H as [H _]. congruence.
Qed.

(** X18.  A dequeued buffer whose index is not below [n_buffers]
    stops the program at the [assert], before anything is done with
    it: the frame is not counted, no file is written, the buffer is
    not queued again, and the acquisition loop ends there. *)
Theorem read_frame_index_outside_pool
    (it : iteration) (g : globals) (dq : ioctl_ret v4l2_buffer) :
  xioctl (it_dqbuf it) = Some dq ->
  io_r dq <> -1 ->
  n_buffers g <= index (io_arg dq) ->
  read_frame it g = Abort g
  /\ forall (script : list iteration) (count : Z),
       (it_select it select_timeout).1 <> -1 ->
       (it_select it select_timeout).1 <> 0 ->
       for_loop (it :: script) count g = Abort g.
Proof.
  intros Hdq Hr Hidx.
  assert (Hread : read_frame it g = Abort g).
  { unfold read_frame. rewrite Hdq.
    destruct (Z.eqb_spec (io_r dq) (-1)); [contradiction|].
    destruct (Z.ltb_spec (index (io_arg dq)) (n_buffers g)); [lia|].
    reflexivity. }
  split; [exact Hread|]. intros script count H1 H0. cbn [for_loop].
  destruct (it_select it select_timeout) as [r e]. cbn [fst] in H1, H0.
  destruct (Z.eqb_spec r (-1)); [contradiction|].
  destruct (Z.eqb_spec r 0); [contradiction|].
  rewrite Hread. reflexivity.
Qed.

Lemma read_frame_index_outside_pool_witness :
  let it :=
    {| it_select := fun _ => (1, Eother 0);
       it_dqbuf :=
         [{| io_r := 0; io_errno := Eother 0;
             io_arg := {| index := 6; bytesused := 3 |} |}];
       it_data := [x01; x02; x03]; it_io := io_complete 3;
       it_qbuf := [{| io_r := 0; io_errno := Eother 0; io_arg := tt |}] |} in
  let g := streaming V4L2_PIX_FMT_RGB24 2 in
  read_frame it g = Abort g
  /\ forall (script : list iteration) (count : Z),
       (it_select it select_timeout).1 <> -1 ->
       (it_select it select_timeout).1 <> 0 ->
       for_loop (it :: script) count g = Abort g.
Proof.
  intros it g.
  apply (read_frame_index_outside_pool it g
           {| io_r := 0; io_errno := Eother 0;
              io_arg := {| index := 6; bytesused := 3 |} |}).
  - reflexivity.
  - discriminate.
  - cbn. lia.
Defined.

End Ioctl.


(** ** What the acquisition loop keeps, however it ends *)

Section LoopInvariants.

Lemma read_frame_outcome (it : iteration) (g : globals) :
  match read_frame it g with
  | Return (got, s) =>
      (got = 0 /\ s = g)
      \/ (got = 1 /\ same_run g s /\ framecnt s = to_uint (framecnt g + 1))
  | Exit _ _ s | Abort s | Starved s =>
      same_run g s
      /\ (framecnt s = framecnt g \/ framecnt s = to_uint (framecnt g + 1))
  | Undefined => True
  end.
Proof.
  pose proof (same_run_refl g) as Hg. unfold read_frame.
  destruct (xioctl (it_dqbuf it)) as [dq|]; [|auto].
  destruct (io_r dq =? -1).
  { destruct (io_errno dq); unfold errno_exit; auto. }
  destruct (index (io_arg dq) <? n_buffers g); [|auto].
  pose proof (process_image_state (it_data it)
                (to_int (bytesused (io_arg dq))) (it_io it) g) as Hst.
  destruct (process_image _ _ _ g) as [s|st d s|s| |s];
    cbn [mbind result_bind]; try (destruct (Hst s eq_refl); auto); [|exact I].
  destruct (xioctl (it_qbuf it)) as [q|]; [|auto].
  destruct (io_r q =? -1); unfold errno_exit; auto.
Qed.

Lemma to_uint_add_l (a b : Z) : to_uint (to_uint a + b) = to_uint (a + b).
Proof. unfold to_uint. rewrite Zplus_mod_idemp_l. reflexivity. Qed.

Lemma for_loop_budget (script : list iteration) :
  forall (count : Z) (g s : globals),
    0 < count < 2 ^ 32 ->
    result_state fst (for_loop script count g) = Some s ->
    same_run g s
    /\ exists k, 0 <= k <= count
                 /\ to_uint (framecnt s) = to_uint (framecnt g + k).
Proof.
  induction script as [|it script IH]; intros count g s Hcount;
    cbn [for_loop].
  - intros [= <-]. split; [apply same_run_refl|].
    exists 0. rewrite Z.add_0_r. split; [lia | reflexivity].
  - assert (Hstay : same_run g g
                    /\ exists k, 0 <= k <= count
                         /\ to_uint (framecnt g) = to_uint (framecnt g + k)).
    { split; [apply same_run_refl|]. exists 0. rewrite Z.add_0_r.
      split; [lia | reflexivity]. }
    destruct (it_select it select_timeout) as [r e].
    destruct (r =? -1).
    { destruct (is_EINTR e); [apply IH; exact Hcount|].
      intros [= <-]. exact Hstay. }
    destruct (r =? 0); [intros [= <-]; exact Hstay|].
    pose proof (read_frame_outcome it g) as Hread.
    assert (Hone : forall s1,
               same_run g s1 ->
               framecnt s1 = framecnt g
               \/ framecnt s1 = to_uint (framecnt g + 1) ->
               same_run g s1
               /\ exists k, 0 <= k <= count
                    /\ to_uint (framecnt s1) = to_uint (framecnt g + k)).
    { intros s1 Hrun [Hc | Hc]; (split; [exact Hrun|]); rewrite Hc.
      - exists 0. rewrite Z.add_0_r. split; [lia | reflexivity].
      - exists 1. split; [lia|]. unfold to_uint. apply Z.mod_mod. lia. }
    destruct (read_frame it g) as [[got s1]|st d s1|s1| |s1];
      cbn [mbind result_bind]; try discriminate;
      try (intros [= <-]; apply Hone; tauto).
    destruct Hread as [[-> ->] | (-> & Hrun & Hcnt)].
    + change (0 =? 0) with true. cbv iota.
      destruct (Z.leb_spec count 0); [lia|]. apply IH. exact Hcount.
    + change (1 =? 0) with false. cbv iota.
      assert (Hdec : to_uint (count - 1) = count - 1)
        by (unfold to_uint; apply Z.mod_small; lia).
      rewrite Hdec.
      destruct (Z.leb_spec (count - 1) 0).
      { intros [= <-]. apply Hone; auto. }
      destruct (Z.ltb_spec 0 (count - 1)); [|lia].
      intros Hs. apply IH in Hs as [Hrun' (k & Hk & Hcnt')]; [|lia].
      split; [eapply same_run_trans; eassumption|].
      exists (1 + k). split; [lia|].
      rewrite Hcnt', Hcnt, to_uint_add_l. f_equal. lia.
Qed.

(** X19.  However [mainloop] ends -- by returning, by an exit, at
    the [assert], or still waiting -- it has not touched the pixel
    format, the buffer pool or the frame budget, and it has counted
    at most [frame_count] frames: the frame counter has advanced by
    some [k] between 0 and the budget. *)
Theorem mainloop_budget (script : list iteration) (g s : globals) :
  result_state fst (mainloop script g) = Some s ->
  same_run g s
  /\ exists k, 0 <= k <= to_uint (frame_count g)
               /\ to_uint (framecnt s) = to_uint (framecnt g + k).
Proof.
  unfold mainloop.
  pose proof (Z.mod_pos_bound (frame_count g) (2 ^ 32) ltac:(lia)) as Hb.
  fold (to_uint (frame_count g)) in Hb.
  destruct (Z.ltb_spec 0 (to_uint (frame_count g))).
  - apply for_loop_budget. lia.
  - intros [= <-]. split; [apply same_run_refl|].
    exists 0. rewrite Z.add_0_r. split; [lia | reflexivity].
Qed.

Lemma mainloop_budget_witness :
  let g := streaming V4L2_PIX_FMT_RGB24 2 in
  let script := [frame_pass [x01; x02; x03] 3; wait_pass 0 (Eother 0)] in
  let s :=
    set_files {[ "fram00000001.ppm" := ppm_header ++ [x01; x02; x03] ]}
      (set_ppm_dumpname
         (list_byte_of_string "fram00000001.ppm" ++ [x00]
          ++ list_byte_of_string "00.ppm" ++ [x00])
         (set_framecnt 1 g)) in
  (mainloop script g = Exit EXIT_FAILURE (Message "select timeout") s
   /\ framecnt s = 1)
  /\ same_run g s
  /\ exists k, 0 <= k <= to_uint (frame_count g)
               /\ to_uint (framecnt s) = to_uint (framecnt g + k).
Proof.
  intros g script s.
  assert (Hrun : mainloop script g
                 = Exit EXIT_FAILURE (Message "select timeout") s)
    by (vm_compute; reflexivity).
  split; [split; [exact Hrun | reflexivity]|].
  apply (mainloop_budget script g s). rewrite Hrun. reflexivity.
Defined.

Lemma read_frame_unknown_format (it : iteration) (g s : globals)
    (fourcc : Z) :
  fmt_pixelformat g = PixOther fourcc ->
  result_state snd (read_frame it g) = Some s ->
  fmt_pixelformat s = PixOther fourcc
  /\ files s = files g
  /\ ppm_dumpname s = ppm_dumpname g
  /\ bigbuffer s = bigbuffer g.
Proof.
  intros Hpf. unfold read_frame, process_image.
  cbn [fmt_pixelformat set_framecnt]. rewrite Hpf.
  destruct (xioctl (it_dqbuf it)) as [dq|]; [|intros [= <-]; auto].
  destruct (io_r dq =? -1).
  { destruct (io_errno dq); intros [= <-]; auto. }
  destruct (index (io_arg dq) <? n_buffers g); [|intros [= <-]; auto].
  cbn [mbind result_bind].
  destruct (xioctl (it_qbuf it)) as [q|]; [|intros [= <-]; auto].
  destruct (io_r q =? -1); intros [= <-]; auto.
Qed.

Lemma for_loop_unknown_format (script : list iteration) :
  forall (count : Z) (g s : globals) (fourcc : Z),
    fmt_pixelformat g = PixOther fourcc ->
    result_state fst (for_loop script count g) = Some s ->
    files s = files g
    /\ ppm_dumpname s = ppm_dumpname g
    /\ bigbuffer s = bigbuffer g.
Proof.
  induction script as [|it script IH]; intros count g s fourcc Hpf;
    cbn [for_loop].
  - intros [= <-]. auto.
  - destruct (it_select it select_timeout) as [r e].
    destruct (r =? -1).
    { destruct (is_EINTR e); [apply (IH _ _ _ fourcc Hpf)|].
      intros [= <-]. auto. }
    destruct (r =? 0); [intros [= <-]; auto|].
    pose proof (read_frame_unknown_format it g) as Hread.
    destruct (read_frame it g) as [[got s1]|st d s1|s1| |s1];
      cbn [mbind result_bind]; try discriminate;
      try (intros [= <-]; destruct (Hread _ fourcc Hpf eq_refl); tauto).
    destruct (Hread s1 fourcc Hpf eq_refl) as (Hpf1 & Hf & Hn & Hb).
    assert (Hnext : forall c,
               result_state fst (for_loop script c s1) = Some s ->
               files s = files g /\ ppm_dumpname s = ppm_dumpname g
               /\ bigbuffer s = bigbuffer g).
    { intros c Hs. apply (IH _ _ _ fourcc Hpf1) in Hs as (-> & -> & ->).
      auto. }
    destruct (got =? 0).
    + destruct (count <=? 0); [intros [= <-]; auto | apply Hnext].
    + destruct (to_uint (count - 1) <=? 0); [intros [= <-]; auto|].
      destruct (0 <? to_uint (count - 1)); [apply Hnext|intros [= <-]; auto].
Qed.

(** X20.  With a pixel format that is neither YUYV nor RGB24 the
    acquisition loop dequeues and counts frames but stores nothing:
    however [mainloop] ends, the files, the name array and
    [bigbuffer] are as they were. *)
Theorem mainloop_unknown_format
    (script : list iteration) (g s : globals) (fourcc : Z) :
  fmt_pixelformat g = PixOther fourcc ->
  result_state fst (mainloop script g) = Some s ->
  files s = files g
  /\ ppm_dumpname s = ppm_dumpname g
  /\ bigbuffer s = bigbuffer g.
Proof.
  intros Hpf. unfold mainloop.
  destruct (0 <? to_uint (frame_count g)).
  - apply (for_loop_unknown_format _ _ _ _ fourcc Hpf).
  - intros [= <-]. auto.
Qed.

Lemma mainloop_unknown_format_witness :
  let g := streaming (PixOther 1196444237) 2 in
  let s := set_framecnt 2 g in
  files s = files g
  /\ ppm_dumpname s = ppm_dumpname g
  /\ bigbuffer s = bigbuffer g.
Proof.
  intros g s.
  apply (mainloop_unknown_format
           [frame_pass stripes 96; wait_pass (-1) EINTR;
            frame_pass stripes 96; wait_pass 0 (Eother 0)]
           g s 1196444237).
  - reflexivity.
  - reflexivity.
Defined.

End LoopInvariants.


(** ** The files of a run *)

Section FilesOfRun.

Lemma process_image_file p size io (g s : globals) :
  process_image p size io g = Return s ->
  emitted_format (fmt_pixelformat g) ->
  fio_open io <> -1 ->
  (17 <= length (ppm_dumpname g))%nat ->
  Forall (fun c => c <> x00) (take 4 (ppm_dumpname g)) ->
  0 <= framecnt g ->
  framecnt g + 1 < 10 ^ 8 ->
  take 4 (ppm_dumpname s) = take 4 (ppm_dumpname g)
  /\ only_file (frame_path (take 4 (ppm_dumpname g)) (framecnt g + 1)) g s
  /\ is_Some
       (files s !! frame_path (take 4 (ppm_dumpname g)) (framecnt g + 1)).
Proof.
  intros Hs Hpf Hfd Hlen Hnul H0 H8.
  assert (Htag : to_uint (framecnt g + 1) = framecnt g + 1)
    by (unfold to_uint; apply Z.mod_small; lia).
  destruct (dump_name_path (ppm_dumpname g) (framecnt g + 1))
    as (name & Hname & Hc & Ht & _); [assumption | assumption | lia |].
  assert (Hpath : path_of name
                  = frame_path (take 4 (ppm_dumpname g)) (framecnt g + 1))
    by (unfold path_of, frame_path; rewrite Hc; reflexivity).
  assert (Hdump : forall p' size' g1,
             files g1 = files g -> ppm_dumpname g1 = ppm_dumpname g ->
             dump_ppm p' size' (framecnt g + 1) io g1 = Return s ->
             take 4 (ppm_dumpname s) = take 4 (ppm_dumpname g)
             /\ only_file (path_of name) g s
             /\ is_Some (files s !! path_of name)).
  { intros p' size' g1 Hf Hn Hd.
    assert (Hst : result_state id (dump_ppm p' size' (framecnt g + 1) io g1)
                  = Some s) by (rewrite Hd; reflexivity).
    rewrite <- Hn in Hname.
    destruct (dump_ppm_shape _ _ _ _ _ _ Hst) as (name' & fs & Hname' & ->).
    rewrite Hname in Hname'. injection Hname' as <-.
    destruct (dump_ppm_only_file _ _ _ _ _ _ name Hname Hst) as [Ho Hk].
    split; [exact Ht|]. split; [|exact (Hk Hfd)].
    unfold only_file in *. rewrite <- Hf. exact Ho. }
  rewrite <- Hpath. unfold process_image in Hs.
  cbn [fmt_pixelformat set_framecnt bigbuffer framecnt] in Hs.
  rewrite Htag in Hs. destruct Hpf as [Hpf | Hpf]; rewrite Hpf in Hs.
  - destruct (convert_yuyv p size (bigbuffer g)) as [bb|]; [|discriminate].
    destruct (fits_int (size * 6)); [|discriminate].
    cbv zeta in Hs. cbn [framecnt set_bigbuffer set_framecnt] in Hs.
    eapply Hdump; [| |exact Hs]; reflexivity.
  - cbn [framecnt set_framecnt] in Hs.
    eapply Hdump; [| |exact Hs]; reflexivity.
Qed.

(** X17.  A frame is emitted before its buffer is queued again.
    When [VIDIOC_QBUF] fails after a frame in one of the two formats
    the program emits, whose file opened and which [process_image] has
    handled, the process exits with the diagnostic of [VIDIOC_QBUF] in
    the state [process_image] left: the frame is counted, the file
    named after its number is there, and no other file has changed. *)
Theorem read_frame_requeue_failure
    (it : iteration) (g : globals) (dq : ioctl_ret v4l2_buffer)
    (q : ioctl_ret unit) :
  xioctl (it_dqbuf it) = Some dq ->
  io_r dq <> -1 ->
  index (io_arg dq) < n_buffers g ->
  emitted_format (fmt_pixelformat g) ->
  frame_emitted (fmt_pixelformat g) it (to_int (bytesused (io_arg dq))) = true ->
  fio_open (it_io it) <> -1 ->
  (17 <= length (ppm_dumpname g))%nat ->
  Forall (fun c => c <> x00) (take 4 (ppm_dumpname g)) ->
  0 <= framecnt g ->
  framecnt g + 1 < 10 ^ 8 ->
  xioctl (it_qbuf it) = Some q ->
  io_r q = -1 ->
  exists s : globals,
    process_image (it_data it) (to_int (bytesused (io_arg dq))) (it_io it) g
    = Return s
    /\ read_frame it g
       = Exit EXIT_FAILURE (ErrnoExit "VIDIOC_QBUF" (io_errno q)) s
    /\ framecnt s = framecnt g + 1
    /\ is_Some
         (files s !! frame_path (take 4 (ppm_dumpname g)) (framecnt g + 1))
    /\ only_file (frame_path (take 4 (ppm_dumpname g)) (framecnt g + 1)) g s.
Proof.
  intros Hdq Hr Hidx Hpf Hem Hfd Hname Hnul H0 H8 Hq Hqr.
  destruct (process_image_returns it _ g Hem Hname) as [s Hs].
  exists s. split; [exact Hs|].
  pose proof (process_image_state (it_data it)
                (to_int (bytesused (io_arg dq))) (it_io it) g s) as Hst.
  rewrite Hs in Hst. destruct Hst as [_ Hcnt]; [reflexivity|].
  destruct (process_image_file _ _ _ _ _ Hs Hpf Hfd Hname Hnul H0 H8)
    as (_ & Ho & Hk).
  split; [|split; [|split; assumption]].
  - unfold read_frame. rewrite Hdq.
    destruct (Z.eqb_spec (io_r dq) (-1)); [contradiction|].
    destruct (Z.ltb_spec (index (io_arg dq)) (n_buffers g)); [|lia].
    rewrite Hs. cbn [mbind result_bind]. rewrite Hq, Hqr. reflexivity.
  - rewrite Hcnt. unfold to_uint. apply Z.mod_small. lia.
Qed.

Lemma read_frame_requeue_failure_witness :
  let it := ready_pass 0 [3] (-1) in
  let g := streaming V4L2_PIX_FMT_RGB24 2 in
  exists s : globals,
    process_image (it_data it) (to_int 3) (it_io it) g = Return s
    /\ read_frame it g
       = Exit EXIT_FAILURE (ErrnoExit "VIDIOC_QBUF" EINVAL) s
    /\ framecnt s = framecnt g + 1
    /\ is_Some
         (files s !! frame_path (take 4 (ppm_dumpname g)) (framecnt g + 1))
    /\ only_file (frame_path (take 4 (ppm_dumpname g)) (framecnt g + 1)) g s.
Proof.
  intros it g.
  apply (read_frame_requeue_failure it g
           {| io_r := 0; io_errno := Eother 0;
              io_arg := {| index := 0; bytesused := 3 |} |}
           {| io_r := -1; io_errno := EINVAL; io_arg := tt |}).
  - reflexivity.
  - discriminate.
  - cbn. lia.
  - right. reflexivity.
  - reflexivity.
  - cbn. discriminate.
  - cbn. lia.
  - repeat constructor; discriminate.
  - cbn. lia.
  - cbn. lia.
  - reflexivity.
  - reflexivity.
Defined.

Lemma read_frame_processed (it : iteration) (g g' : globals) :
  read_frame it g = Return (1, g') ->
  exists size, process_image (it_data it) size (it_io it) g = Return g'.
Proof.
  unfold read_frame.
  destruct (xioctl (it_dqbuf it)) as [dq|]; [|discriminate].
  destruct (io_r dq =? -1).
  { destruct (io_errno dq); discriminate. }
  destruct (index (io_arg dq) <? n_buffers g); [|discriminate].
  destruct (process_image _ _ _ g) as [s| | | |] eqn:Hs;
    cbn [mbind result_bind]; try discriminate.
  destruct (xioctl (it_qbuf it)) as [q|]; [|discriminate].
  destruct (io_r q =? -1); [discriminate|].
  intros [= <-]. eauto.
Qed.

Lemma for_loop_frame_step (it : iteration) (script : list iteration)
    (count : Z) (g g' : globals) (r : Z) (e : errno) :
  it_select it select_timeout = (r, e) ->
  r <> -1 ->
  r <> 0 ->
  read_frame it g = Return (1, g') ->
  1 < count < 2 ^ 32 ->
  for_loop (it :: script) count g = for_loop script (count - 1) g'.
Proof.
  intros Hsel Hr1 Hr0 Hread Hcount. cbn [for_loop]. rewrite Hsel.
  destruct (Z.eqb_spec r (-1)); [contradiction|].
  destruct (Z.eqb_spec r 0); [contradiction|].
  rewrite Hread. cbn [mbind result_bind]. cbn [Z.eqb].
  assert (Hdec : to_uint (count - 1) = count - 1)
    by (unfold to_uint; apply Z.mod_small; lia).
  rewrite Hdec.
  destruct (Z.leb_spec (count - 1) 0); [lia|].
  destruct (Z.ltb_spec 0 (count - 1)); [reflexivity | lia].
Qed.

Lemma for_loop_last_frame (it : iteration) (script : list iteration)
    (g g' : globals) (r : Z) (e : errno) :
  it_select it select_timeout = (r, e) ->
  r <> -1 ->
  r <> 0 ->
  read_frame it g = Return (1, g') ->
  for_loop (it :: script) 1 g = Return (g', script).
Proof.
  intros Hsel Hr1 Hr0 Hread. cbn [for_loop]. rewrite Hsel.
  destruct (Z.eqb_spec r (-1)); [contradiction|].
  destruct (Z.eqb_spec r 0); [contradiction|].
  rewrite Hread. reflexivity.
Qed.

Lemma frame_pass_file (it : iteration) (g : globals) :
  pass_of (fmt_pixelformat g) (n_buffers g) it = Frame ->
  emitted_format (fmt_pixelformat g) ->
  fio_open (it_io it) <> -1 ->
  (17 <= length (ppm_dumpname g))%nat ->
  Forall (fun c => c <> x00) (take 4 (ppm_dumpname g)) ->
  0 <= framecnt g ->
  framecnt g + 1 < 10 ^ 8 ->
  exists r e g',
    it_select it select_timeout = (r, e) /\ r <> -1 /\ r <> 0
    /\ read_frame it g = Return (1, g')
    /\ same_run g g'
    /\ framecnt g' = framecnt g + 1
    /\ take 4 (ppm_dumpname g') = take 4 (ppm_dumpname g)
    /\ only_file (frame_path (take 4 (ppm_dumpname g)) (framecnt g + 1)) g g'
    /\ is_Some
         (files g' !! frame_path (take 4 (ppm_dumpname g)) (framecnt g + 1)).
Proof.
  intros Hpass Hpf Hfd Hlen Hnul H0 H8.
  destruct (read_frame_frame it g Hpass Hlen)
    as (r & e & g' & Hsel & Hr1 & Hr0 & Hread & Hrun & Hcnt).
  destruct (read_frame_processed it g g' Hread) as [size Hs].
  destruct (process_image_file _ _ _ _ _ Hs Hpf Hfd Hlen Hnul H0 H8)
    as (Ht & Ho & Hk).
  exists r, e, g'. repeat (split; [assumption|]).
  split; [|auto]. rewrite Hcnt. unfold to_uint. apply Z.mod_small. lia.
Qed.

Lemma for_loop_files (used : list iteration) :
  forall (count : Z) (g : globals) (last : iteration)
         (rest : list iteration),
    0 < count ->
    (17 <= length (ppm_dumpname g))%nat ->
    Forall (fun it => is_failing (fmt_pixelformat g) (n_buffers g) it = false)
      used ->
    is_frame (fmt_pixelformat g) (n_buffers g) last = true ->
    frames (fmt_pixelformat g) (n_buffers g) (used ++ [last]) = count ->
    emitted_format (fmt_pixelformat g) ->
    frames_open (fmt_pixelformat g) (n_buffers g) (used ++ [last]) ->
    Forall (fun c => c <> x00) (take 4 (ppm_dumpname g)) ->
    0 <= framecnt g ->
    framecnt g + count < 10 ^ 8 ->
    exists g' : globals,
      for_loop (used ++ last :: rest) count g = Return (g', rest)
      /\ same_run g g'
      /\ framecnt g' = framecnt g + count
      /\ (forall k, 1 <= k <= count ->
            is_Some (files g' !! frame_path (take 4 (ppm_dumpname g))
                                   (framecnt g + k)))
      /\ (forall q, is_Some (files g !! q) -> is_Some (files g' !! q))
      /\ (forall q,
            (forall k, 1 <= k <= count ->
               q <> frame_path (take 4 (ppm_dumpname g)) (framecnt g + k)) ->
            files g' !! q = files g !! q).
Proof.
  induction used as [|it used IH];
    intros count g last rest Hcount Hname Hok Hlast Hfr Hpf Hopen Hnul H0 H8.
  - cbn [app] in *. rewrite frames_last in Hfr by exact Hlast. subst count.
    apply Forall_cons in Hopen as [Hfd _]. specialize (Hfd Hlast).
    unfold is_frame in Hlast.
    destruct (pass_of (fmt_pixelformat g) (n_buffers g) last) eqn:Hpass;
      try discriminate.
    destruct (frame_pass_file last g Hpass Hpf Hfd Hname Hnul H0 H8)
      as (r & e & g1 & Hsel & Hr1 & Hr0 & Hread & Hrun & Hcnt & Ht & Ho & Hk).
    exists g1. split; [eapply for_loop_last_frame; eassumption|].
    split; [exact Hrun|]. split; [exact Hcnt|].
    destruct Ho as [Ho1 Ho2]. split; [|split].
    + intros k Hk1. replace k with 1 by lia. exact Hk.
    + intros q Hq.
      destruct (decide (q = frame_path (take 4 (ppm_dumpname g))
                             (framecnt g + 1))) as [->|Hne];
        [exact Hk | rewrite Ho1 by exact Hne; exact Hq].
    + intros q Hq. apply Ho1, Hq. lia.
  - apply Forall_cons in Hok as [Hit Hok]. cbn [app] in *.
    apply Forall_cons in Hopen as [Hfd Hopen].
    rewrite frames_cons in Hfr.
    pose proof (frames_nonneg (fmt_pixelformat g) (n_buffers g) used) as Hnn.
    rewrite frames_app, (frames_last _ _ _ Hlast) in Hfr.
    unfold is_failing in Hit. unfold is_frame in Hfr, Hfd.
    destruct (pass_of (fmt_pixelformat g) (n_buffers g) it) eqn:Hpass;
      try discriminate.
    + rewrite for_loop_skip by (auto || lia).
      apply IH; try assumption. rewrite frames_app, (frames_last _ _ _ Hlast).
      lia.
    + rewrite for_loop_skip by (auto || lia).
      apply IH; try assumption. rewrite frames_app, (frames_last _ _ _ Hlast).
      lia.
    + specialize (Hfd eq_refl).
      destruct (frame_pass_file it g Hpass Hpf Hfd Hname Hnul H0 ltac:(lia))
        as (r & e & g1 & Hsel & Hr1 & Hr0 & Hread & Hrun & Hcnt & Ht & Ho & Hk).
      rewrite (for_loop_frame_step it _ count g g1 r e) by (assumption || lia).
      destruct Hrun as [Hf Hb Hn Hc Hl].
      destruct (IH (count - 1) g1 last rest)
        as (g' & Hloop & Hrun' & Hcnt' & Hin & Hkeep & Hout); try lia.
      { rewrite Hf, Hn. exact Hok. }
      { rewrite Hf, Hn. exact Hlast. }
      { rewrite Hf, Hn, frames_app, (frames_last _ _ _ Hlast). lia. }
      { rewrite Hf. exact Hpf. }
      { rewrite Hf, Hn. exact Hopen. }
      { rewrite Ht. exact Hnul. }
      exists g'. split; [exact Hloop|]. rewrite Ht, Hcnt in *.
      destruct Ho as [Ho1 Ho2].
      split; [eapply same_run_trans; [|exact Hrun']; split; assumption|].
      split; [lia|]. split; [|split].
      * intros k Hk1. destruct (Z.eq_dec k 1) as [->|Hne].
        -- apply Hkeep. exact Hk.
        -- replace (framecnt g + k) with (framecnt g + 1 + (k - 1)) by lia.
           apply Hin. lia.
      * intros q Hq. apply Hkeep.
        destruct (decide (q = frame_path (take 4 (ppm_dumpname g))
                               (framecnt g + 1))) as [->|Hne];
          [exact Hk | rewrite Ho1 by exact Hne; exact Hq].
      * intros q Hq. rewrite Hout.
        -- apply Ho1, Hq. lia.
        -- intros k Hk1.
           replace (framecnt g + 1 + k) with (framecnt g + (1 + k)) by lia.
           apply Hq. lia.
Qed.

(** X21.  Every frame of the budget leaves its file.  With one of the
    two pixel formats the program emits, in a run in which no pass
    fails up to the [frame_count]-th frame, each [open] succeeds and
    the frame numbers stay below [10^8], [mainloop] returns with one
    file for each of the [frame_count] frame numbers it has counted;
    no file that was there is removed, and no file other than those of
    the frames is changed. *)
Theorem mainloop_emits_all (used rest : list iteration) (g : globals) :
  0 <= frame_count g ->
  (17 <= length (ppm_dumpname g))%nat ->
  Forall (fun it => is_failing (fmt_pixelformat g) (n_buffers g) it = false)
    used ->
  ends_with_frame (fmt_pixelformat g) (n_buffers g) used ->
  frames (fmt_pixelformat g) (n_buffers g) used = frame_count g ->
  emitted_format (fmt_pixelformat g) ->
  frames_open (fmt_pixelformat g) (n_buffers g) used ->
  Forall (fun c => c <> x00) (take 4 (ppm_dumpname g)) ->
  0 <= framecnt g ->
  framecnt g + frame_count g < 10 ^ 8 ->
  exists g' : globals,
    mainloop (used ++ rest) g = Return (g', rest)
    /\ framecnt g' = framecnt g + frame_count g
    /\ (forall k, 1 <= k <= frame_count g ->
          is_Some (files g' !! frame_path (take 4 (ppm_dumpname g))
                                 (framecnt g + k)))
    /\ (forall q, is_Some (files g !! q) -> is_Some (files g' !! q))
    /\ (forall q,
          (forall k, 1 <= k <= frame_count g ->
             q <> frame_path (take 4 (ppm_dumpname g)) (framecnt g + k)) ->
          files g' !! q = files g !! q).
Proof.
  intros Hcount Hname Hok Hend Hfr Hpf Hopen Hnul H0 H8.
  unfold mainloop, ends_with_frame in *.
  assert (Hu : to_uint (frame_count g) = frame_count g)
    by (unfold to_uint; apply Z.mod_small; lia).
  rewrite Hu. destruct (last used) as [it|] eqn:Hlast.
  - apply last_Some in Hlast as [used0 ->].
    apply Forall_app in Hok as [Hok _].
    assert (Hpos : 0 < frame_count g).
    { rewrite <- Hfr, frames_app, (frames_last _ _ _ Hend).
      pose proof (frames_nonneg (fmt_pixelformat g) (n_buffers g) used0).
      lia. }
    destruct (Z.ltb_spec 0 (frame_count g)); [|lia].
    destruct (for_loop_files used0 (frame_count g) g it rest)
      as (g' & Hrun & _ & Hc & Hin & Hkeep & Hout); try assumption.
    exists g'. rewrite <- app_assoc. auto.
  - apply last_None in Hlast as ->. cbn [app].
    change (frames (fmt_pixelformat g) (n_buffers g) []) with 0 in Hfr.
    rewrite <- Hfr. cbn [Z.ltb Z.compare]. exists g.
    split; [reflexivity|]. split; [lia|].
    split; [intros k Hk; lia|]. auto.
Qed.

Lemma mainloop_emits_all_witness :
  let g := streaming V4L2_PIX_FMT_YUYV 2 in
  exists g' : globals,
    mainloop (sample_used ++ sample_rest) g = Return (g', sample_rest)
    /\ framecnt g' = framecnt g + frame_count g
    /\ (forall k, 1 <= k <= frame_count g ->
          is_Some (files g' !! frame_path (take 4 (ppm_dumpname g))
                                 (framecnt g + k)))
    /\ (forall q, is_Some (files g !! q) -> is_Some (files g' !! q))
    /\ (forall q,
          (forall k, 1 <= k <= frame_count g ->
             q <> frame_path (take 4 (ppm_dumpname g)) (framecnt g + k)) ->
          files g' !! q = files g !! q).
Proof.
  intros g. apply (mainloop_emits_all sample_used sample_rest g).
  - vm_compute. discriminate.
  - vm_compute. lia.
  - repeat constructor.
  - vm_compute. reflexivity.
  - vm_compute. reflexivity.
  - left. reflexivity.
  - unfold frames_open, sample_used.
    repeat (apply Forall_cons; split;
            [first [ intros H; vm_compute in H; discriminate H
                   | intros _; vm_compute; discriminate ]|]).
    apply Forall_nil_2.
  - repeat constructor; discriminate.
  - vm_compute. discriminate.
  - vm_compute. reflexivity.
Defined.

End FilesOfRun.


(** ** The buffer pool that [init_mmap] builds *)

Section Pool.

Lemma set_pool_id (g : globals) (bufs : list buffer) (n : Z) :
  buffers g = bufs -> n_buffers g = n ->
  set_n_buffers n (set_buffers bufs g) = g.
Proof. intros <- <-. destruct g. reflexivity. Qed.

Lemma map_buffers_prefix (pool : list buffer_script) :
  forall (done todo : list buffer) (g : globals) (count : Z)
         (rest : list buffer_script),
    n_buffers g = Z.of_nat (length done) ->
    buffers g = done ++ todo ->
    (length pool <= length todo)%nat ->
    Z.of_nat (length done) + Z.of_nat (length pool) <= count < 2 ^ 32 ->
    Forall (fun bs => buffer_maps bs = true) pool ->
    exists new : list buffer,
      Forall2 (fun b bs => mapped_buffer bs = Some b) new pool
      /\ map_buffers (pool ++ rest) count g
         = map_buffers rest count
             (set_n_buffers (Z.of_nat (length done) + Z.of_nat (length pool))
                (set_buffers (done ++ new ++ drop (length pool) todo) g)).
Proof.
  induction pool as [|bs pool IH];
    intros done todo g count rest Hn Hb Hlen Hcount Hmaps.
  - exists []. split; [constructor|]. cbn [app length drop].
    rewrite Z.add_0_r, set_pool_id by assumption. reflexivity.
  - apply Forall_cons in Hmaps as [Hbs Hmaps].
    destruct todo as [|t todo]; cbn [length] in Hlen, Hcount; [lia|].
    unfold buffer_maps in Hbs.
    destruct (xioctl (bs_querybuf bs)) as [qb|] eqn:Hq; [|discriminate].
    apply andb_prop in Hbs as [Hr Hm].
    cbn [app map_buffers].
    destruct (Z.ltb_spec (n_buffers g) count); [|lia].
    rewrite Hq. destruct (io_r qb =? -1); [discriminate|].
    destruct (bs_mmap bs (qb_length (io_arg qb)) (qb_offset (io_arg qb)))
      as [addr|e] eqn:Hmap; [|discriminate].
    set (b := {| buf_start := mmap_addr (Mapped addr);
                 buf_length := qb_length (io_arg qb) |}).
    assert (Hins : <[Z.to_nat (n_buffers g) := b]> (buffers g)
                   = (done ++ [b]) ++ todo).
    { rewrite Hn, Nat2Z.id, Hb.
      replace (length done) with (length done + 0)%nat at 1 by lia.
      rewrite insert_app_r, <- app_assoc. reflexivity. }
    rewrite Hins. cbn [n_buffers set_buffers].
    assert (Hnext : to_uint (n_buffers g + 1) = Z.of_nat (length (done ++ [b]))).
    { rewrite length_app. cbn [length]. unfold to_uint.
      rewrite Z.mod_small; lia. }
    rewrite Hnext.
    destruct (IH (done ++ [b]) todo
                (set_n_buffers (Z.of_nat (length (done ++ [b])))
                   (set_buffers ((done ++ [b]) ++ todo) g))
                count rest) as (new & Hnew & Hrun);
      [reflexivity | reflexivity | lia | | exact Hmaps |].
    { rewrite length_app. cbn [length]. lia. }
    exists (b :: new). split.
    + constructor; [|exact Hnew]. unfold mapped_buffer.
      rewrite Hq. cbn [mbind option_bind]. rewrite Hmap. reflexivity.
    + rewrite Hrun. f_equal. rewrite length_app. cbn [length drop].
      rewrite <- !app_assoc. cbn [app].
      replace (Z.of_nat (length done + 1) + Z.of_nat (length pool))
        with (Z.of_nat (length done) + Z.of_nat (S (length pool))) by lia.
      reflexivity.
Qed.

Lemma map_buffers_done (rest : list buffer_script) (count : Z) (g : globals) :
  count <= n_buffers g -> map_buffers rest count g = Return g.
Proof.
  intros H. destruct rest; cbn [map_buffers];
    destruct (Z.ltb_spec (n_buffers g) count); try lia; reflexivity.
Qed.

Lemma init_mmap_maps
    (s : mmap_script) (g : globals) (req : ioctl_ret Z)
    (pool rest : list buffer_script) :
  xioctl (ms_reqbufs s 6) = Some req ->
  io_r req <> -1 ->
  2 <= io_arg req < 2 ^ 32 ->
  ms_calloc s = true ->
  ms_buffers s = pool ++ rest ->
  Z.of_nat (length pool) = io_arg req ->
  Forall (fun bs => buffer_maps bs = true) pool ->
  exists bufs : list buffer,
    init_mmap s g = Return (set_n_buffers (io_arg req) (set_buffers bufs g))
    /\ Forall2 (fun b bs => mapped_buffer bs = Some b) bufs pool.
Proof.
  intros Hreq Hr Hcount Hcalloc Hscript Hlen Hmaps. unfold init_mmap.
  change requested_buffers with 6. rewrite Hreq.
  destruct (Z.eqb_spec (io_r req) (-1)); [contradiction|].
  destruct (Z.ltb_spec (io_arg req) 2); [lia|].
  rewrite Hcalloc, Hscript.
  destruct (map_buffers_prefix pool []
              (replicate (Z.to_nat (io_arg req)) zero_buffer)
              (set_n_buffers 0
                 (set_buffers (replicate (Z.to_nat (io_arg req)) zero_buffer)
                    g))
              (io_arg req) rest) as (new & Hnew & Hrun);
    [reflexivity | reflexivity | rewrite length_replicate; lia
    | cbn [length]; lia | exact Hmaps |].
  exists new. fold zero_buffer. rewrite Hrun.
  cbn [length app]. change (Z.of_nat 0) with 0. rewrite Z.add_0_l, Hlen.
  rewrite drop_ge, app_nil_r by (rewrite length_replicate; lia).
  rewrite map_buffers_done by (cbn [n_buffers set_n_buffers]; lia).
  split; [reflexivity | exact Hnew].
Qed.


(** X22.  When the driver grants [count] buffers, at least two, and
    each of them is queried and mapped, [init_mmap] returns with
    [n_buffers = count] and with [buffers] holding, for each buffer in
    the order of the indices, the address [mmap] returned and the
    length the driver reported; nothing else of the state changes.
    The count is the one the driver grants, not the six asked for. *)
Theorem init_mmap_pool
    (s : mmap_script) (g : globals) (req : ioctl_ret Z)
    (pool rest : list buffer_script) :
  xioctl (ms_reqbufs s 6) = Some req ->
  io_r req <> -1 ->
  2 <= io_arg req < 2 ^ 32 ->
  ms_calloc s = true ->
  ms_buffers s = pool ++ rest ->
  Z.of_nat (length pool) = io_arg req ->
  Forall (fun bs => buffer_maps bs = true) pool ->
  exists bufs : list buffer,
    init_mmap s g = Return (set_n_buffers (io_arg req) (set_buffers bufs g))
    /\ Forall2 (fun b bs => mapped_buffer bs = Some b) bufs pool
    /\ Z.of_nat (length bufs) = io_arg req.
Proof.
  intros Hreq Hr Hcount Hcalloc Hscript Hlen Hmaps.
  destruct (init_mmap_maps s g req pool rest) as (bufs & Hrun & Hbufs);
    try assumption.
  exists bufs. split; [exact Hrun|]. split; [exact Hbufs|].
  apply Forall2_length in Hbufs. lia.
Qed.

Lemma init_mmap_pool_witness :
  let s :=
    pool_script (reqbufs_answer 0 (Eother 0) 3)
      ([good_buffer 4096; good_buffer 8192; good_buffer 12288]
       ++ [good_buffer 16384]) in
  let g := first_frame V4L2_PIX_FMT_YUYV in
  exists bufs : list buffer,
    init_mmap s g = Return (set_n_buffers 3 (set_buffers bufs g))
    /\ Forall2 (fun b bs => mapped_buffer bs = Some b) bufs
         [good_buffer 4096; good_buffer 8192; good_buffer 12288]
    /\ Z.of_nat (length bufs) = 3.
Proof.
  intros s g.
  apply (init_mmap_pool s g
           {| io_r := 0; io_errno := Eother 0; io_arg := 3 |}
           [good_buffer 4096; good_buffer 8192; good_buffer 12288]
           [good_buffer 16384]).
  - reflexivity.
  - discriminate.
  - cbn. lia.
  - reflexivity.
  - reflexivity.
  - reflexivity.
  - repeat constructor.
Defined.

(** X23.  The other ways [init_mmap] fails.  A request refused with
    an error other than [EINVAL] exits with the diagnostic of
    [VIDIOC_REQBUFS]; a failed [calloc] exits with [Out of memory];
    and when the query of a buffer fails after [k] buffers were
    mapped, the process exits with the diagnostic of
    [VIDIOC_QUERYBUF], [n_buffers] standing at [k]. *)
Theorem init_mmap_other_failures
    (s : mmap_script) (g : globals) (req : ioctl_ret Z) :
  xioctl (ms_reqbufs s 6) = Some req ->
  (io_r req = -1 ->
   io_errno req <> EINVAL ->
   init_mmap s g
   = Exit EXIT_FAILURE (ErrnoExit "VIDIOC_REQBUFS" (io_errno req)) g)
  /\ (io_r req <> -1 ->
      2 <= io_arg req ->
      ms_calloc s = false ->
      init_mmap s g = Exit EXIT_FAILURE (Message "Out of memory") g)
  /\ (io_r req <> -1 ->
      2 <= io_arg req < 2 ^ 32 ->
      ms_calloc s = true ->
      forall (pool : list buffer_script) (bs : buffer_script)
             (rest : list buffer_script) (qb : ioctl_ret querybuf),
        ms_buffers s = pool ++ bs :: rest ->
        Z.of_nat (length pool) < io_arg req ->
        Forall (fun b => buffer_maps b = true) pool ->
        xioctl (bs_querybuf bs) = Some qb ->
        io_r qb = -1 ->
        exists g',
          init_mmap s g
          = Exit EXIT_FAILURE (ErrnoExit "VIDIOC_QUERYBUF" (io_errno qb)) g'
          /\ n_buffers g' = Z.of_nat (length pool)).
Proof.
  intros Hreq. unfold init_mmap. change requested_buffers with 6.
  rewrite Hreq. split; [|split].
  - intros -> He. change (-1 =? -1) with true. cbv iota.
    destruct (io_errno req); try reflexivity. contradiction.
  - intros Hr Hcount ->.
    destruct (Z.eqb_spec (io_r req) (-1)); [contradiction|].
    destruct (Z.ltb_spec (io_arg req) 2); [lia | reflexivity].
  - intros Hr Hcount -> pool bs rest qb -> Hlen Hmaps Hq Hqr.
    destruct (Z.eqb_spec (io_r req) (-1)); [contradiction|].
    destruct (Z.ltb_spec (io_arg req) 2); [lia|].
    destruct (map_buffers_prefix pool []
                (replicate (Z.to_nat (io_arg req)) zero_buffer)
                (set_n_buffers 0
                   (set_buffers
                      (replicate (Z.to_nat (io_arg req)) zero_buffer) g))
                (io_arg req) (bs :: rest)) as (new & Hnew & Hrun);
      [reflexivity | reflexivity | rewrite length_replicate; lia
      | cbn [length]; lia | exact Hmaps |].
    fold zero_buffer. rewrite Hrun. cbn [map_buffers n_buffers set_n_buffers].
    cbn [length]. change (Z.of_nat 0) with 0. rewrite Z.add_0_l.
    destruct (Z.ltb_spec (Z.of_nat (length pool)) (io_arg req)); [|lia].
    rewrite Hq, Hqr. change (-1 =? -1) with true. cbv iota.
    eexists. split; reflexivity.
Qed.

Lemma init_mmap_other_failures_witness :
  let g := first_frame V4L2_PIX_FMT_YUYV in
  let refused := {| io_r := -1; io_errno := EIO;
                    io_arg := {| qb_length := 0; qb_offset := 0 |} |} in
  let unknown := {| bs_querybuf := [refused];
                    bs_mmap := fun _ _ => Mapped 0 |} in
  init_mmap (pool_script (reqbufs_answer (-1) EAGAIN 6) []) g
  = Exit EXIT_FAILURE (ErrnoExit "VIDIOC_REQBUFS" EAGAIN) g
  /\ init_mmap
       {| ms_reqbufs := reqbufs_answer 0 (Eother 0) 4; ms_calloc := false;
          ms_buffers := [] |} g
     = Exit EXIT_FAILURE (Message "Out of memory") g
  /\ exists g',
       init_mmap
         (pool_script (reqbufs_answer 0 (Eother 0) 4)
            ([good_buffer 4096; good_buffer 8192]
             ++ unknown :: [good_buffer 12288])) g
       = Exit EXIT_FAILURE (ErrnoExit "VIDIOC_QUERYBUF" EIO) g'
       /\ n_buffers g' = 2.
Proof.
  intros g refused unknown. split; [|split].
  - apply (init_mmap_other_failures
             (pool_script (reqbufs_answer (-1) EAGAIN 6) []) g
             {| io_r := -1; io_errno := EAGAIN; io_arg := 6 |});
      [reflexivity | reflexivity | discriminate].
  - apply (init_mmap_other_failures
             {| ms_reqbufs := reqbufs_answer 0 (Eother 0) 4;
                ms_calloc := false; ms_buffers := [] |} g
             {| io_r := 0; io_errno := Eother 0; io_arg := 4 |});
      [reflexivity | discriminate | cbn; lia | reflexivity].
  - destruct (init_mmap_other_failures
                (pool_script (reqbufs_answer 0 (Eother 0) 4)
                   ([good_buffer 4096; good_buffer 8192]
                    ++ unknown :: [good_buffer 12288]))
                g {| io_r := 0; io_errno := Eother 0; io_arg := 4 |}
                eq_refl) as (_ & _ & H).
    apply (H ltac:(discriminate) ltac:(cbn; lia) eq_refl
             [good_buffer 4096; good_buffer 8192] unknown
             [good_buffer 12288] refused eq_refl ltac:(cbn; lia)).
    + repeat constructor.
    + reflexivity.
    + reflexivity.
Defined.

End Pool.


(** ** Opening and initialising the device *)

Section DeviceSetup.

(** X24.  [open_device] returns exactly when [stat] succeeds on
    [dev_name], the path is a character device and [open] gives a
    descriptor; then [fd] is that descriptor and nothing else has
    changed.  A path that [stat] rejects, or one that is not a
    character device, is never opened: what [open] would answer does
    not matter. *)
Theorem open_device_outcomes (s : open_script) (d : device) :
  (forall d',
      open_device s d = Return d'
      <-> st_r (od_stat s (dev_name d)) <> -1
          /\ st_ischr (od_stat s (dev_name d)) = true
          /\ (od_open s (dev_name d)).1 <> -1
          /\ d' = set_fd (od_open s (dev_name d)).1 d)
  /\ (st_r (od_stat s (dev_name d)) = -1
      \/ st_ischr (od_stat s (dev_name d)) = false ->
      forall open, open_device (with_open open s) d = open_device s d).
Proof.
  unfold open_device. cbn [od_stat od_open with_open].
  destruct (Z.eqb_spec (st_r (od_stat s (dev_name d))) (-1)) as [Hst|Hst].
  { split; [|reflexivity]. intros d'. split; [discriminate|].
    intros [H _]. contradiction. }
  destruct (st_ischr (od_stat s (dev_name d))) eqn:Hchr; cbn [negb].
  - split; [|intros [H|H]; [contradiction | discriminate]].
    intros d'. cbn [fd set_fd vars dev_name].
    destruct (Z.eqb_spec (od_open s (dev_name d)).1 (-1)) as [Hfd|Hfd].
    + split; [discriminate|]. intros (_ & _ & H & _). contradiction.
    + split; [intros [= <-]; auto|]. intros (_ & _ & _ & ->). reflexivity.
  - split; [|reflexivity]. intros d'. split; [discriminate|].
    intros (_ & H & _). discriminate.
Qed.

Lemma land_bit (a n : Z) :
  0 <= n -> (Z.land a (2 ^ n) =? 0) = negb (Z.testbit a n).
Proof.
  intros Hn. destruct (Z.testbit a n) eqn:E; cbn [negb].
  - apply Z.eqb_neq. intros H.
    apply (f_equal (fun z => Z.testbit z n)) in H.
    rewrite Z.land_spec, E, Z.pow2_bits_true, Z.bits_0 in H by exact Hn.
    discriminate.
  - apply Z.eqb_eq. apply Z.bits_inj'. intros m Hm.
    rewrite Z.land_spec, Z.pow2_bits_eqb, Z.bits_0 by exact Hn.
    destruct (Z.eqb_spec n m) as [<-|]; [rewrite E|]; apply andb_false_r
      || reflexivity.
Qed.

Lemma map_buffers_returns (script : list buffer_script) :
  forall (count : Z) (g g' : globals),
    0 <= n_buffers g <= count ->
    map_buffers script count g = Return g' ->
    n_buffers g' = count
    /\ length (buffers g') = length (buffers g)
    /\ exists bufs, g' = set_n_buffers count (set_buffers bufs g).
Proof.
  induction script as [|bs script IH]; intros count g g' Hn;
    cbn [map_buffers]; destruct (Z.ltb_spec (n_buffers g) count) as [Hlt|Hge];
    try discriminate;
    try (intros [= <-]; split; [lia|]; split; [reflexivity|];
         exists (buffers g); symmetry; apply set_pool_id; [reflexivity | lia]).
  destruct (xioctl (bs_querybuf bs)) as [qb|]; [|discriminate].
  destruct (io_r qb =? -1); [discriminate|].
  destruct (bs_mmap bs _ _) as [addr|e]; [|discriminate].
  intros Hrun. apply IH in Hrun as (Hc & Hl & bufs & ->).
  - split; [exact Hc|]. split.
    + rewrite Hl. cbn [buffers set_buffers set_n_buffers].
      apply length_insert.
    + exists bufs. reflexivity.
  - cbn [n_buffers set_buffers set_n_buffers]. unfold to_uint.
    pose proof (Z.mod_pos_bound (n_buffers g + 1) (2 ^ 32) ltac:(lia)).
    pose proof (Z.mod_le (n_buffers g + 1) (2 ^ 32) ltac:(lia) ltac:(lia)).
    lia.
Qed.

Lemma init_mmap_returns (s : mmap_script) (g g' : globals) :
  init_mmap s g = Return g' ->
  2 <= n_buffers g'
  /\ Z.of_nat (length (buffers g')) = n_buffers g'
  /\ exists bufs, g' = set_n_buffers (n_buffers g') (set_buffers bufs g).
Proof.
  unfold init_mmap.
  destruct (xioctl (ms_reqbufs s requested_buffers)) as [req|];
    [|discriminate].
  destruct (io_r req =? -1); [destruct (io_errno req); discriminate|].
  destruct (Z.ltb_spec (io_arg req) 2); [discriminate|].
  destruct (ms_calloc s); [|discriminate].
  intros Hrun. apply map_buffers_returns in Hrun as (Hc & Hl & bufs & ->);
    [|cbn [n_buffers set_n_buffers]; lia].
  cbn [n_buffers buffers set_buffers set_n_buffers] in *.
  split; [lia|]. split.
  - rewrite Hl, length_replicate. lia.
  - exists bufs. reflexivity.
Qed.

Lemma reset_crop_outcomes (s : init_script) (g : globals) :
  reset_crop s g = Return tt \/ reset_crop s g = Starved g.
Proof.
  unfold reset_crop. destruct (xioctl (id_cropcap s)) as [cc|]; [|auto].
  destruct (io_r cc =? 0); [|auto].
  destruct (xioctl (id_s_crop s (io_arg cc))); auto.
Qed.

Lemma paranoia_bounds (d : device) :
  let d' := buggy_driver_paranoia d in
  to_uint (fmt_width d' * 2) <= fmt_bytesperline d'
  /\ to_uint (fmt_bytesperline d' * fmt_height d') <= fmt_sizeimage d'
  /\ fmt_width d' = fmt_width d /\ fmt_height d' = fmt_height d
  /\ vars d' = vars d /\ fd d' = fd d /\ dev_name d' = dev_name d.
Proof.
  unfold buggy_driver_paranoia. cbv zeta.
  destruct (Z.ltb_spec (fmt_bytesperline d) (to_uint (fmt_width d * 2)));
    cbn [fmt_bytesperline fmt_height fmt_width fmt_sizeimage
         set_fmt_bytesperline];
    match goal with
    | |- context [if ?a <? ?b then _ else _] => destruct (Z.ltb_spec a b)
    end;
    cbn [fmt_bytesperline fmt_height fmt_width fmt_sizeimage vars fd dev_name
         set_fmt_bytesperline set_fmt_sizeimage];
    repeat split; lia.
Qed.

Lemma init_device_inv (s : init_script) (d d' : device) :
  init_device s d = Return d' ->
  exists (qc : ioctl_ret Z) (fa : ioctl_ret v4l2_pix_format),
    xioctl (id_querycap s) = Some qc
    /\ io_r qc <> -1
    /\ Z.testbit (io_arg qc) 0 = true
    /\ Z.testbit (io_arg qc) 26 = true
    /\ xioctl (id_s_fmt s fmt_request) = Some fa
    /\ io_r fa <> -1
    /\ fmt_pixelformat (vars d') = pix_pixelformat (io_arg fa)
    /\ fmt_width d' = pix_width (io_arg fa)
    /\ fmt_height d' = pix_height (io_arg fa)
    /\ to_uint (fmt_width d' * 2) <= fmt_bytesperline d'
    /\ to_uint (fmt_bytesperline d' * fmt_height d') <= fmt_sizeimage d'
    /\ 2 <= n_buffers (vars d')
    /\ Z.of_nat (length (buffers (vars d'))) = n_buffers (vars d')
    /\ fd d' = fd d
    /\ dev_name d' = dev_name d
    /\ files (vars d') = files (vars d)
    /\ framecnt (vars d') = framecnt (vars d)
    /\ frame_count (vars d') = frame_count (vars d)
    /\ ppm_dumpname (vars d') = ppm_dumpname (vars d).
Proof.
  unfold init_device.
  destruct (xioctl (id_querycap s)) as [qc|] eqn:Hqc; [|discriminate].
  destruct (Z.eqb_spec (io_r qc) (-1)) as [|Hr];
    [destruct (io_errno qc); discriminate|].
  change V4L2_CAP_VIDEO_CAPTURE with (2 ^ 0).
  change V4L2_CAP_STREAMING with (2 ^ 26). rewrite !land_bit by lia.
  destruct (Z.testbit (io_arg qc) 0) eqn:Hcap; [|discriminate].
  destruct (Z.testbit (io_arg qc) 26) eqn:Hstr; [|discriminate].
  cbn [negb].
  destruct (reset_crop_outcomes s (vars d)) as [-> | ->]; [|discriminate].
  cbn [mbind result_bind]. unfold set_format.
  change (negb (force_format =? 0)) with true. cbv iota zeta.
  change (fmt_pix (set_fmt_pix _ (set_fmt_pix fmt_cleared d)))
    with fmt_request.
  destruct (xioctl (id_s_fmt s fmt_request)) as [fa|] eqn:Hfa;
    [|discriminate].
  destruct (Z.eqb_spec (io_r fa) (-1)) as [|Hfr]; [discriminate|].
  cbn [mbind result_bind].
  match goal with
  | |- context [buggy_driver_paranoia ?x] => set (d1 := x)
  end.
  destruct (paranoia_bounds d1) as (Hb1 & Hb2 & Hw & Hh & Hv & Hfd & Hdn).
  set (d2 := buggy_driver_paranoia d1) in *.
  destruct (init_mmap (id_mmap s) (vars d2)) as [g'| | | |] eqn:Hmm;
    try discriminate.
  cbn [mbind result_bind]. intros [= <-].
  apply init_mmap_returns in Hmm as (Hn & Hl & bufs & Hg).
  assert (Hpf : fmt_pixelformat g' = pix_pixelformat (io_arg fa))
    by (rewrite Hg, Hv; reflexivity).
  assert (Hfiles : files g' = files (vars d))
    by (rewrite Hg, Hv; reflexivity).
  assert (Hcnt : framecnt g' = framecnt (vars d))
    by (rewrite Hg, Hv; reflexivity).
  assert (Hbud : frame_count g' = frame_count (vars d))
    by (rewrite Hg, Hv; reflexivity).
  assert (Hnam : ppm_dumpname g' = ppm_dumpname (vars d))
    by (rewrite Hg, Hv; reflexivity).
  exists qc, fa.
  cbn [vars fd dev_name fmt_width fmt_height fmt_bytesperline fmt_sizeimage
       set_vars].
  repeat (split; [first [assumption | reflexivity]|]). assumption.
Qed.

(** X25.  What holds when [init_device] returns.  The device
    reported both the capture and the streaming capability; the
    format in [fmt] is the one the driver answered to a request for
    320 by 240 pixels in YUYV without interlacing, not the request
    itself; [bytesperline] is at least twice the width and
    [sizeimage] at least [bytesperline] times the height (in
    [unsigned] arithmetic); and the pool has at least two buffers, as
    many as [n_buffers] says.  The descriptor, the device name, the
    files and the frame counter are as they were. *)
Theorem init_device_returns (s : init_script) (d d' : device) :
  init_device s d = Return d' ->
  exists (qc : ioctl_ret Z) (fa : ioctl_ret v4l2_pix_format),
    xioctl (id_querycap s) = Some qc
    /\ io_r qc <> -1
    /\ Z.testbit (io_arg qc) 0 = true
    /\ Z.testbit (io_arg qc) 26 = true
    /\ xioctl (id_s_fmt s fmt_request) = Some fa
    /\ io_r fa <> -1
    /\ fmt_pixelformat (vars d') = pix_pixelformat (io_arg fa)
    /\ fmt_width d' = pix_width (io_arg fa)
    /\ fmt_height d' = pix_height (io_arg fa)
    /\ to_uint (fmt_width d' * 2) <= fmt_bytesperline d'
    /\ to_uint (fmt_bytesperline d' * fmt_height d') <= fmt_sizeimage d'
    /\ 2 <= n_buffers (vars d')
    /\ Z.of_nat (length (buffers (vars d'))) = n_buffers (vars d')
    /\ fd d' = fd d
    /\ dev_name d' = dev_name d
    /\ files (vars d') = files (vars d)
    /\ framecnt (vars d') = framecnt (vars d).
Proof.
  intros Hrun.
  destruct (init_device_inv s d d' Hrun)
    as (qc & fa & H1 & H2 & H3 & H4 & H5 & H6 & H7 & H8 & H9 & H10 & H11
        & H12 & H13 & H14 & H15 & H16 & H17 & _).
  exists qc, fa. repeat (split; [assumption|]). assumption.
Qed.

Lemma init_device_returns_witness :
  let d := set_fd 3 (set_dev_name "/dev/video0" (startup ∅)) in
  let d' :=
    {| dev_name := "/dev/video0"; fd := 3; fmt_width := 320;
       fmt_height := 240; fmt_field := 1; fmt_bytesperline := 640;
       fmt_sizeimage := 153600;
       vars :=
         set_n_buffers 2
           (set_buffers
              [{| buf_start := 4096; buf_length := 153600 |};
               {| buf_start := 8192; buf_length := 153600 |}]
              (initial V4L2_PIX_FMT_RGB24 ∅)) |} in
  let s := sample_init V4L2_PIX_FMT_RGB24 in
  exists (qc : ioctl_ret Z) (fa : ioctl_ret v4l2_pix_format),
    xioctl (id_querycap s) = Some qc
    /\ io_r qc <> -1
    /\ Z.testbit (io_arg qc) 0 = true
    /\ Z.testbit (io_arg qc) 26 = true
    /\ xioctl (id_s_fmt s fmt_request) = Some fa
    /\ io_r fa <> -1
    /\ fmt_pixelformat (vars d') = pix_pixelformat (io_arg fa)
    /\ fmt_width d' = pix_width (io_arg fa)
    /\ fmt_height d' = pix_height (io_arg fa)
    /\ to_uint (fmt_width d' * 2) <= fmt_bytesperline d'
    /\ to_uint (fmt_bytesperline d' * fmt_height d') <= fmt_sizeimage d'
    /\ 2 <= n_buffers (vars d')
    /\ Z.of_nat (length (buffers (vars d'))) = n_buffers (vars d')
    /\ fd d' = fd d
    /\ dev_name d' = dev_name d
    /\ files (vars d') = files (vars d)
    /\ framecnt (vars d') = framecnt (vars d).
Proof.
  intros d d' s. apply (init_device_returns s d d'). reflexivity.
Defined.

End DeviceSetup.


(** ** Cropping, streaming and tear-down *)

Section Streaming.

(** X26.  No answer to the two cropping calls is fatal: as long as
    [VIDIOC_CROPCAP] and [VIDIOC_S_CROP] are answered at all, whether
    they succeed or fail, and with whatever error, [init_device] does
    the same. *)
Theorem init_device_ignores_crop
    (s : init_script) (d : device)
    (cropcap : list (ioctl_ret v4l2_rect))
    (s_crop : v4l2_rect -> list (ioctl_ret unit)) :
  is_Some (xioctl (id_cropcap s)) ->
  (forall r, is_Some (xioctl (id_s_crop s r))) ->
  is_Some (xioctl cropcap) ->
  (forall r, is_Some (xioctl (s_crop r))) ->
  init_device (with_crop cropcap s_crop s) d = init_device s d.
Proof.
  intros [cc Hcc] Hsc [cc' Hcc'] Hsc'.
  assert (H1 : reset_crop s (vars d) = Return tt).
  { unfold reset_crop. rewrite Hcc. destruct (io_r cc =? 0); [|reflexivity].
    destruct (Hsc (io_arg cc)) as [a ->]. reflexivity. }
  assert (H2 : reset_crop (with_crop cropcap s_crop s) (vars d) = Return tt).
  { unfold reset_crop. cbn [with_crop id_cropcap id_s_crop]. rewrite Hcc'.
    destruct (io_r cc' =? 0); [|reflexivity].
    destruct (Hsc' (io_arg cc')) as [a ->]. reflexivity. }
  unfold init_device. rewrite H1, H2. reflexivity.
Qed.

Lemma init_device_ignores_crop_witness :
  init_device
    (with_crop
       [{| io_r := 0; io_errno := Eother 0;
           io_arg := {| rect_left := 0; rect_top := 0; rect_width := 640;
                        rect_height := 480 |} |}]
       (fun _ => [{| io_r := -1; io_errno := EIO; io_arg := tt |}])
       (sample_init V4L2_PIX_FMT_YUYV))
    (startup ∅)
  = init_device (sample_init V4L2_PIX_FMT_YUYV) (startup ∅).
Proof.
  apply (init_device_ignores_crop (sample_init V4L2_PIX_FMT_YUYV) (startup ∅)).
  - eexists. reflexivity.
  - intros r. eexists. reflexivity.
  - eexists. reflexivity.
  - intros r. eexists. reflexivity.
Defined.

Lemma queue_buffers_prefix (qs : list (Z -> list (ioctl_ret unit))) :
  forall (i : Z) (rest : list (Z -> list (ioctl_ret unit))) (g : globals),
    0 <= i ->
    i + Z.of_nat (length qs) <= n_buffers g < 2 ^ 32 ->
    (forall (j : nat) f, qs !! j = Some f -> succeeds (f (i + Z.of_nat j))) ->
    queue_buffers (qs ++ rest) i g
    = queue_buffers rest (i + Z.of_nat (length qs)) g.
Proof.
  induction qs as [|f qs IH]; intros i rest g Hi Hn Hok.
  - cbn [app length]. rewrite Z.add_0_r. reflexivity.
  - cbn [app length queue_buffers] in *.
    destruct (Z.ltb_spec i (n_buffers g)); [|lia].
    destruct (Hok 0%nat f eq_refl) as (a & Ha & Hr).
    rewrite Z.add_0_r in Ha. rewrite Ha.
    destruct (Z.eqb_spec (io_r a) (-1)); [contradiction|].
    assert (Hnext : to_uint (i + 1) = i + 1)
      by (unfold to_uint; apply Z.mod_small; lia).
    rewrite Hnext, IH; [f_equal; lia | lia | lia |].
    intros j f' Hj. replace (i + 1 + Z.of_nat j) with (i + Z.of_nat (S j))
      by lia. apply Hok. exact Hj.
Qed.

Lemma queue_buffers_done (rest : list (Z -> list (ioctl_ret unit))) (i : Z)
    (g : globals) :
  n_buffers g <= i -> queue_buffers rest i g = Return tt.
Proof.
  intros H. destruct rest; cbn [queue_buffers];
    destruct (Z.ltb_spec i (n_buffers g)); try lia; reflexivity.
Qed.

(** X27.  [start_capturing] queues every buffer of the pool once, in
    the order of the indices 0 to [n_buffers - 1], and then starts the
    stream.  It returns when each of these calls succeeds; the first
    [VIDIOC_QBUF] that fails ends the process with its diagnostic,
    the buffers after it are not queued and the stream is not
    started; when all buffers are queued a failure of
    [VIDIOC_STREAMON] ends it. *)
Theorem start_capturing_outcomes (s : capture_script) (g : globals) :
  0 <= n_buffers g < 2 ^ 32 ->
  (forall qs rest,
      sc_qbuf s = qs ++ rest ->
      Z.of_nat (length qs) = n_buffers g ->
      (forall (i : nat) f, qs !! i = Some f -> succeeds (f (Z.of_nat i))) ->
      (succeeds (sc_streamon s) -> start_capturing s g = Return tt)
      /\ (forall r,
             xioctl (sc_streamon s) = Some r ->
             io_r r = -1 ->
             start_capturing s g
             = Exit EXIT_FAILURE (ErrnoExit "VIDIOC_STREAMON" (io_errno r)) g))
  /\ (forall qs f rest q,
         sc_qbuf s = qs ++ f :: rest ->
         Z.of_nat (length qs) < n_buffers g ->
         (forall (i : nat) f', qs !! i = Some f' ->
                               succeeds (f' (Z.of_nat i))) ->
         xioctl (f (Z.of_nat (length qs))) = Some q ->
         io_r q = -1 ->
         start_capturing s g
         = Exit EXIT_FAILURE (ErrnoExit "VIDIOC_QBUF" (io_errno q)) g).
Proof.
  intros Hn. unfold start_capturing. split.
  - intros qs rest -> Hlen Hok.
    assert (Hq : queue_buffers (qs ++ rest) 0 g = Return tt).
    { rewrite queue_buffers_prefix;
        [apply queue_buffers_done; lia | lia | lia |].
      intros j f Hj. rewrite Z.add_0_l. exact (Hok j f Hj). }
    rewrite Hq. cbn [mbind result_bind]. split.
    + intros (a & -> & Hr).
      destruct (Z.eqb_spec (io_r a) (-1)); [contradiction | reflexivity].
    + intros r -> ->. reflexivity.
  - intros qs f rest q -> Hlen Hok Hq Hr.
    rewrite queue_buffers_prefix;
      [|lia | lia | intros j f' Hj; rewrite Z.add_0_l; exact (Hok j f' Hj)].
    cbn [queue_buffers]. rewrite Z.add_0_l.
    destruct (Z.ltb_spec (Z.of_nat (length qs)) (n_buffers g)); [|lia].
    rewrite Hq, Hr. reflexivity.
Qed.

Lemma start_capturing_outcomes_witness :
  let g := streaming V4L2_PIX_FMT_YUYV 2 in
  let refuse := fun i : Z =>
    if i =? 2 then [{| io_r := -1; io_errno := EIO; io_arg := tt |}]
    else ioctl_ok in
  start_capturing
    {| sc_qbuf := replicate 6 refuse; sc_streamon := ioctl_ok |} g
  = Exit EXIT_FAILURE (ErrnoExit "VIDIOC_QBUF" EIO) g.
Proof.
  intros g refuse.
  destruct (start_capturing_outcomes
              {| sc_qbuf := replicate 6 refuse; sc_streamon := ioctl_ok |} g)
    as [_ H]; [cbn; lia|].
  apply (H (replicate 2 refuse) refuse (replicate 3 refuse)
           {| io_r := -1; io_errno := EIO; io_arg := tt |}).
  - reflexivity.
  - cbn. lia.
  - intros i f Hi. destruct i as [|[|i]]; cbn in Hi; try discriminate;
      injection Hi as <-; eexists; (split; [reflexivity | discriminate]).
  - reflexivity.
  - reflexivity.
Defined.

Lemma unmap_buffers_prefix (fs : list (Z -> Z -> Z * errno)) :
  forall (unmapped bs todo : list buffer)
         (rest : list (Z -> Z -> Z * errno)) (g : globals),
    buffers g = unmapped ++ bs ++ todo ->
    Z.of_nat (length (buffers g)) <= n_buffers g < 2 ^ 32 ->
    Forall2 unmaps fs bs ->
    unmap_buffers (fs ++ rest) (Z.of_nat (length unmapped)) g
    = unmap_buffers rest (Z.of_nat (length unmapped + length bs)) g.
Proof.
  induction fs as [|f fs IH]; intros unmapped bs todo rest g Hb Hn Hok.
  - apply Forall2_nil_inv_l in Hok as ->. cbn [app length].
    rewrite Nat.add_0_r. reflexivity.
  - apply Forall2_cons_inv_l in Hok as (b & bs' & Hf & Hok & ->).
    assert (Hlen : Z.of_nat (length unmapped) < n_buffers g).
    { rewrite Hb, !length_app in Hn. cbn [length] in Hn. lia. }
    cbn [app unmap_buffers].
    destruct (Z.ltb_spec (Z.of_nat (length unmapped)) (n_buffers g)); [|lia].
    assert (Hlook : buffers g !! length unmapped = Some b)
      by (rewrite Hb; cbn [app]; apply list_lookup_middle; reflexivity).
    rewrite Nat2Z.id, Hlook. unfold unmaps in Hf.
    destruct (f (buf_start b) (buf_length b)) as [r e]. cbn [fst] in Hf.
    destruct (Z.eqb_spec r (-1)); [contradiction|].
    assert (Hnext : to_uint (Z.of_nat (length unmapped) + 1)
                    = Z.of_nat (length (unmapped ++ [b]))).
    { rewrite length_app. cbn [length]. unfold to_uint.
      rewrite Z.mod_small; lia. }
    rewrite Hnext, (IH (unmapped ++ [b]) bs' todo rest g);
      [|rewrite Hb, <- app_assoc; reflexivity | exact Hn | exact Hok].
    rewrite length_app. cbn [length]. f_equal. lia.
Qed.

(** X28.  [uninit_device] unmaps the buffers of the pool one by one,
    each with the address and the length [buffers] holds for it, and
    then frees the array.  When [n_buffers] is the size of the array
    it reads no entry outside of it.  It returns when every [munmap]
    succeeds; the first one that fails ends the process with the
    diagnostic of [munmap], the buffers after it still mapped and the
    array not freed. *)
Theorem uninit_device_outcomes
    (script : list (Z -> Z -> Z * errno)) (g : globals) :
  n_buffers g = Z.of_nat (length (buffers g)) ->
  n_buffers g < 2 ^ 32 ->
  (forall fs rest,
      script = fs ++ rest ->
      Forall2 unmaps fs (buffers g) ->
      uninit_device script g = Return (set_buffers [] g))
  /\ (forall fs f rest unmapped b todo e,
         script = fs ++ f :: rest ->
         buffers g = unmapped ++ b :: todo ->
         Forall2 unmaps fs unmapped ->
         f (buf_start b) (buf_length b) = (-1, e) ->
         uninit_device script g
         = Exit EXIT_FAILURE (ErrnoExit "munmap" e) g).
Proof.
  intros Hn Hlt. unfold uninit_device. split.
  - intros fs rest -> Hok.
    pose proof (unmap_buffers_prefix fs [] (buffers g) [] rest g) as Hrun.
    cbn [length Nat.add app] in Hrun. change (Z.of_nat 0) with 0 in Hrun.
    rewrite Hrun; [|rewrite app_nil_r; reflexivity | lia | exact Hok].
    assert (Hdone : unmap_buffers rest (Z.of_nat (length (buffers g))) g
                    = Return tt).
    { destruct rest; cbn [unmap_buffers];
        destruct (Z.ltb_spec (Z.of_nat (length (buffers g))) (n_buffers g));
        try lia; reflexivity. }
    rewrite Hdone. reflexivity.
  - intros fs f rest unmapped b todo e -> Hb Hok Hf.
    pose proof (unmap_buffers_prefix fs [] unmapped (b :: todo) (f :: rest) g)
      as Hrun.
    cbn [length Nat.add app] in Hrun. change (Z.of_nat 0) with 0 in Hrun.
    rewrite Hrun; [|exact Hb | lia | exact Hok].
    cbn [unmap_buffers].
    assert (Hlen : Z.of_nat (length unmapped) < n_buffers g).
    { rewrite Hn, Hb, length_app. cbn [length]. lia. }
    destruct (Z.ltb_spec (Z.of_nat (length unmapped)) (n_buffers g)); [|lia].
    assert (Hlook : buffers g !! length unmapped = Some b)
      by (rewrite Hb; apply list_lookup_middle; reflexivity).
    rewrite Nat2Z.id, Hlook, Hf. reflexivity.
Qed.

Lemma uninit_device_outcomes_witness :
  let g :=
    set_n_buffers 2
      (set_buffers
         [{| buf_start := 4096; buf_length := 153600 |};
          {| buf_start := 8192; buf_length := 153600 |}]
         (first_frame V4L2_PIX_FMT_YUYV)) in
  let munmap := fun addr _ : Z =>
    if addr =? 8192 then (-1, EINVAL) else (0, Eother 0) in
  uninit_device [munmap; munmap] g
  = Exit EXIT_FAILURE (ErrnoExit "munmap" EINVAL) g.
Proof.
  intros g munmap.
  destruct (uninit_device_outcomes [munmap; munmap] g) as [_ H];
    [reflexivity | cbn; lia |].
  apply (H [munmap] munmap []
           [{| buf_start := 4096; buf_length := 153600 |}]
           {| buf_start := 8192; buf_length := 153600 |} [] EINVAL).
  - reflexivity.
  - reflexivity.
  - repeat constructor. cbn. discriminate.
  - reflexivity.
Defined.

End Streaming.


(** ** The whole program *)

Section Main.

Lemma exits_with_failure_bind {A B : Type} (m : result A)
    (k : A -> result B) :
  exits_with_failure m ->
  (forall a, m = Return a -> exits_with_failure (k a)) ->
  exits_with_failure (m ≫= k).
Proof.
  destruct m; cbn [mbind result_bind exits_with_failure]; auto.
Qed.

Lemma xioctl_exit_failure {A : Type} (script : list (ioctl_ret A))
    (s : string) (g : globals) :
  exits_with_failure
    (match xioctl script with
     | None => Starved g
     | Some r =>
         if io_r r =? -1 then errno_exit s (io_errno r) g else Return tt
     end).
Proof.
  destruct (xioctl script) as [r|]; [|exact I].
  destruct (io_r r =? -1); [reflexivity | exact I].
Qed.

Lemma open_device_exit (s : open_script) (d : device) :
  exits_with_failure (open_device s d).
Proof.
  unfold open_device. destruct (_ =? -1); [reflexivity|].
  destruct (negb _); [reflexivity|].
  destruct (_ =? -1); [reflexivity | exact I].
Qed.

Lemma map_buffers_exit (script : list buffer_script) :
  forall (count : Z) (g : globals),
    exits_with_failure (map_buffers script count g).
Proof.
  induction script as [|bs script IH]; intros count g; cbn [map_buffers];
    destruct (n_buffers g <? count); try exact I.
  destruct (xioctl (bs_querybuf bs)) as [qb|]; [|exact I].
  destruct (io_r qb =? -1); [reflexivity|].
  destruct (bs_mmap bs _ _); [apply IH | reflexivity].
Qed.

Lemma init_mmap_exit (s : mmap_script) (g : globals) :
  exits_with_failure (init_mmap s g).
Proof.
  unfold init_mmap.
  destruct (xioctl (ms_reqbufs s requested_buffers)) as [req|]; [|exact I].
  destruct (io_r req =? -1); [destruct (io_errno req); reflexivity|].
  destruct (io_arg req <? 2); [reflexivity|].
  destruct (ms_calloc s); [apply map_buffers_exit | reflexivity].
Qed.

Lemma init_device_exit (s : init_script) (d : device) :
  exits_with_failure (init_device s d).
Proof.
  unfold init_device.
  destruct (xioctl (id_querycap s)) as [qc|]; [|exact I].
  destruct (io_r qc =? -1); [destruct (io_errno qc); reflexivity|].
  destruct (_ =? 0); [reflexivity|]. destruct (_ =? 0); [reflexivity|].
  apply exits_with_failure_bind.
  { destruct (reset_crop_outcomes s (vars d)) as [-> | ->]; exact I. }
  intros _ _. apply exits_with_failure_bind.
  { unfold set_format. change (negb (force_format =? 0)) with true.
    cbv iota zeta.
    destruct (xioctl (id_s_fmt s _)) as [a|]; [|exact I].
    destruct (io_r a =? -1); [reflexivity | exact I]. }
  intros d1 _. apply exits_with_failure_bind; [apply init_mmap_exit|].
  intros g _. exact I.
Qed.

Lemma queue_buffers_exit (script : list (Z -> list (ioctl_ret unit))) :
  forall (i : Z) (g : globals), exits_with_failure (queue_buffers script i g).
Proof.
  induction script as [|f script IH]; intros i g; cbn [queue_buffers];
    destruct (i <? n_buffers g); try exact I.
  destruct (xioctl (f i)) as [q|]; [|exact I].
  destruct (io_r q =? -1); [reflexivity | apply IH].
Qed.

Lemma start_capturing_exit (s : capture_script) (g : globals) :
  exits_with_failure (start_capturing s g).
Proof.
  unfold start_capturing. apply exits_with_failure_bind;
    [apply queue_buffers_exit|].
  intros _ _. apply xioctl_exit_failure.
Qed.

Lemma process_image_no_exit p size io (g : globals) :
  match process_image p size io g with
  | Exit _ _ _ | Abort _ => False
  | _ => True
  end.
Proof.
  assert (Hd : forall p' size' tag g1,
             match dump_ppm p' size' tag io g1 with
             | Exit _ _ _ | Abort _ => False
             | _ => True
             end).
  { intros p' size' tag g1. unfold dump_ppm.
    destruct (dump_name _ _) as [name|]; [|exact I].
    destruct (sys_write _ _ _ _ _ _ _) as [g3 off].
    pose proof (write_loop_no_exit (fio_payload io) (fio_open io)
                  (path_of name) off p' size' 0 g3) as H.
    destruct (write_loop _ _ _ _ _ _ _ _) as [[t g4]| | | |];
      cbn [mbind result_bind]; auto. }
  unfold process_image.
  destruct (fmt_pixelformat _); [|apply Hd | exact I].
  destruct (convert_yuyv _ _ _); [|exact I].
  destruct (fits_int (size * 6)); [apply Hd | exact I].
Qed.

Lemma read_frame_exit (it : iteration) (g : globals) :
  exits_with_failure (read_frame it g).
Proof.
  unfold read_frame. destruct (xioctl (it_dqbuf it)) as [dq|]; [|exact I].
  destruct (io_r dq =? -1); [destruct (io_errno dq); try exact I; reflexivity|].
  destruct (index _ <? _); [|exact I].
  pose proof (process_image_no_exit (it_data it)
                (to_int (bytesused (io_arg dq))) (it_io it) g) as H.
  destruct (process_image _ _ _ g); cbn [mbind result_bind];
    try contradiction; try exact I.
  destruct (xioctl (it_qbuf it)) as [q|]; [|exact I].
  destruct (io_r q =? -1); [reflexivity | exact I].
Qed.

Lemma for_loop_outcome (script : list iteration) :
  forall (count : Z) (g : globals),
    0 < count < 2 ^ 32 ->
    match for_loop script count g with
    | Return (g', _) =>
        same_run g g' /\ framecnt g' = to_uint (framecnt g + count)
    | Exit status _ _ => status = EXIT_FAILURE
    | _ => True
    end.
Proof.
  induction script as [|it script IH]; intros count g Hcount;
    cbn [for_loop]; [exact I|].
  destruct (it_select it select_timeout) as [r e].
  destruct (r =? -1).
  { destruct (is_EINTR e); [apply IH; exact Hcount | reflexivity]. }
  destruct (r =? 0); [reflexivity|].
  pose proof (read_frame_outcome it g) as Hread.
  pose proof (read_frame_exit it g) as Hexit.
  destruct (read_frame it g) as [[got s1]|st d s1|s1| |s1];
    cbn [mbind result_bind]; try exact I; [|exact Hexit].
  destruct Hread as [[-> ->] | (-> & Hrun & Hcnt)].
  - change (0 =? 0) with true. cbv iota.
    destruct (Z.leb_spec count 0); [lia|]. apply IH. exact Hcount.
  - change (1 =? 0) with false. cbv iota.
    assert (Hdec : to_uint (count - 1) = count - 1)
      by (unfold to_uint; apply Z.mod_small; lia).
    rewrite Hdec.
    destruct (Z.leb_spec (count - 1) 0).
    { split; [exact Hrun|]. rewrite Hcnt. f_equal. lia. }
    destruct (Z.ltb_spec 0 (count - 1)); [|lia].
    specialize (IH (count - 1) s1 ltac:(lia)).
    destruct (for_loop script (count - 1) s1) as [[g' rest]| | | |];
      try exact IH.
    destruct IH as [Hrun' Hcnt']. split.
    + eapply same_run_trans; eassumption.
    + rewrite Hcnt', Hcnt. apply to_uint_succ_add.
Qed.

Lemma unmap_buffers_exit (script : list (Z -> Z -> Z * errno)) :
  forall (i : Z) (g : globals), exits_with_failure (unmap_buffers script i g).
Proof.
  induction script as [|f script IH]; intros i g; cbn [unmap_buffers];
    destruct (i <? n_buffers g); try exact I;
    destruct (buffers g !! Z.to_nat i) as [b|]; try exact I.
  destruct (f (buf_start b) (buf_length b)) as [r e].
  destruct (r =? -1); [reflexivity | apply IH].
Qed.

(** X29.  What a run of the program comes to.  If [main] returns,
    it returns 0, with the device closed ([fd] is -1), the array of
    buffers freed and exactly thirty frames counted; and whenever the
    process ends by [exit], it does so with [EXIT_FAILURE].  So a
    status of 0 always means thirty frames. *)
Theorem main_outcomes
    (argv : list string) (w : world) (fs : gmap string (list byte)) :
  match main argv w fs with
  | Return (r, d) =>
      r = 0 /\ fd d = -1 /\ buffers (vars d) = []
      /\ framecnt (vars d) = 30
  | Exit status _ _ => status = EXIT_FAILURE
  | _ => True
  end.
Proof.
  unfold main.
  set (d0 := if 1 <? Z.of_nat (length argv)
             then set_dev_name (default "" (argv !! 1%nat)) (startup fs)
             else set_dev_name "/dev/video0" (startup fs)).
  assert (H0 : framecnt (vars d0) = 0 /\ frame_count (vars d0) = 30)
    by (subst d0; destruct (1 <? _); split; reflexivity).
  pose proof (open_device_exit (w_open w) d0) as Hopen.
  destruct (open_device (w_open w) d0) as [d1| | | |] eqn:E1;
    cbn [mbind result_bind]; try exact I; [|exact Hopen].
  assert (H1 : vars d1 = vars d0).
  { revert E1. unfold open_device. destruct (_ =? -1); [discriminate|].
    destruct (negb _); [discriminate|].
    destruct (_ =? -1); [discriminate|]. intros [= <-]. reflexivity. }
  pose proof (init_device_exit (w_init w) d1) as Hinit.
  destruct (init_device (w_init w) d1) as [d2| | | |] eqn:E2;
    cbn [mbind result_bind]; try exact I; [|exact Hinit].
  destruct (init_device_inv _ _ _ E2)
    as (qc & fa & _ & _ & _ & _ & _ & _ & _ & _ & _ & _ & _ & _ & _ & _ & _
        & _ & Hcnt & Hbud & _).
  rewrite H1 in Hcnt, Hbud. destruct H0 as [Hc0 Hb0].
  rewrite Hc0 in Hcnt. rewrite Hb0 in Hbud.
  pose proof (start_capturing_exit (w_start w) (vars d2)) as Hstart.
  destruct (start_capturing (w_start w) (vars d2)) as [[]| | | |];
    cbn [mbind result_bind]; try exact I; [|exact Hstart].
  unfold mainloop. rewrite Hbud. change (0 <? to_uint 30) with true.
  cbv iota. change (to_uint 30) with 30.
  pose proof (for_loop_outcome (w_frames w) 30 (vars d2) ltac:(lia)) as Hloop.
  destruct (for_loop (w_frames w) 30 (vars d2)) as [[g3 rest]| | | |];
    cbn [mbind result_bind]; try exact I; [|exact Hloop].
  destruct Hloop as [_ Hc3]. rewrite Hcnt in Hc3.
  change (to_uint (0 + 30)) with 30 in Hc3.
  pose proof (xioctl_exit_failure (w_stop w) "VIDIOC_STREAMOFF" g3) as Hstop.
  fold (stop_capturing (w_stop w) g3) in Hstop.
  destruct (stop_capturing (w_stop w) g3) as [[]| | | |];
    cbn [mbind result_bind]; try exact I; [|exact Hstop].
  unfold uninit_device.
  pose proof (unmap_buffers_exit (w_munmap w) 0 g3) as Hun.
  destruct (unmap_buffers (w_munmap w) 0 g3) as [[]| | | |];
    cbn [mbind result_bind]; try exact I; [|exact Hun].
  unfold close_device. cbn [vars set_vars].
  destruct ((w_close w).1 =? -1); cbn [mbind result_bind];
    [reflexivity|].
  cbn [fd set_fd vars set_vars buffers framecnt set_buffers]. auto.
Qed.

End Main.


(** ** A run in which every call succeeds *)

Section CompleteRun.










End CompleteRun.
